(** * Storefront custom elements: a shallow embedding and its properties

    The repository is a set of browser custom elements (a sticky
    add-to-cart bar in two variants, a header with a mobile drawer, a
    lazy-loading video player and a collapsible product description).
    Every element is modelled as a record holding its instance fields
    together with the part of the DOM it reads and writes (attributes,
    class list, inline styles, child media elements).  Methods are
    functions on that record; what a method asks of the browser
    (animation frames, observers, console output, messages posted to an
    iframe) is threaded through a [Window] record or collected in a log.

    Numbers the code computes with (the pixel heights of the product
    description, the ids of a [variant:update] payload) are doubles,
    with the arithmetic and the comparisons of the engine.  Numbers the
    code only compares with constants (intersection ratios, the top of
    a bounding rectangle) are rationals: every finite double is one,
    and [===], [<=], [>] agree with the rational order on them. *)

From Stdlib Require Import QArith Qabs Qround ZArith Bool List Ascii Floats.
From stdpp Require Import base strings gmap list pretty.
Import ListNotations.

Local Open Scope string_scope.

(** ** JavaScript values and the operators the elements rely on *)
Module Js.

(** A value.  Numbers are doubles; an object (an array, a function, a
    symbol) is known by the string its [toString()] returns. *)
Inductive value :=
| VUndefined
| VNull
| VBool (b : bool)
| VNum (x : float)
| VBigInt (n : Z)
| VStr (s : string)
| VObject (text : string).

(** Truthiness of a number: neither a zero nor NaN. *)
Definition ntruthy (x : float) : bool := negb (PrimFloat.eqb x 0 || PrimFloat.is_nan x).

(** ToBoolean *)
Definition truthy (v : value) : bool :=
  match v with
  | VUndefined | VNull => false
  | VBool b => b
  | VNum x => ntruthy x
  | VBigInt n => negb (n =? 0)%Z
  | VStr s => negb (String.eqb s EmptyString)
  | VObject _ => true
  end.

Definition nullish (v : value) : bool :=
  match v with
  | VUndefined | VNull => true
  | _ => false
  end.

(** [a ?? b] *)
Definition coalesce (a b : value) : value := if nullish a then b else a.

(** The built-ins that take a number to a string and a string to a
    number.  The elements only call them; which digits come out of a
    double, and which double out of a run of digits, is the engine's
    business. *)
Record Engine := {
  (** [Number.prototype.toString], radix 10 *)
  Number_toString : float -> string;
  (** [Number.parseInt(str, 10)] *)
  Number_parseInt : string -> float;
}.

(** [v.toString()] on a non-nullish value *)
Definition toString (js : Engine) (v : value) : string :=
  match v with
  | VUndefined => "undefined"
  | VNull => "null"
  | VBool true => "true"
  | VBool false => "false"
  | VNum x => Number_toString js x
  | VBigInt n => pretty n
  | VStr s => s
  | VObject text => text
  end.

(** [v?.toString()]: [None] stands for [undefined]. *)
Definition opt_toString (js : Engine) (v : value) : option string :=
  if nullish v then None else Some (toString js v).

(** Truthiness of a string that may be [undefined] (a dataset entry, an
    attribute read through a property). *)
Definition struthy (o : option string) : bool :=
  match o with
  | Some s => negb (String.eqb s EmptyString)
  | None => false
  end.

(** [a || b] on possibly undefined strings *)
Definition sor (a b : option string) : option string :=
  if struthy a then a else b.

(** [a || "literal"] *)
Definition sor_lit (a : option string) (d : string) : string :=
  match a with
  | Some s => if String.eqb s EmptyString then d else s
  | None => d
  end.

(** [a === "literal"] on a possibly undefined string *)
Definition seq_lit (a : option string) (d : string) : bool :=
  match a with
  | Some s => String.eqb s d
  | None => false
  end.

(** [Number.isFinite(x)] *)
Definition Number_isFinite (x : float) : bool :=
  negb (PrimFloat.is_nan x || PrimFloat.is_infinity x).

(** [Math.max(a, b)]: NaN if either is, and +0 above -0. *)
Definition Math_max (a b : float) : float :=
  if PrimFloat.is_nan a || PrimFloat.is_nan b then nan
  else if PrimFloat.ltb a b then b
  else if PrimFloat.ltb b a then a
  else if PrimFloat.get_sign a then b else a.

(** *** An engine to run examples on

    [Number::toString] picks the shortest run of decimal digits that
    reads back as the same double, the closest such run if there are
    several, and writes it plainly when the decimal exponent lies
    between -6 and 21, with an exponent otherwise. *)

Definition pow2 (e : Z) : Q :=
  if (0 <=? e)%Z then inject_Z (2 ^ e) else Qinv (inject_Z (2 ^ (- e))).

Definition pow10 (j : Z) : Q :=
  if (0 <=? j)%Z then inject_Z (10 ^ j) else Qinv (inject_Z (10 ^ (- j))).

Definition Qltb (a b : Q) : bool := negb (Qle_bool b a).

(** The decimal exponent [n] of a positive [v]: 10^(n-1) <= v < 10^n. *)
Fixpoint decimal_exponent (fuel : nat) (n : Z) (v : Q) : Z :=
  match fuel with
  | O => n
  | S fuel => if Qltb v (pow10 n) then n else decimal_exponent fuel (n + 1)%Z v
  end.

(** The digits [s] and exponent [n] of the double [m * 2^e]: the first
    [k] for which [s * 10^(n-k)] lies in the rounding interval. *)
Fixpoint shortest (fuel : nat) (k : Z) (n : Z) (v lo hi : Q) (inclusive : bool)
  : Z * Z :=
  match fuel with
  | O => (0%Z, n)
  | S fuel =>
      let unit := pow10 (n - k) in
      let s1 := Qfloor (v / unit) in
      let inside (s : Z) :=
        let c := (inject_Z s * unit)%Q in
        if inclusive then Qle_bool lo c && Qle_bool c hi
        else Qltb lo c && Qltb c hi in
      let pick (s : Z) :=
        if (s =? 10 ^ k)%Z then (10 ^ (k - 1), n + 1)%Z else (s, n) in
      match inside s1, inside (s1 + 1)%Z with
      | true, false => pick s1
      | false, true => pick (s1 + 1)%Z
      | true, true =>
          let d1 := (v - inject_Z s1 * unit)%Q in
          let d2 := (inject_Z (s1 + 1) * unit - v)%Q in
          if Qltb d1 d2 then pick s1
          else if Qltb d2 d1 then pick (s1 + 1)%Z
          else if Z.even s1 then pick s1 else pick (s1 + 1)%Z
      | false, false => shortest fuel (k + 1)%Z n v lo hi inclusive
      end
  end.

Fixpoint zeros (n : nat) : string :=
  match n with
  | O => ""
  | S n => "0" ++ zeros n
  end.

(** Steps 6 to 10 of [Number::toString] on the digits [s] ([k] of
    them) and the exponent [n]. *)
Definition render (s n : Z) : string :=
  let digits := pretty s in
  let k := Z.of_nat (String.length digits) in
  if ((-6 <? n) && (n <=? 21))%Z then
    if (k <=? n)%Z then digits ++ zeros (Z.to_nat (n - k))
    else if (0 <? n)%Z then
      String.substring 0 (Z.to_nat n) digits ++ "." ++
      String.substring (Z.to_nat n) (Z.to_nat (k - n)) digits
    else "0." ++ zeros (Z.to_nat (- n)) ++ digits
  else
    let e := (n - 1)%Z in
    let exponent := (if (e <? 0)%Z then "-" else "+") ++ pretty (Z.abs e) in
    if (k =? 1)%Z then digits ++ "e" ++ exponent
    else String.substring 0 1 digits ++ "." ++
         String.substring 1 (Z.to_nat (k - 1)) digits ++ "e" ++ exponent.

Definition positive_toString (m : positive) (e : Z) : string :=
  let v := (inject_Z (Zpos m) * pow2 e)%Q in
  let hi := (v + pow2 (e - 1))%Q in
  let lo :=
    if (Zpos m =? 2 ^ 52)%Z && (-1074 <? e)%Z then (v - pow2 (e - 2))%Q
    else (v - pow2 (e - 1))%Q in
  let n := decimal_exponent 700 (-330) v in
  let '(s, n) := shortest 17 1 n v lo hi (Z.even (Zpos m)) in
  render s n.

Definition sample_Number_toString (x : float) : string :=
  match Prim2SF x with
  | S754_nan => "NaN"
  | S754_zero _ => "0"
  | S754_infinity false => "Infinity"
  | S754_infinity true => "-Infinity"
  | S754_finite false m e => positive_toString m e
  | S754_finite true m e => "-" ++ positive_toString m e
  end.

(** [Number.parseInt(str, 10)]: white space is skipped, then a sign and
    the longest run of decimal digits are read; NaN without a digit.
    A string holds the UTF-8 bytes of the text. *)
Definition white_space : list (list nat) :=
  [ [9]; [10]; [11]; [12]; [13]; [32]; [194; 160]; [225; 154; 128];
    [226; 128; 128]; [226; 128; 129]; [226; 128; 130]; [226; 128; 131];
    [226; 128; 132]; [226; 128; 133]; [226; 128; 134]; [226; 128; 135];
    [226; 128; 136]; [226; 128; 137]; [226; 128; 138]; [226; 128; 168];
    [226; 128; 169]; [226; 128; 175]; [226; 129; 159]; [227; 128; 128];
    [239; 187; 191] ]%nat.

Fixpoint strip_bytes (bytes : list nat) (str : string) : option string :=
  match bytes, str with
  | [], _ => Some str
  | b :: bytes, String c rest =>
      if (nat_of_ascii c =? b)%nat then strip_bytes bytes rest else None
  | _ :: _, EmptyString => None
  end.

Definition strip_one_white_space (str : string) : option string :=
  fold_right (λ bytes found,
                match strip_bytes bytes str with
                | Some rest => Some rest
                | None => found
                end) None white_space.

Fixpoint skip_white_space (fuel : nat) (str : string) : string :=
  match fuel with
  | O => str
  | S fuel =>
      match strip_one_white_space str with
      | Some rest => skip_white_space fuel rest
      | None => str
      end
  end.

Definition digit (c : ascii) : option Z :=
  let n := Z.of_nat (nat_of_ascii c) in
  if ((48 <=? n) && (n <=? 57))%Z then Some (n - 48)%Z else None.

Fixpoint digits (acc : option Z) (str : string) : option Z :=
  match str with
  | String c rest =>
      match digit c with
      | Some d => digits (Some (10 * default 0%Z acc + d)%Z) rest
      | None => acc
      end
  | EmptyString => acc
  end.

(** The double nearest to an integer. *)
Definition of_Z (n : Z) : float := SF2Prim (binary_normalize prec emax n 0 false).

Definition sample_Number_parseInt (str : string) : float :=
  let str := skip_white_space (String.length str) str in
  let '(negative, rest) :=
    match str with
    | String "-"%char rest => (true, rest)
    | String "+"%char rest => (false, rest)
    | _ => (false, str)
    end in
  match digits None rest with
  | Some n => if negative then PrimFloat.opp (of_Z n) else of_Z n
  | None => nan
  end.

Definition sample_engine : Engine :=
  {| Number_toString := sample_Number_toString;
     Number_parseInt := sample_Number_parseInt |}.

End Js.

(** ** The browser services shared by the elements *)
Module Browser.

(** DOM nodes are known by identity only. *)
Definition Node := nat.

(** [document.querySelector] and friends: a selector to the first match. *)
Definition Document := string -> option Node.

(** A line written with [console.warn]. *)
Inductive ConsoleEntry :=
| Warn (msg : string).

(** An [IntersectionObserver] object.  [io_id] is its identity (the
    number of observers constructed before it), [io_observing] the
    targets it currently watches. *)
Record IntersectionObserver := {
  io_id : nat;
  io_rootMargin : string;
  io_threshold : list Q;
  io_observing : list Node;
}.

Definition observe (n : Node) (o : IntersectionObserver) : IntersectionObserver :=
  {| io_id := io_id o; io_rootMargin := io_rootMargin o;
     io_threshold := io_threshold o;
     io_observing := if decide (n ∈ io_observing o) then io_observing o
                     else io_observing o ++ [n] |}.

Definition unobserve (n : Node) (o : IntersectionObserver) : IntersectionObserver :=
  {| io_id := io_id o; io_rootMargin := io_rootMargin o;
     io_threshold := io_threshold o;
     io_observing := filter (λ m, m ≠ n) (io_observing o) |}.

Definition disconnect (o : IntersectionObserver) : IntersectionObserver :=
  {| io_id := io_id o; io_rootMargin := io_rootMargin o;
     io_threshold := io_threshold o;
     io_observing := [] |}.

(** What an observer callback receives for one target. *)
Record IntersectionObserverEntry := {
  intersectionRatio : Q;
  isIntersecting : bool;
  boundingClientRect_bottom : Q;
}.

(** The window: animation-frame callbacks waiting for the next frame
    (by handle, oldest first), the next handle, the console, and the
    number of intersection observers constructed so far. *)
Record Window := {
  rafPending : list nat;
  rafNext : nat;
  console : list ConsoleEntry;
  ioCount : nat;
}.

Definition requestAnimationFrame (w : Window) : nat * Window :=
  (rafNext w,
   {| rafPending := rafPending w ++ [rafNext w]; rafNext := S (rafNext w);
      console := console w; ioCount := ioCount w |}).

Definition cancelAnimationFrame (h : nat) (w : Window) : Window :=
  {| rafPending := filter (λ k, k ≠ h) (rafPending w); rafNext := rafNext w;
     console := console w; ioCount := ioCount w |}.

Definition console_add (e : ConsoleEntry) (w : Window) : Window :=
  {| rafPending := rafPending w; rafNext := rafNext w;
     console := console w ++ [e]; ioCount := ioCount w |}.

(** [new IntersectionObserver(cb, {root: null, rootMargin, threshold})];
    an observer built without a margin has the default, 0px. *)
Definition newIntersectionObserver (margin : string) (th : list Q) (w : Window)
  : IntersectionObserver * Window :=
  ({| io_id := ioCount w; io_rootMargin := margin; io_threshold := th;
      io_observing := [] |},
   {| rafPending := rafPending w; rafNext := rafNext w;
      console := console w; ioCount := S (ioCount w) |}).

(** The frame about to run takes the callbacks scheduled so far. *)
Definition take_frame (w : Window) : list nat * Window :=
  (rafPending w,
   {| rafPending := []; rafNext := rafNext w;
      console := console w; ioCount := ioCount w |}).

Definition fresh_window : Window :=
  {| rafPending := []; rafNext := 1; console := []; ioCount := 0 |}.

End Browser.

(** ** Sticky add-to-cart bar, target-observing variant
    (first class of [src/unnamed/part_000]) *)
Module StickyATC.
Import Browser.

Record t := {
  _targetSelector : string;
  _targetNode : option Node;
  _observer : option IntersectionObserver;
  _retryFrame : option nat;
  _retryCount : nat;
  classList : gset string;
  attributes : gmap string string;
}.

(** The state the constructor leaves, for an element with the given
    markup. *)
Definition constructor (classes : gset string) (attrs : gmap string string) : t :=
  {| _targetSelector := ".product-form-buttons";
     _targetNode := None;
     _observer := None;
     _retryFrame := None;
     _retryCount := 0;
     classList := classes;
     attributes := attrs |}.

Definition set_targetSelector (v : string) (s : t) : t :=
  {| _targetSelector := v; _targetNode := _targetNode s;
     _observer := _observer s; _retryFrame := _retryFrame s;
     _retryCount := _retryCount s; classList := classList s;
     attributes := attributes s |}.

Definition set_targetNode (v : option Node) (s : t) : t :=
  {| _targetSelector := _targetSelector s; _targetNode := v;
     _observer := _observer s; _retryFrame := _retryFrame s;
     _retryCount := _retryCount s; classList := classList s;
     attributes := attributes s |}.

Definition set_observer (v : option IntersectionObserver) (s : t) : t :=
  {| _targetSelector := _targetSelector s; _targetNode := _targetNode s;
     _observer := v; _retryFrame := _retryFrame s;
     _retryCount := _retryCount s; classList := classList s;
     attributes := attributes s |}.

Definition set_retryFrame (v : option nat) (s : t) : t :=
  {| _targetSelector := _targetSelector s; _targetNode := _targetNode s;
     _observer := _observer s; _retryFrame := v;
     _retryCount := _retryCount s; classList := classList s;
     attributes := attributes s |}.

Definition set_retryCount (v : nat) (s : t) : t :=
  {| _targetSelector := _targetSelector s; _targetNode := _targetNode s;
     _observer := _observer s; _retryFrame := _retryFrame s;
     _retryCount := v; classList := classList s;
     attributes := attributes s |}.

Definition set_classList (v : gset string) (s : t) : t :=
  {| _targetSelector := _targetSelector s; _targetNode := _targetNode s;
     _observer := _observer s; _retryFrame := _retryFrame s;
     _retryCount := _retryCount s; classList := v;
     attributes := attributes s |}.

Definition classList_add (c : string) (s : t) : t :=
  set_classList (classList s ∪ {[c]}) s.

Definition classList_remove (c : string) (s : t) : t :=
  set_classList (classList s ∖ {[c]}) s.

Definition dquote : string := String (Ascii.ascii_of_nat 34) EmptyString.

Definition not_found_message (sel : string) : string :=
  "[sticky-atc] Target " ++ dquote ++ sel ++ dquote ++ " not found.".

(** [_attachObserver()]: one attach attempt against the current
    document. *)
Definition _attachObserver (doc : Document) (ws : Window * t) : Window * t :=
  let '(w, s) := ws in
  let s := set_targetNode (doc (_targetSelector s)) s in
  match _targetNode s with
  | None =>
      if (_retryCount s <? 10)%nat then
        let s := set_retryCount (_retryCount s + 1) s in
        let '(h, w) := requestAnimationFrame w in
        (w, set_retryFrame (Some h) s)
      else
        let w := console_add (Warn (not_found_message (_targetSelector s))) w in
        (w, classList_add "is-visible" s)
  | Some target =>
      let s := set_retryCount 0 s in
      let '(o, w) := newIntersectionObserver "0px" [0; 0.1; 0.25; 0.5; 0.75; 1]%Q w in
      (w, set_observer (Some (observe target o)) s)
  end.

Definition connectedCallback (doc : Document) (ws : Window * t) : Window * t :=
  let '(w, s) := ws in
  let s := set_targetSelector
             (Js.sor_lit (attributes s !! "data-target-selector") ".product-form-buttons") s in
  _attachObserver doc (w, s).

Definition disconnectedCallback (ws : Window * t) : Window * t :=
  let '(w, s) := ws in
  let s := match _observer s, _targetNode s with
           | Some o, Some n => set_observer (Some (unobserve n o)) s
           | _, _ => s
           end in
  match _retryFrame s with
  | Some h => (cancelAnimationFrame h w, set_retryFrame None s)
  | None => (w, s)
  end.

(** One animation frame: the browser runs the callbacks that were
    scheduled before the frame began; each of them is
    [_attachObserver], the only callback this element ever schedules. *)
Definition animationFrame (doc : Document) (ws : Window * t) : Window * t :=
  let '(w, s) := ws in
  let '(due, w) := take_frame w in
  fold_left (λ acc _, _attachObserver doc acc) due (w, s).

(** The frames that follow, one document per frame. *)
Definition animationFrames (docs : list Document) (ws : Window * t) : Window * t :=
  fold_left (λ acc doc, animationFrame doc acc) docs ws.

(** [_handleIntersection(entries)] *)
Fixpoint _handleIntersection (entries : list IntersectionObserverEntry) (s : t) : t :=
  match entries with
  | [] => s
  | entry :: rest =>
      if Qeq_bool (intersectionRatio entry) 0 then classList_add "is-visible" s
      else if Qle_bool 0.75 (intersectionRatio entry) then classList_remove "is-visible" s
      else _handleIntersection rest s
  end.

(** An entry that decides nothing: its ratio lies strictly between 0
    and 0.75. *)
Definition undecided (e : IntersectionObserverEntry) : Prop :=
  (0 < intersectionRatio e /\ intersectionRatio e < 0.75)%Q.

(** An entry as the browser reports it for a target seen at the given
    ratio, below the top edge of the viewport. *)
Definition entry_at (ratio : Q) : IntersectionObserverEntry :=
  {| intersectionRatio := ratio;
     isIntersecting := negb (Qeq_bool ratio 0);
     boundingClientRect_bottom := 400 |}.

(** The selector [connectedCallback] settles on. *)
Definition configured_selector (attrs : gmap string string) : string :=
  Js.sor_lit (attrs !! "data-target-selector") ".product-form-buttons".

(** A document in which the selector matches nothing. *)
Definition target_missing (sel : string) (doc : Document) : Prop := doc sel = None.

Definition no_target : Document := λ _, None.

(** The bar between two attempts, [k + 1] attempts having failed:
    one animation-frame callback is waiting. *)
Definition retrying (classes : gset string) (attrs : gmap string string)
    (w0 : Window) (k : nat) : Window * t :=
  ({| rafPending := [rafNext w0 + k]; rafNext := S (rafNext w0 + k);
      console := console w0; ioCount := ioCount w0 |},
   {| _targetSelector := configured_selector attrs; _targetNode := None;
      _observer := None; _retryFrame := Some (rafNext w0 + k);
      _retryCount := S k; classList := classes; attributes := attrs |}).

(** The bar after it has given up. *)
Definition gave_up (classes : gset string) (attrs : gmap string string)
    (w0 : Window) : Window * t :=
  ({| rafPending := []; rafNext := rafNext w0 + 10;
      console := console w0 ++ [Warn (not_found_message (configured_selector attrs))];
      ioCount := ioCount w0 |},
   {| _targetSelector := configured_selector attrs; _targetNode := None;
      _observer := None; _retryFrame := Some (rafNext w0 + 9);
      _retryCount := 10; classList := classes ∪ {["is-visible"]};
      attributes := attrs |}).

End StickyATC.

(** ** Sticky add-to-cart bar, anchor-tracking variant
    (second class of [src/unnamed/part_000]) *)
Module StickyAtcElement.
Import Browser.

(** The child nodes the element keeps references to.  Nothing else in
    the model writes to them, so each field carries the node's state. *)
Record AnchorEl := { href : option string; a_hidden : bool }.
Record VariantEl := { textContent : string; v_hidden : bool }.
Record ImgEl := {
  img_src : string; img_srcset : string; img_sizes : string;
  img_alt : string; img_loading : string;
}.

Record MutationObserver := { mo_observing : option Node }.

Record t := {
  section : option Node;
  listening : bool;
  productId : string;
  titleLink : option AnchorEl;
  variantTarget : option VariantEl;
  mediaLink : option AnchorEl;
  mediaImage : option ImgEl;
  anchorElement : option Node;
  intersectionObserver : option IntersectionObserver;
  anchorMutationObserver : option MutationObserver;
  attributes : gmap string string;
}.

(** What the element finds around it when it is connected. *)
Record Markup := {
  closest_section : option Node;
  q_title : option AnchorEl;
  q_variant : option VariantEl;
  q_media : option AnchorEl;
  q_media_img : option ImgEl;
}.

(** What the handlers read from the page when they run: the node the
    section currently holds under [data-sticky-atc-anchor] with the
    bottom edge of its bounding rectangle, and the [URL] constructor
    followed by [searchParams.set('width', w)] and [toString()]
    ([None] when the constructor throws). *)
Record Page := {
  anchor_in_section : option (Node * Q);
  url_with_width : string -> string -> option string;
}.

Definition set_section v (s : t) : t :=
  Build_t v (listening s) (productId s) (titleLink s) (variantTarget s)
    (mediaLink s) (mediaImage s) (anchorElement s) (intersectionObserver s)
    (anchorMutationObserver s) (attributes s).
Definition set_listening v (s : t) : t :=
  Build_t (section s) v (productId s) (titleLink s) (variantTarget s) (mediaLink s)
    (mediaImage s) (anchorElement s) (intersectionObserver s)
    (anchorMutationObserver s) (attributes s).
Definition set_productId v (s : t) : t :=
  Build_t (section s) (listening s) v (titleLink s) (variantTarget s) (mediaLink s)
    (mediaImage s) (anchorElement s) (intersectionObserver s)
    (anchorMutationObserver s) (attributes s).
Definition set_titleLink v (s : t) : t :=
  Build_t (section s) (listening s) (productId s) v (variantTarget s) (mediaLink s)
    (mediaImage s) (anchorElement s) (intersectionObserver s)
    (anchorMutationObserver s) (attributes s).
Definition set_variantTarget v (s : t) : t :=
  Build_t (section s) (listening s) (productId s) (titleLink s) v (mediaLink s)
    (mediaImage s) (anchorElement s) (intersectionObserver s)
    (anchorMutationObserver s) (attributes s).
Definition set_mediaLink v (s : t) : t :=
  Build_t (section s) (listening s) (productId s) (titleLink s) (variantTarget s) v
    (mediaImage s) (anchorElement s) (intersectionObserver s)
    (anchorMutationObserver s) (attributes s).
Definition set_mediaImage v (s : t) : t :=
  Build_t (section s) (listening s) (productId s) (titleLink s) (variantTarget s)
    (mediaLink s) v (anchorElement s) (intersectionObserver s)
    (anchorMutationObserver s) (attributes s).
Definition set_anchorElement v (s : t) : t :=
  Build_t (section s) (listening s) (productId s) (titleLink s) (variantTarget s)
    (mediaLink s) (mediaImage s) v (intersectionObserver s)
    (anchorMutationObserver s) (attributes s).
Definition set_intersectionObserver v (s : t) : t :=
  Build_t (section s) (listening s) (productId s) (titleLink s) (variantTarget s)
    (mediaLink s) (mediaImage s) (anchorElement s) v (anchorMutationObserver s)
    (attributes s).
Definition set_anchorMutationObserver v (s : t) : t :=
  Build_t (section s) (listening s) (productId s) (titleLink s) (variantTarget s)
    (mediaLink s) (mediaImage s) (anchorElement s) (intersectionObserver s) v
    (attributes s).
Definition set_attributes v (s : t) : t :=
  Build_t (section s) (listening s) (productId s) (titleLink s) (variantTarget s)
    (mediaLink s) (mediaImage s) (anchorElement s) (intersectionObserver s)
    (anchorMutationObserver s) v.

Definition setAttribute (name val : string) (s : t) : t :=
  set_attributes (<[name := val]> (attributes s)) s.

(** [getAnchor()] *)
Definition getAnchor (pg : Page) (s : t) : option (Node * Q) :=
  match section s with
  | Some _ => anchor_in_section pg
  | None => None
  end.

(** [setVisibility(shouldShow)] *)
Definition setVisibility (shouldShow : bool) (s : t) : t :=
  let currentState := negb (Js.seq_lit (attributes s !! "aria-hidden") "false") in
  if Bool.eqb shouldShow (negb currentState) then s
  else
    let s := setAttribute "aria-hidden" (if shouldShow then "false" else "true") s in
    setAttribute "data-visible" (if shouldShow then "true" else "false") s.

(** [createIntersectionObserver(anchor)] *)
Definition createIntersectionObserver (anchor : Node * Q) (ws : Window * t) : Window * t :=
  let '(w, s) := ws in
  match intersectionObserver s with
  | Some _ => (w, s)
  | None =>
      let '(o, w) := newIntersectionObserver "0px" [0]%Q w in
      let s := set_intersectionObserver (Some (observe (fst anchor) o)) s in
      let s := set_anchorElement (Some (fst anchor)) s in
      let shouldShow := Qle_bool (snd anchor) 0 in
      (w, setVisibility shouldShow s)
  end.

(** [handleAnchorIntersect(entries)] *)
Definition handleAnchorIntersect (entries : list IntersectionObserverEntry) (s : t) : t :=
  match entries with
  | [] => s
  | entry :: _ =>
      let shouldShow :=
        negb (isIntersecting entry) && Qle_bool (boundingClientRect_bottom entry) 0 in
      setVisibility shouldShow s
  end.

(** [resetIntersectionObserver(anchor)] *)
Definition resetIntersectionObserver (anchor : Node * Q) (ws : Window * t) : Window * t :=
  let '(w, s) := ws in
  createIntersectionObserver anchor (w, set_intersectionObserver None s).

(** [disconnectObservers()] *)
Definition disconnectObservers (s : t) : t :=
  let s := set_intersectionObserver None s in
  let s := set_anchorElement None s in
  set_anchorMutationObserver None s.

(** [toggleVariantVisibility(visible)] *)
Definition toggleVariantVisibility (visible : bool) (s : t) : t :=
  match variantTarget s with
  | None => s
  | Some v =>
      if visible then
        set_variantTarget (Some {| textContent := textContent v; v_hidden := false |}) s
      else if negb (v_hidden v) then
        set_variantTarget (Some {| textContent := textContent v; v_hidden := true |}) s
      else s
  end.

Definition set_textContent (txt : string) (s : t) : t :=
  match variantTarget s with
  | None => s
  | Some v => set_variantTarget (Some {| textContent := txt; v_hidden := v_hidden v |}) s
  end.

(** [updateVariantTitle(title)] *)
Definition updateVariantTitle (title : string) (s : t) : t :=
  match variantTarget s with
  | None => s
  | Some _ =>
      let hasTitle :=
        negb (String.eqb title "") && negb (String.eqb title "Default Title") in
      let s := toggleVariantVisibility hasTitle s in
      if negb hasTitle then set_textContent "" s
      else set_textContent title s
  end.

(** The payload of a [variant:update] event. *)
Record PreviewImage := { src : option string; alt : option string }.
Record FeaturedMedia := { preview_image : option PreviewImage }.
Record VariantResource := {
  url : option string;
  title : option string;
  featured_media : option FeaturedMedia;
}.
Record NewProduct := { id : Js.value; np_url : option string }.
Record EventData := { newProduct : option NewProduct; data_productId : Js.value }.
Record Detail := { resource : option VariantResource; data : option EventData }.
Record VariantUpdateEvent := { detail : option Detail }.

Definition empty_resource : VariantResource :=
  {| url := None; title := None; featured_media := None |}.

(** [previewSrc.includes('?')] *)
Fixpoint includes_question (str : string) : bool :=
  match str with
  | EmptyString => false
  | String c rest => Ascii.eqb c "?"%char || includes_question rest
  end.

(** The [buildSrc] closure of [updateMedia]. *)
Definition buildSrc (pg : Page) (previewSrc : string) (width : nat) : string :=
  match url_with_width pg previewSrc (pretty width) with
  | Some u => u
  | None =>
      let separator := if includes_question previewSrc then "&" else "?" in
      previewSrc ++ separator ++ "width=" ++ pretty width
  end.

(** [updateMedia(variant)] *)
Definition updateMedia (pg : Page) (variant : VariantResource) (s : t) : t :=
  match mediaLink s with
  | None => s
  | Some link =>
      let previewImage :=
        match featured_media variant with
        | Some fm => preview_image fm
        | None => None
        end in
      let previewSrc := match previewImage with Some p => src p | None => None end in
      match previewSrc with
      | Some psrc =>
          if String.eqb psrc "" then
            set_mediaLink (Some {| href := href link; a_hidden := true |}) s
          else
            let s := set_mediaLink (Some {| href := href link; a_hidden := false |}) s in
            let img :=
              match mediaImage s with
              | Some i => i
              | None => {| img_src := ""; img_srcset := ""; img_sizes := "";
                           img_alt := ""; img_loading := "lazy" |}
              end in
            let widths := [80; 120; 160]%nat in
            let palt := match previewImage with Some p => alt p | None => None end in
            set_mediaImage
              (Some {| img_src := buildSrc pg psrc 120;
                       img_srcset :=
                         String.concat ", "
                           (map (λ width, buildSrc pg psrc width ++ " " ++ pretty width ++ "w")
                                widths);
                       img_sizes := "(max-width: 480px) 80px, 120px";
                       img_alt :=
                         Js.sor_lit (Js.sor palt (attributes s !! "data-product-title")) "";
                       img_loading := img_loading img |}) s
      | None => set_mediaLink (Some {| href := href link; a_hidden := true |}) s
      end
  end.

Definition set_href (v : string) (l : option AnchorEl) : option AnchorEl :=
  match l with
  | Some a => Some {| href := Some v; a_hidden := a_hidden a |}
  | None => None
  end.

(** The product id an event carries:
    [(data.newProduct?.id ?? data.productId)?.toString()] *)
Definition event_productId (js : Js.Engine) (d : EventData) : option string :=
  Js.opt_toString js
    (Js.coalesce (match newProduct d with Some np => id np | None => Js.VUndefined end)
                 (data_productId d)).

(** [handleVariantUpdate(event)] *)
Definition handleVariantUpdate (js : Js.Engine) (pg : Page) (event : VariantUpdateEvent)
    (ws : Window * t) : Window * t :=
  let '(w, s) := ws in
  match detail event with
  | None => (w, s)
  | Some det =>
      match data det with
      | None => (w, s)
      | Some d =>
          match event_productId js d with
          | None => (w, s)
          | Some pid =>
              if String.eqb pid "" || negb (String.eqb pid (productId s)) then (w, s)
              else
                let s := set_productId pid s in
                let s := setAttribute "data-product-id" pid s in
                let variantResource := default empty_resource (resource det) in
                let targetUrl :=
                  Js.sor (url variantResource)
                    (Js.sor (match newProduct d with Some np => np_url np | None => None end)
                            (attributes s !! "data-product-url")) in
                let s :=
                  if Js.struthy targetUrl then
                    let u := default "" targetUrl in
                    let s := set_titleLink (set_href u (titleLink s)) s in
                    let s := set_mediaLink (set_href u (mediaLink s)) s in
                    setAttribute "data-product-url" u s
                  else s in
                let currentAnchor := getAnchor pg s in
                let '(w, s) :=
                  match currentAnchor with
                  | Some a =>
                      if bool_decide (Some (fst a) ≠ anchorElement s)
                      then resetIntersectionObserver a (w, s)
                      else (w, s)
                  | None => (w, s)
                  end in
                let variantTitle := default "" (title variantResource) in
                let s := updateVariantTitle variantTitle s in
                (w, updateMedia pg variantResource s)
          end
      end
  end.

(** The callback given to the [MutationObserver] in [observeAnchor]. *)
Definition anchorMutation (pg : Page) (ws : Window * t) : Window * t :=
  match getAnchor pg (snd ws) with
  | None => ws
  | Some a =>
      let '(w, s) := createIntersectionObserver a ws in
      (w, set_anchorMutationObserver None s)
  end.

(** [observeAnchor()] *)
Definition observeAnchor (pg : Page) (ws : Window * t) : Window * t :=
  match getAnchor pg (snd ws) with
  | Some a => createIntersectionObserver a ws
  | None =>
      match section (snd ws) with
      | Some sec =>
          (fst ws, set_anchorMutationObserver (Some {| mo_observing := Some sec |}) (snd ws))
      | None => ws
      end
  end.

Definition connectedCallback (m : Markup) (pg : Page) (ws : Window * t) : Window * t :=
  let '(w, s) := ws in
  let s := set_section (closest_section m) s in
  let s := set_productId (Js.sor_lit (attributes s !! "data-product-id") "") s in
  let s := set_titleLink (q_title m) s in
  let s := set_variantTarget (q_variant m) s in
  let s := set_mediaLink (q_media m) s in
  let s := set_mediaImage (match q_media m with Some _ => q_media_img m | None => None end) s in
  let s := set_anchorElement None s in
  let s := set_intersectionObserver None s in
  let s := set_anchorMutationObserver None s in
  let s := match section s with Some _ => set_listening true s | None => s end in
  let '(w, s) := observeAnchor pg (w, s) in
  let initialVariantTitle := attributes s !! "data-initial-variant-title" in
  if Js.struthy initialVariantTitle
  then (w, updateVariantTitle (default "" initialVariantTitle) s)
  else (w, toggleVariantVisibility false s).

Definition disconnectedCallback (s : t) : t :=
  let s := match section s with Some _ => set_listening false s | None => s end in
  disconnectObservers s.

(** An element that has not been connected yet. *)
Definition created (attrs : gmap string string) : t :=
  {| section := None; listening := false; productId := "";
     titleLink := None; variantTarget := None; mediaLink := None;
     mediaImage := None; anchorElement := None;
     intersectionObserver := None; anchorMutationObserver := None;
     attributes := attrs |}.

(** The product id a [variant:update] event carries, if it carries one. *)
Definition payload_productId (js : Js.Engine) (event : VariantUpdateEvent)
  : option string :=
  match detail event with
  | Some det =>
      match data det with
      | Some d => event_productId js d
      | None => None
      end
  | None => None
  end.

(** The two states the visibility attributes are meant to be in. *)
Definition shown (s : t) : Prop :=
  attributes s !! "aria-hidden" = Some "false" /\
  attributes s !! "data-visible" = Some "true".

Definition concealed (s : t) : Prop :=
  attributes s !! "aria-hidden" = Some "true" /\
  attributes s !! "data-visible" = Some "false".

(** A [variant:update] event for the product with the given id. *)
Definition update_for (pid : Js.value) (r : VariantResource) : VariantUpdateEvent :=
  {| detail :=
       Some {| resource := Some r;
               data := Some {| newProduct := Some {| id := pid; np_url := None |};
                               data_productId := Js.VUndefined |} |} |}.

(** A page whose section holds the anchor, still below the top of the
      viewport, and an element connected to it with the given attributes. *)
Definition sample_markup : Markup :=
  {| closest_section := Some 1%nat;
     q_title := Some {| href := Some "/products/bowl"; a_hidden := false |};
     q_variant := Some {| textContent := "Large"; v_hidden := false |};
     q_media := Some {| href := Some "/products/bowl"; a_hidden := false |};
     q_media_img := None |}.

Definition sample_page : Page :=
  {| anchor_in_section := Some (2%nat, 500%Q);
     url_with_width := λ _ _, None |}.

Definition connected (attrs : gmap string string) : Window * t :=
  connectedCallback sample_markup sample_page (fresh_window, created attrs).

End StickyAtcElement.

(** ** Header component ([src/assets/mk-header.js]; the file holds the
    class twice, with the same [#initMobileMenu]) *)
Module MKHeaderComponent.

Record Icon := { display : option string }.

(** The trigger button with the two icons it may contain. *)
Record MenuButton := {
  aria_expanded : option string;
  openIcon : option Icon;
  closeIcon : option Icon;
}.

(** The page as [#initMobileMenu] sees it: whether
    [#mk-header-component] exists, the trigger button, whether the
    [details] element exists and has its [open] attribute, whether it
    sits in a [header-drawer]; and the listeners added so far. *)
Record t := {
  headerComponent : bool;
  menuButton : option MenuButton;
  drawerDetails : option bool;
  headerDrawer : bool;
  toggleListeners : nat;
  clickListeners : nat;
}.

Definition set_menuButton (b : option MenuButton) (s : t) : t :=
  {| headerComponent := headerComponent s; menuButton := b;
     drawerDetails := drawerDetails s; headerDrawer := headerDrawer s;
     toggleListeners := toggleListeners s; clickListeners := clickListeners s |}.

Definition add_listeners (s : t) : t :=
  {| headerComponent := headerComponent s; menuButton := menuButton s;
     drawerDetails := drawerDetails s; headerDrawer := headerDrawer s;
     toggleListeners := S (toggleListeners s); clickListeners := S (clickListeners s) |}.

Definition set_open (o : bool) (s : t) : t :=
  {| headerComponent := headerComponent s; menuButton := menuButton s;
     drawerDetails := match drawerDetails s with Some _ => Some o | None => None end;
     headerDrawer := headerDrawer s;
     toggleListeners := toggleListeners s; clickListeners := clickListeners s |}.

Definition shown : Icon := {| display := Some "block" |}.
Definition hidden : Icon := {| display := Some "none" |}.

(** The [updateButtonState] closure, for the button and [details]
    element that [#initMobileMenu] found. *)
Definition updateButtonState (s : t) : t :=
  match menuButton s, drawerDetails s with
  | Some b, Some isOpen =>
      let b := {| aria_expanded := Some (if isOpen then "true" else "false");
                  openIcon := openIcon b; closeIcon := closeIcon b |} in
      let b :=
        match openIcon b, closeIcon b with
        | Some _, Some _ =>
            if isOpen
            then {| aria_expanded := aria_expanded b;
                    openIcon := Some hidden; closeIcon := Some shown |}
            else {| aria_expanded := aria_expanded b;
                    openIcon := Some shown; closeIcon := Some hidden |}
        | _, _ => b
        end in
      set_menuButton (Some b) s
  | _, _ => s
  end.

(** [#initMobileMenu()] *)
Definition initMobileMenu (s : t) : t :=
  if negb (headerComponent s) then s
  else
    match menuButton s, drawerDetails s, headerDrawer s with
    | Some _, Some _, true =>
        let s := add_listeners s in
        let s := updateButtonState s in
        match menuButton s with
        | Some b =>
            match openIcon b, closeIcon b with
            | Some _, Some _ =>
                set_menuButton
                  (Some {| aria_expanded := aria_expanded b;
                           openIcon := Some shown; closeIcon := Some hidden |}) s
            | _, _ => s
            end
        | None => s
        end
    | _, _, _ => s
    end.

(** The browser dispatches [toggle] on the [details] element: every
    listener added by [#initMobileMenu] runs [updateButtonState]. *)
Definition toggle_event (s : t) : t :=
  Nat.iter (toggleListeners s) updateButtonState s.

(** The click listener on the trigger button (one run of it): it flips
    the [open] attribute.  The [open()] and [close()] methods it then
    calls on the [header-drawer] element belong to the theme. *)
Definition click_listener (s : t) : t :=
  match drawerDetails s with
  | Some true => set_open false s
  | Some false => set_open true s
  | None => s
  end.

(** A page whose drawer is already open when the header initialises:
    the button with both icons, no inline style on either yet. *)
Definition untouched_button : MenuButton :=
  {| aria_expanded := Some "false";
     openIcon := Some {| display := None |};
     closeIcon := Some {| display := None |} |}.

Definition header_with_open_drawer : t :=
  {| headerComponent := true; menuButton := Some untouched_button;
     drawerDetails := Some true; headerDrawer := true;
     toggleListeners := 0; clickListeners := 0 |}.

End MKHeaderComponent.

(** ** Video player ([src/unnamed/part_001]) *)
Module MkVideoPlayer.
Import Browser.

(** The descendants the player looks up by class.  They are kept in
    document order and addressed by position, so that two selectors
    that match the same node read and write the same state. *)
Record VideoState := {
  v_src : option string;
  v_currentSrc : string;
  v_poster : option string;
  v_currentTime : Q;
}.

Record IframeState := {
  f_src : option string;
  f_contentWindow : bool;
}.

Inductive ElKind :=
| HTMLVideoElement (v : VideoState)
| HTMLIFrameElement (f : IframeState)
| HTMLElement.

Record Element := {
  className : list string;
  style_display : option string;
  kind : ElKind;
}.

(** [this.querySelector("." ++ cls)]: position and state of the first
    descendant carrying the class. *)
Fixpoint querySelector_from (i : nat) (cls : string) (l : list Element)
  : option (nat * Element) :=
  match l with
  | [] => None
  | e :: rest =>
      if bool_decide (cls ∈ className e) then Some (i, e)
      else querySelector_from (S i) cls rest
  end.

Definition querySelector (cls : string) (l : list Element) : option (nat * Element) :=
  querySelector_from 0 cls l.

(** Commands sent to a YouTube iframe with [postMessage]; each stands
    for the JSON text with that [func]. *)
Inductive YtCommand := YtPlayVideo | YtPauseVideo | YtStopVideo | YtSeekToStart.

(** Calls into the media elements whose outcome belongs to the browser. *)
Inductive Call :=
| PostMessage (target : nat) (c : YtCommand)
| Load (target : nat)
| Play (target : nat)
| Pause (target : nat).

Record t := {
  this : Node;
  _observer : option IntersectionObserver;
  _isLoaded : bool;
  _isPlaying : bool;
  _aborted : bool;
  classList : gset string;
  attributes : gmap string string;
  children : list Element;
  clickListeners : list nat;
  pendingPlay : nat;
  calls : list Call;
}.

Definition set_observer v (s : t) : t :=
  Build_t (this s) v (_isLoaded s) (_isPlaying s) (_aborted s) (classList s)
    (attributes s) (children s) (clickListeners s) (pendingPlay s) (calls s).
Definition set_isLoaded v (s : t) : t :=
  Build_t (this s) (_observer s) v (_isPlaying s) (_aborted s) (classList s)
    (attributes s) (children s) (clickListeners s) (pendingPlay s) (calls s).
Definition set_isPlaying v (s : t) : t :=
  Build_t (this s) (_observer s) (_isLoaded s) v (_aborted s) (classList s)
    (attributes s) (children s) (clickListeners s) (pendingPlay s) (calls s).
Definition set_aborted v (s : t) : t :=
  Build_t (this s) (_observer s) (_isLoaded s) (_isPlaying s) v (classList s)
    (attributes s) (children s) (clickListeners s) (pendingPlay s) (calls s).
Definition set_classList v (s : t) : t :=
  Build_t (this s) (_observer s) (_isLoaded s) (_isPlaying s) (_aborted s) v
    (attributes s) (children s) (clickListeners s) (pendingPlay s) (calls s).
Definition set_attributes v (s : t) : t :=
  Build_t (this s) (_observer s) (_isLoaded s) (_isPlaying s) (_aborted s)
    (classList s) v (children s) (clickListeners s) (pendingPlay s) (calls s).
Definition set_children v (s : t) : t :=
  Build_t (this s) (_observer s) (_isLoaded s) (_isPlaying s) (_aborted s)
    (classList s) (attributes s) v (clickListeners s) (pendingPlay s) (calls s).
Definition set_clickListeners v (s : t) : t :=
  Build_t (this s) (_observer s) (_isLoaded s) (_isPlaying s) (_aborted s)
    (classList s) (attributes s) (children s) v (pendingPlay s) (calls s).
Definition set_pendingPlay v (s : t) : t :=
  Build_t (this s) (_observer s) (_isLoaded s) (_isPlaying s) (_aborted s)
    (classList s) (attributes s) (children s) (clickListeners s) v (calls s).
Definition set_calls v (s : t) : t :=
  Build_t (this s) (_observer s) (_isLoaded s) (_isPlaying s) (_aborted s)
    (classList s) (attributes s) (children s) (clickListeners s) (pendingPlay s) v.

Definition classList_add (c : string) (s : t) : t :=
  set_classList (classList s ∪ {[c]}) s.
Definition classList_remove (c : string) (s : t) : t :=
  set_classList (classList s ∖ {[c]}) s.
Definition dataset_set (name val : string) (s : t) : t :=
  set_attributes (<[name := val]> (attributes s)) s.
Definition removeAttribute (name : string) (s : t) : t :=
  set_attributes (delete name (attributes s)) s.
Definition call (c : Call) (s : t) : t := set_calls (calls s ++ [c]) s.

(** Writes to the node at position [i]. *)
Definition set_kind (i : nat) (k : ElKind) (s : t) : t :=
  match children s !! i with
  | Some e =>
      set_children
        (<[i := {| className := className e; style_display := style_display e;
                   kind := k |}]> (children s)) s
  | None => s
  end.

Definition set_display (i : nat) (d : string) (s : t) : t :=
  match children s !! i with
  | Some e =>
      set_children
        (<[i := {| className := className e; style_display := Some d;
                   kind := kind e |}]> (children s)) s
  | None => s
  end.

Definition video_at (i : nat) (s : t) : option VideoState :=
  match children s !! i with
  | Some e => match kind e with HTMLVideoElement v => Some v | _ => None end
  | None => None
  end.

Definition iframe_at (i : nat) (s : t) : option IframeState :=
  match children s !! i with
  | Some e => match kind e with HTMLIFrameElement f => Some f | _ => None end
  | None => None
  end.

(** Property writes on the video or iframe at position [i]. *)
Definition update_video (i : nat) (f : VideoState -> VideoState) (s : t) : t :=
  match video_at i s with
  | Some v => set_kind i (HTMLVideoElement (f v)) s
  | None => s
  end.

Definition update_iframe (i : nat) (f : IframeState -> IframeState) (s : t) : t :=
  match iframe_at i s with
  | Some x => set_kind i (HTMLIFrameElement (f x)) s
  | None => s
  end.

Definition with_v_src (x : string) (v : VideoState) : VideoState :=
  {| v_src := Some x; v_currentSrc := v_currentSrc v; v_poster := v_poster v;
     v_currentTime := v_currentTime v |}.

Definition with_v_poster (x : string) (v : VideoState) : VideoState :=
  {| v_src := v_src v; v_currentSrc := v_currentSrc v; v_poster := Some x;
     v_currentTime := v_currentTime v |}.

Definition with_v_currentTime (x : Q) (v : VideoState) : VideoState :=
  {| v_src := v_src v; v_currentSrc := v_currentSrc v; v_poster := v_poster v;
     v_currentTime := x |}.

Definition with_f_src (x : string) (f : IframeState) : IframeState :=
  {| f_src := Some x; f_contentWindow := f_contentWindow f |}.

(** [element.contentWindow?.postMessage(command, "*")] *)
Definition postMessage (i : nat) (c : YtCommand) (s : t) : t :=
  match iframe_at i s with
  | Some f => if f_contentWindow f then call (PostMessage i c) s else s
  | None => s
  end.

(** What the player reads from the window besides its own subtree:
    [matchMedia("(max-width: 749px)").matches], whether [play()] hands
    back a promise, and how the document resolves a [src] attribute
    when the [src] property is read. *)
Record Env := {
  isMobile : bool;
  play_returns_promise : bool;
  resolve_url : string -> string;
}.

(** Reading the [src] property: empty without the attribute, the
    resolved URL otherwise. *)
Definition src_property (env : Env) (a : option string) : string :=
  match a with
  | Some u => resolve_url env u
  | None => ""
  end.

(** [#getCurrentVideo()] *)
Definition getCurrentVideo (s : t) : option (nat * ElKind) :=
  match querySelector "mk-video__element" (children s) with
  | Some (i, e) =>
      match kind e with
      | HTMLVideoElement _ | HTMLIFrameElement _ => Some (i, kind e)
      | HTMLElement => None
      end
  | None => None
  end.

Definition videoType (s : t) : string :=
  Js.sor_lit (attributes s !! "data-video-type") "mp4".

(** [isMobile && mobile ? mobile : desktop] *)
Definition pick_source (mobile : bool) (m d : option string) : option string :=
  if mobile && Js.struthy m then m else d.

(** [video.currentSrc || video.src] *)
Definition current_source (env : Env) (v : VideoState) : string :=
  if String.eqb (v_currentSrc v) "" then src_property env (v_src v)
  else v_currentSrc v.

(** [#setupIntersectionObserver()] *)
Definition setupIntersectionObserver (ws : Window * t) : Window * t :=
  let '(w, s) := ws in
  let '(o, w) := newIntersectionObserver "50px" [0.1]%Q w in
  (w, set_observer (Some (observe (this s) o)) s).

(** [#loadMP4()] *)
Definition loadMP4 (env : Env) (ws : Window * t) : Window * t :=
  let '(w, s) := ws in
  let videoDesktop := attributes s !! "data-video-desktop" in
  let videoMobile := attributes s !! "data-video-mobile" in
  let posterDesktop := attributes s !! "data-poster-desktop" in
  let posterMobile := attributes s !! "data-poster-mobile" in
  if negb (Js.struthy videoDesktop) then
    (console_add (Warn "MkVideoPlayer: No video source provided") w, s)
  else
    let videoSrc := pick_source (isMobile env) videoMobile videoDesktop in
    let posterSrc := pick_source (isMobile env) posterMobile posterDesktop in
    match querySelector "mk-video__element" (children s), videoSrc with
    | Some (i, {| kind := HTMLVideoElement v |}), Some vsrc =>
        let currentSrc := current_source env v in
        let needsReload :=
          String.eqb currentSrc "" || String.eqb currentSrc ""
          || negb (String.eqb currentSrc vsrc) in
        let s :=
          if needsReload then call (Load i) (update_video i (with_v_src vsrc) s)
          else s in
        match posterSrc with
        | Some psrc =>
            if String.eqb psrc "" then (w, s)
            else (w, update_video i (with_v_poster psrc) s)
        | None => (w, s)
        end
    | _, _ => (w, s)
    end.

(** [#loadYouTube()] *)
Definition loadYouTube (env : Env) (ws : Window * t) : Window * t :=
  let '(w, s) := ws in
  let youtubeDesktop := attributes s !! "data-youtube-desktop" in
  let youtubeMobile := attributes s !! "data-youtube-mobile" in
  if negb (Js.struthy youtubeDesktop) then
    (console_add (Warn "MkVideoPlayer: No YouTube source provided") w, s)
  else
    let youtubeSrc := pick_source (isMobile env) youtubeMobile youtubeDesktop in
    match querySelector "mk-video__iframe" (children s), youtubeSrc with
    | Some (i, {| kind := HTMLIFrameElement f |}), Some ysrc =>
        let currentSrc := src_property env (f_src f) in
        if String.eqb currentSrc "" || negb (String.eqb currentSrc ysrc) then
          (w, update_iframe i (with_f_src ysrc) s)
        else (w, s)
    | _, _ => (w, s)
    end.

(** [#loadVideo()] *)
Definition loadVideo (env : Env) (ws : Window * t) : Window * t :=
  if _isLoaded (snd ws) then ws
  else
    let '(w, s) :=
      if String.eqb (videoType (snd ws)) "youtube" then loadYouTube env ws
      else loadMP4 env ws in
    (w, classList_add "is-loaded" (set_isLoaded true s)).

(** [#bindPlayButtonEvents()]: a listener given an aborted signal is
    not added. *)
Fixpoint querySelectorAll_from (i : nat) (cls : string) (l : list Element) : list nat :=
  match l with
  | [] => []
  | e :: rest =>
      if bool_decide (cls ∈ className e) then i :: querySelectorAll_from (S i) cls rest
      else querySelectorAll_from (S i) cls rest
  end.

Definition bindPlayButtonEvents (s : t) : t :=
  if _aborted s then s
  else set_clickListeners
         (clickListeners s ++ querySelectorAll_from 0 "mk-video__play-button" (children s)) s.

(** [#playVideo()].  A promise returned by [play()] is counted in
    [pendingPlay]; its two handlers are [onPlayFulfilled] and
    [onPlayRejected] below. *)
Definition playVideo (env : Env) (s : t) : t :=
  if _isPlaying s then s
  else
    match getCurrentVideo s with
    | None => s
    | Some (i, k) =>
        let s :=
          match querySelector "mk-video__container" (children s) with
          | Some (c, _) => set_display c "" s
          | None => s
          end in
        match k with
        | HTMLIFrameElement _ =>
            if String.eqb (videoType s) "youtube" then
              let s := postMessage i YtPlayVideo s in
              let s := set_isPlaying true s in
              classList_add "has-started" (classList_add "is-playing" s)
            else s
        | HTMLVideoElement _ =>
            let s := call (Play i) s in
            if play_returns_promise env then set_pendingPlay (S (pendingPlay s)) s
            else s
        | HTMLElement => s
        end
    end.

Inductive Completion := Returned | Threw.
Inductive Outcome := Fulfilled | Rejected.

(** The handler passed to [then]. *)
Definition onPlayFulfilled (ws : Window * t) : Completion * (Window * t) :=
  let '(w, s) := ws in
  let s := set_isPlaying true s in
  (Returned, (w, classList_add "has-started" (classList_add "is-playing" s))).

(** The handler passed to [catch]. *)
Definition onPlayRejected (ws : Window * t) : Completion * (Window * t) :=
  let '(w, s) := ws in
  let w := console_add (Warn "MkVideoPlayer: Video playback failed") w in
  if Js.seq_lit (attributes s !! "data-autoplay") "true"
  then (Returned, (w, removeAttribute "data-autoplay" s))
  else (Returned, (w, s)).

(** [p.then(A).catch(B)]: what runs when [p] settles, and how the
    promise at the end of the chain settles.  A chain that ends
    rejected is what reaches the page as an unhandled rejection. *)
Definition then_catch {X} (A B : X -> Completion * X) (p : Outcome) (x : X)
  : Outcome * X :=
  let run_catch x :=
    let '(c, x) := B x in
    (match c with Returned => Fulfilled | Threw => Rejected end, x) in
  match p with
  | Fulfilled =>
      let '(c, x) := A x in
      match c with
      | Returned => (Fulfilled, x)
      | Threw => run_catch x
      end
  | Rejected => run_catch x
  end.

(** The browser settles the oldest promise [#playVideo] is waiting on. *)
Definition settlePlay (p : Outcome) (ws : Window * t) : Outcome * (Window * t) :=
  match pendingPlay (snd ws) with
  | O => (Fulfilled, ws)
  | S n =>
      then_catch onPlayFulfilled onPlayRejected p
        (fst ws, set_pendingPlay n (snd ws))
  end.

(** [pauseVideo()] *)
Definition pauseVideo (s : t) : t :=
  if negb (_isPlaying s) then s
  else
    match getCurrentVideo s with
    | None => s
    | Some (i, k) =>
        let s :=
          match k with
          | HTMLIFrameElement _ =>
              if String.eqb (videoType s) "youtube" then postMessage i YtPauseVideo s
              else s
          | HTMLVideoElement _ => call (Pause i) s
          | HTMLElement => s
          end in
        classList_remove "is-playing" (set_isPlaying false s)
    end.

(** [isPlaying()] *)
Definition isPlaying (s : t) : bool := _isPlaying s.

(** The callback [#setupIntersectionObserver] gives its observer. *)
Definition observerCallback (env : Env) (entries : list IntersectionObserverEntry)
    (ws : Window * t) : Window * t :=
  fold_left
    (λ ws entry,
       if isIntersecting entry && negb (_isLoaded (snd ws)) then
         let '(w, s) := loadVideo env ws in
         let isAutoplay := Js.seq_lit (attributes s !! "data-autoplay") "true" in
         let s := if isAutoplay then playVideo env s else s in
         match _observer s with
         | Some o => (w, set_observer (Some (disconnect o)) s)
         | None => (w, s)
         end
       else ws)
    entries ws.

(** [connectedCallback()]; the base class's own callback resolves the
    declarative refs, which this element does not use. *)
Definition connectedCallback (env : Env) (ws : Window * t) : Window * t :=
  let '(w, s) := ws in
  let isLazyLoad := Js.seq_lit (attributes s !! "data-lazy-load") "true" in
  let isAutoplay := Js.seq_lit (attributes s !! "data-autoplay") "true" in
  let s := bindPlayButtonEvents s in
  let '(w, s) :=
    if isLazyLoad then setupIntersectionObserver (w, s)
    else loadVideo env (w, s) in
  if isAutoplay && negb isLazyLoad then (w, playVideo env s) else (w, s).

(** [disconnectedCallback()] *)
Definition disconnectedCallback (s : t) : t :=
  let s := match _observer s with
           | Some _ => set_observer None s
           | None => s
           end in
  set_clickListeners [] (set_aborted true s).

(** The argument of [reset]: nothing, [null], a boolean, an object
    with its [unload] and [disableAutoplay] properties ([VUndefined]
    when absent), or a value of another type. *)
Inductive ResetOptions :=
| OptUndefined
| OptNull
| OptBoolean (b : bool)
| OptObject (unload disableAutoplay : Js.value)
| OptOther.

(** The option parsing at the head of [reset]: the values of the
    locals [unload] and [disableAutoplay]. *)
Definition reset_options (options : ResetOptions) : Js.value * Js.value :=
  match options with
  | OptBoolean b => (Js.VBool b, Js.VBool false)
  | OptObject u d =>
      (Js.coalesce u (Js.VBool false), Js.coalesce d (Js.VBool false))
  | _ => (Js.VBool false, Js.VBool false)
  end.

(** The unload step both branches of [reset] end with: the loaded
    flag and class are dropped, and under lazy loading an observer
    that exists is disconnected and replaced. *)
Definition unloaded (isLazyLoad : bool) (ws : Window * t) : Window * t :=
  let '(w, s) := ws in
  let s := set_isLoaded false s in
  let s := classList_remove "is-loaded" s in
  match isLazyLoad, _observer s with
  | true, Some _ => setupIntersectionObserver (w, set_observer None s)
  | _, _ => (w, s)
  end.

(** [reset(options)] *)
Definition reset (options : ResetOptions) (ws : Window * t) : Window * t :=
  let '(w, s) := ws in
  let '(unload, disableAutoplay) := reset_options options in
  let videoType := videoType s in
  let element := getCurrentVideo s in
  let isLazyLoad := Js.seq_lit (attributes s !! "data-lazy-load") "true" in
  let s := if _isPlaying s then pauseVideo s else s in
  let s := set_isPlaying false s in
  let s := classList_remove "is-playing" s in
  let s := classList_remove "has-started" s in
  let s :=
    if Js.truthy disableAutoplay then
      let s := dataset_set "data-autoplay-original"
                 (Js.sor_lit (attributes s !! "data-autoplay") "") s in
      dataset_set "data-autoplay" "false" s
    else s in
  let '(w, s) :=
    match element with
    | Some (i, HTMLIFrameElement _) =>
        if String.eqb videoType "youtube" then
          let s := postMessage i YtStopVideo s in
          let s := postMessage i YtSeekToStart s in
          if Js.truthy unload then
            let s := update_iframe i (with_f_src "") s in
            unloaded isLazyLoad (w, s)
          else (w, s)
        else (w, s)
    | Some (i, HTMLVideoElement _) =>
        let s := call (Pause i) s in
        let s := update_video i (with_v_currentTime 0) s in
        if Js.truthy unload then
          let s := update_video i (with_v_src "") s in
          let s := call (Load i) s in
          unloaded isLazyLoad (w, s)
        else (w, s)
    | _ => (w, s)
    end in
  if isLazyLoad then
    match querySelector "mk-video__container" (children s) with
    | Some (c, _) => (w, set_display c "none" s)
    | None => (w, s)
    end
  else (w, s).

(** [restoreAutoplay()] *)
Definition restoreAutoplay (s : t) : t :=
  match attributes s !! "data-autoplay-original" with
  | Some orig =>
      removeAttribute "data-autoplay-original" (dataset_set "data-autoplay" orig s)
  | None => s
  end.

(** A player as its field initialisers leave it. *)
Definition created (self : Node) (classes : gset string)
    (attrs : gmap string string) (subtree : list Element) : t :=
  {| this := self; _observer := None; _isLoaded := false; _isPlaying := false;
     _aborted := false; classList := classes; attributes := attrs;
     children := subtree; clickListeners := []; pendingPlay := 0; calls := [] |}.

(** A desktop browser whose documents resolve URLs to themselves. *)
Definition desktop : Env :=
  {| isMobile := false; play_returns_promise := true; resolve_url := λ u, u |}.

(** A player as the theme renders it for an MP4: a container holding
    a video element that has no source yet. *)
Definition mp4_subtree : list Element :=
  [ {| className := ["mk-video__container"]; style_display := None;
       kind := HTMLElement |};
    {| className := ["mk-video__element"]; style_display := None;
       kind := HTMLVideoElement
                 {| v_src := None; v_currentSrc := ""; v_poster := None;
                    v_currentTime := 0 |} |} ].

Definition mp4_player (attrs : gmap string string) : t :=
  created 7 ∅ attrs mp4_subtree.

(** The observer reports the player in view. *)
Definition in_view : IntersectionObserverEntry :=
  {| intersectionRatio := 0.5; isIntersecting := true;
     boundingClientRect_bottom := 300 |}.

End MkVideoPlayer.

(** ** Product description block
    ([src/assets/product-description-block.js]) *)
Module ProductDescriptionBlock.

Local Open Scope float_scope.

(** A computed length as [getComputedStyle] reports it: the keyword
    normal, a length in pixels that [parseFloat] reads as the double
    [x], or the empty string. *)
Inductive CssValue := CssNormal | CssPx (x : float) | CssEmpty.

Definition parseFloat (v : CssValue) : float :=
  match v with
  | CssPx x => x
  | CssNormal | CssEmpty => nan
  end.

Record ComputedStyle := { lineHeight : CssValue; fontSize : CssValue }.

(** What layout reports when a handler runs: the content's scroll and
    offset heights and the computed style of the first text element
    ([.text-block > *], else [.text-block], else the first child), if
    there is one. *)
Record Layout := {
  scrollHeight : float;
  offsetHeight : float;
  textElement : option ComputedStyle;
}.

(** The inline [max-height] of the content, as the element last wrote
    it: the keyword none, or a number followed by px. *)
Inductive MaxHeight := none | px (h : float).

Record Content := { style_maxHeight : option MaxHeight; scrollTop : float }.
Record Toggle := { hidden : bool; aria_expanded : option string }.

(** A callback waiting for the next animation frame: the deferred
    initialisation of [connectedCallback], or the max-height write of
    [toggleDescription]. *)
Inductive FrameCallback := InitCallback | WriteMaxHeight (h : float).

(** The element: its private fields ([_resizeObserver] tells whether
    the observer exists and whether it watches the content), the two
    refs as the base class resolved them, its attributes, and the
    callbacks it has handed to the browser (animation-frame callbacks,
    the max-height each [transitionend] listener will write, the
    window resize listener). *)
Record t := {
  _collapsedHeight : float;
  _expanded : bool;
  _lineClamp : float;
  _resizeObserver : option bool;
  content : option Content;
  toggle : option Toggle;
  attributes : gmap string string;
  frameQueue : list FrameCallback;
  transitionEndListeners : list MaxHeight;
  resizeListener : bool;
}.

Definition set_collapsedHeight v (s : t) : t :=
  Build_t v (_expanded s) (_lineClamp s) (_resizeObserver s) (content s) (toggle s)
    (attributes s) (frameQueue s) (transitionEndListeners s) (resizeListener s).
Definition set_expanded v (s : t) : t :=
  Build_t (_collapsedHeight s) v (_lineClamp s) (_resizeObserver s) (content s)
    (toggle s) (attributes s) (frameQueue s) (transitionEndListeners s)
    (resizeListener s).
Definition set_lineClamp v (s : t) : t :=
  Build_t (_collapsedHeight s) (_expanded s) v (_resizeObserver s) (content s)
    (toggle s) (attributes s) (frameQueue s) (transitionEndListeners s)
    (resizeListener s).
Definition set_resizeObserver v (s : t) : t :=
  Build_t (_collapsedHeight s) (_expanded s) (_lineClamp s) v (content s)
    (toggle s) (attributes s) (frameQueue s) (transitionEndListeners s)
    (resizeListener s).
Definition set_content v (s : t) : t :=
  Build_t (_collapsedHeight s) (_expanded s) (_lineClamp s) (_resizeObserver s) v
    (toggle s) (attributes s) (frameQueue s) (transitionEndListeners s)
    (resizeListener s).
Definition set_toggle v (s : t) : t :=
  Build_t (_collapsedHeight s) (_expanded s) (_lineClamp s) (_resizeObserver s)
    (content s) v (attributes s) (frameQueue s) (transitionEndListeners s)
    (resizeListener s).
Definition set_attributes v (s : t) : t :=
  Build_t (_collapsedHeight s) (_expanded s) (_lineClamp s) (_resizeObserver s)
    (content s) (toggle s) v (frameQueue s) (transitionEndListeners s)
    (resizeListener s).
Definition set_frameQueue v (s : t) : t :=
  Build_t (_collapsedHeight s) (_expanded s) (_lineClamp s) (_resizeObserver s)
    (content s) (toggle s) (attributes s) v (transitionEndListeners s)
    (resizeListener s).
Definition set_transitionEndListeners v (s : t) : t :=
  Build_t (_collapsedHeight s) (_expanded s) (_lineClamp s) (_resizeObserver s)
    (content s) (toggle s) (attributes s) (frameQueue s) v (resizeListener s).
Definition set_resizeListener v (s : t) : t :=
  Build_t (_collapsedHeight s) (_expanded s) (_lineClamp s) (_resizeObserver s)
    (content s) (toggle s) (attributes s) (frameQueue s) (transitionEndListeners s)
    v.

Definition dataset_set (name val : string) (s : t) : t :=
  set_attributes (<[name := val]> (attributes s)) s.

Definition set_maxHeight (m : MaxHeight) (s : t) : t :=
  match content s with
  | Some c => set_content (Some {| style_maxHeight := Some m; scrollTop := scrollTop c |}) s
  | None => s
  end.

Definition set_scrollTop (q : float) (s : t) : t :=
  match content s with
  | Some c => set_content (Some {| style_maxHeight := style_maxHeight c; scrollTop := q |}) s
  | None => s
  end.

Definition set_hidden (b : bool) (s : t) : t :=
  match toggle s with
  | Some g => set_toggle (Some {| hidden := b; aria_expanded := aria_expanded g |}) s
  | None => s
  end.

Definition set_aria_expanded (v : string) (s : t) : t :=
  match toggle s with
  | Some g => set_toggle (Some {| hidden := hidden g; aria_expanded := Some v |}) s
  | None => s
  end.

(** [#calculateCollapsedHeight()]; the literal 1.2 is read as the
    nearest double, as the engine reads it. *)
Definition calculateCollapsedHeight (lay : Layout) (s : t) : float :=
  match content s with
  | None => 0
  | Some _ =>
      match textElement lay with
      | None => 0
      | Some computed =>
          let lineHeight := parseFloat (lineHeight computed) in
          let lineHeight :=
            if negb (Js.ntruthy lineHeight)
               || match ProductDescriptionBlock.lineHeight computed with
                  | CssNormal => true
                  | _ => false
                  end
            then
              let fontSize := parseFloat (fontSize computed) in
              if Js.ntruthy fontSize then fontSize * 1.2 else 0
            else lineHeight in
          Js.Math_max 0 (lineHeight * _lineClamp s)
      end
  end.

(** [#updateOverflowState()] *)
Definition updateOverflowState (lay : Layout) (s : t) : t :=
  match content s, toggle s with
  | Some _, Some g =>
      if _collapsedHeight s <=? 0 then
        let s := set_hidden true s in
        let s := set_maxHeight none s in
        let s := dataset_set "data-has-overflow" "false" s in
        let s := set_expanded false s in
        let s := dataset_set "data-expanded" "false" s in
        set_aria_expanded "false" s
      else
        let hasOverflow := _collapsedHeight s + 1 <? scrollHeight lay in
        let s := dataset_set "data-has-overflow" (if hasOverflow then "true" else "false") s in
        if negb hasOverflow then
          let s := set_hidden true s in
          let s := set_maxHeight none s in
          let s := set_expanded false s in
          let s := dataset_set "data-expanded" "false" s in
          set_aria_expanded "false" s
        else
          let wasHidden := hidden g in
          let s := set_hidden false s in
          if negb (_expanded s) || wasHidden then
            let s := set_expanded false s in
            let s := set_maxHeight (px (_collapsedHeight s)) s in
            let s := set_scrollTop 0 s in
            let s := dataset_set "data-expanded" "false" s in
            set_aria_expanded "false" s
          else set_aria_expanded "true" s
  | _, _ => s
  end.

(** [#initialize()] *)
Definition initialize (lay : Layout) (s : t) : t :=
  match content s, toggle s with
  | Some _, Some _ =>
      let s := set_collapsedHeight (calculateCollapsedHeight lay s) s in
      updateOverflowState lay s
  | _, _ => s
  end.

(** [#onWindowResize()] *)
Definition onWindowResize (lay : Layout) (s : t) : t :=
  match content s with
  | None => s
  | Some _ =>
      let s := set_collapsedHeight (calculateCollapsedHeight lay s) s in
      let s := updateOverflowState lay s in
      if _expanded s then set_maxHeight none s else s
  end.

(** [#handleContentResize()] *)
Definition handleContentResize (lay : Layout) (s : t) : t :=
  match content s with
  | None => s
  | Some _ =>
      let s :=
        if negb (_expanded s) then
          let newCollapsedHeight := calculateCollapsedHeight lay s in
          if (0 <? newCollapsedHeight)
             && (1 <? abs (newCollapsedHeight - _collapsedHeight s))
          then
            let s := set_collapsedHeight newCollapsedHeight s in
            set_maxHeight (px (_collapsedHeight s)) s
          else s
        else s in
      let s := updateOverflowState lay s in
      if _expanded s then set_maxHeight none s else s
  end.

(** [connectedCallback()] *)
Definition connectedCallback (js : Js.Engine) (s : t) : t :=
  let clampValue :=
    Js.Number_parseInt js (default "" (attributes s !! "data-line-clamp")) in
  let s := set_lineClamp
             (if Js.Number_isFinite clampValue && (0 <? clampValue)
              then clampValue else 5) s in
  let s := dataset_set "data-expanded" "false" s in
  let s := dataset_set "data-has-overflow" "false" s in
  let s := match _resizeObserver s with
           | None => set_resizeObserver (Some false) s
           | Some _ => s
           end in
  let s := set_frameQueue (frameQueue s ++ [InitCallback]) s in
  set_resizeListener true s.

(** [disconnectedCallback()] *)
Definition disconnectedCallback (s : t) : t :=
  let s := set_resizeListener false s in
  match _resizeObserver s with
  | Some _ => set_resizeObserver (Some false) s
  | None => s
  end.

Definition run_frameCallback (lay : Layout) (s : t) (cb : FrameCallback) : t :=
  match cb with
  | InitCallback =>
      let s := initialize lay s in
      match content s, _resizeObserver s with
      | Some _, Some _ => set_resizeObserver (Some true) s
      | _, _ => s
      end
  | WriteMaxHeight h => set_maxHeight (px h) s
  end.

(** One animation frame runs the callbacks queued before it. *)
Definition animationFrame (lay : Layout) (s : t) : t :=
  fold_left (run_frameCallback lay) (frameQueue s) (set_frameQueue [] s).

(** [transitionend] on the content: each listener writes its
    max-height and, being added with [once], is gone afterwards. *)
Definition transitionend (s : t) : t :=
  fold_left (λ s m, set_maxHeight m s) (transitionEndListeners s)
            (set_transitionEndListeners [] s).

(** [toggleDescription(event)] *)
Definition toggleDescription (lay : Layout) (s : t) : t :=
  match content s, toggle s with
  | Some _, Some g =>
      if hidden g then s
      else if negb (_expanded s) then
        let startHeight :=
          if Js.ntruthy (offsetHeight lay) then offsetHeight lay
          else _collapsedHeight s in
        let targetHeight := scrollHeight lay in
        let s := set_maxHeight (px startHeight) s in
        let s := set_frameQueue (frameQueue s ++ [WriteMaxHeight targetHeight]) s in
        let s := set_transitionEndListeners (transitionEndListeners s ++ [none]) s in
        let s := set_expanded true s in
        let s := dataset_set "data-expanded" "true" s in
        set_aria_expanded "true" s
      else
        let startHeight := offsetHeight lay in
        let targetHeight := _collapsedHeight s in
        let s := set_maxHeight (px startHeight) s in
        let s := set_frameQueue (frameQueue s ++ [WriteMaxHeight targetHeight]) s in
        let s := set_transitionEndListeners
                   (transitionEndListeners s ++ [px targetHeight]) s in
        let s := set_expanded false s in
        let s := dataset_set "data-expanded" "false" s in
        let s := set_aria_expanded "false" s in
        set_scrollTop 0 s
  | _, _ => s
  end.

(** The element as its field initialisers leave it. *)
Definition created (c : option Content) (g : option Toggle)
    (attrs : gmap string string) : t :=
  {| _collapsedHeight := 0; _expanded := false; _lineClamp := 5;
     _resizeObserver := None; content := c; toggle := g; attributes := attrs;
     frameQueue := []; transitionEndListeners := []; resizeListener := false |}.

(** The block classified as not overflowing. *)
Definition not_overflowing (s : t) : Prop :=
  hidden <$> toggle s = Some true /\
  attributes s !! "data-has-overflow" = Some "false" /\
  _expanded s = false /\
  style_maxHeight <$> content s = Some (Some none).

(** A block of three clamped lines, connected, with its text set at
    20px per line. *)
Definition three_lines : t :=
  connectedCallback Js.sample_engine
    (created (Some {| style_maxHeight := None; scrollTop := 0 |})
             (Some {| hidden := false; aria_expanded := None |})
             {[ "data-line-clamp" := "3" ]}).

Definition layout_of_height (h : float) : Layout :=
  {| scrollHeight := h; offsetHeight := h;
     textElement := Some {| lineHeight := CssPx 20; fontSize := CssPx 16 |} |}.

End ProductDescriptionBlock.

(** ** Video player: the public playback and audio methods
    ([src/unnamed/part_001]) *)
Module MkVideoPlayerApi.
Import Browser MkVideoPlayer.

(** [loadVideo()], the public method: it calls [#loadVideo()]. *)
Definition loadVideo (env : Env) (ws : Window * MkVideoPlayer.t)
  : Window * MkVideoPlayer.t :=
  MkVideoPlayer.loadVideo env ws.

(** [playVideo()], the public method. *)
Definition playVideo (env : Env) (ws : Window * MkVideoPlayer.t)
  : Window * MkVideoPlayer.t :=
  let '(w, s) :=
    if negb (_isLoaded (snd ws)) then MkVideoPlayer.loadVideo env ws else ws in
  (w, MkVideoPlayer.playVideo env s).

(** What the audio methods do to the media element: the two commands
    they post to a YouTube iframe (each stands for the JSON text with
    that [func]), and the writes to the [muted] property of a video
    element. *)
Inductive YtAudioCommand := YtMute | YtUnMute.

Inductive AudioCall :=
| PostAudio (target : nat) (c : YtAudioCommand)
| SetMuted (target : nat) (b : bool).

(** The player together with the audio calls made so far, in order. *)
Record t := {
  player : MkVideoPlayer.t;
  audio : list AudioCall;
}.

(** [mute()] *)
Definition mute (a : t) : t :=
  let s := player a in
  match getCurrentVideo s with
  | Some (i, HTMLIFrameElement f) =>
      if String.eqb (videoType s) "youtube" then
        {| player := dataset_set "data-muted" "true" s;
           audio := if f_contentWindow f then audio a ++ [PostAudio i YtMute]
                    else audio a |}
      else a
  | Some (i, HTMLVideoElement _) =>
      {| player := dataset_set "data-muted" "true" s;
         audio := audio a ++ [SetMuted i true] |}
  | _ => a
  end.

(** [unmute()] *)
Definition unmute (a : t) : t :=
  let s := player a in
  match getCurrentVideo s with
  | Some (i, HTMLIFrameElement f) =>
      if String.eqb (videoType s) "youtube" then
        {| player := dataset_set "data-muted" "false" s;
           audio := if f_contentWindow f then audio a ++ [PostAudio i YtUnMute]
                    else audio a |}
      else a
  | Some (i, HTMLVideoElement _) =>
      {| player := dataset_set "data-muted" "false" s;
         audio := audio a ++ [SetMuted i false] |}
  | _ => a
  end.

(** [isMuted()] *)
Definition isMuted (a : t) : bool :=
  Js.seq_lit (attributes (player a) !! "data-muted") "true".

(** [toggleMute()] *)
Definition toggleMute (a : t) : t :=
  if isMuted a then unmute a else mute a.

End MkVideoPlayerApi.

(** ** Video player: the play button and the modal player
    ([src/unnamed/part_001]) *)
Module MkVideoModal.
Import Browser MkVideoPlayer.

(** The media element a modal holds.  The video element is the one
    [document.createElement("video")] gives, with the properties the
    code writes and the calls it makes on it; likewise the iframe. *)
Inductive MediaCall := PlayCall | PauseCall.

Record ModalVideo := {
  mv_src : string;
  mv_poster : option string;
  mv_loop : bool;
  mv_muted : bool;
  mv_playsInline : bool;
  mv_preload : option string;
  mv_controls : bool;
  mv_calls : list MediaCall;
}.

Record ModalIframe := {
  mi_src : string;
  mi_allow : string;
  mi_allowFullscreen : bool;
  mi_frameBorder : string;
}.

Inductive ModalMedia :=
| ModalVideoElement (v : ModalVideo)
| ModalIframeElement (f : ModalIframe).

(** A [div.mk-video-modal]: whether its class list holds [active], and
    the [.mk-video-modal__element] inside its video wrapper, if any.
    Modals are told apart by the order in which they were created. *)
Record Modal := {
  m_id : nat;
  m_active : bool;
  m_media : option ModalMedia;
}.

(** The document around the player: the HTML elements of class
    [mk-video-modal] it contains, in document order (a modal appended
    to the body comes last); the class list of the root element; the
    modals whose removal a timeout is waiting to do, oldest first; the
    lines written with [console.log]; and how many modals have been
    created. *)
Record Page := {
  modals : list Modal;
  rootClasses : gset string;
  timeouts : list nat;
  logged : list string;
  created : nat;
}.

Definition set_modals v (pg : Page) : Page :=
  Build_Page v (rootClasses pg) (timeouts pg) (logged pg) (created pg).
Definition set_rootClasses v (pg : Page) : Page :=
  Build_Page (modals pg) v (timeouts pg) (logged pg) (created pg).
Definition set_timeouts v (pg : Page) : Page :=
  Build_Page (modals pg) (rootClasses pg) v (logged pg) (created pg).
Definition set_logged v (pg : Page) : Page :=
  Build_Page (modals pg) (rootClasses pg) (timeouts pg) v (created pg).
Definition set_created v (pg : Page) : Page :=
  Build_Page (modals pg) (rootClasses pg) (timeouts pg) (logged pg) v.

(** [new URLSearchParams(query)] and [params.toString()], which belong
    to the browser. *)
Record UrlCodec := {
  URLSearchParams_parse : string -> list (string * string);
  URLSearchParams_toString : list (string * string) -> string;
}.

(** [params.set(name, value)]: the first pair of that name takes the
    value and the later ones go; without one the pair is appended. *)
Definition params_delete (name : string) (l : list (string * string))
  : list (string * string) :=
  List.filter (λ p, negb (String.eqb (fst p) name)) l.

Fixpoint params_set (name value : string) (l : list (string * string))
  : list (string * string) :=
  match l with
  | [] => [(name, value)]
  | (n, v) :: rest =>
      if String.eqb n name then (name, value) :: params_delete name rest
      else (n, v) :: params_set name value rest
  end.

(** [str.split("?")] *)
Fixpoint split_from (acc : string) (str : string) : list string :=
  match str with
  | EmptyString => [acc]
  | String c rest =>
      if Ascii.eqb c "?"%char then acc :: split_from "" rest
      else split_from (acc ++ String c "") rest
  end.

Definition split_question (str : string) : list string := split_from "" str.

(** The source the modal gives a YouTube iframe. *)
Definition modal_youtube_src (codec : UrlCodec) (baseSrc : option string) : string :=
  let finalSrc := Js.sor_lit baseSrc "" in
  if String.eqb finalSrc "" then finalSrc
  else
    let parts := split_question finalSrc in
    let urlPart := nth 0 parts "" in
    let queryPart := parts !! 1%nat in
    let params := URLSearchParams_parse codec (Js.sor_lit queryPart "") in
    let params := params_set "autoplay" "1" params in
    let params := params_set "mute" "1" params in
    let params := params_set "controls" "1" params in
    urlPart ++ "?" ++ URLSearchParams_toString codec params.

(** [#openModalPlayer()].  The video wrapper is part of the markup the
    method has just written into the modal, so the early return for a
    missing wrapper is never taken. *)
Definition openModalPlayer (env : Env) (codec : UrlCodec) (s : MkVideoPlayer.t)
    (st : Window * Page) : Window * Page :=
  let '(w, pg) := st in
  let videoType := videoType s in
  let pg := match modals pg with
            | [] => pg
            | _ :: rest => set_modals rest pg
            end in
  let id := created pg in
  let pg := set_created (S id) pg in
  let '(w, media) :=
    if String.eqb videoType "youtube" then
      let youtubeDesktop := attributes s !! "data-youtube-desktop" in
      let youtubeMobile := Js.sor (attributes s !! "data-youtube-mobile") youtubeDesktop in
      if negb (Js.struthy youtubeDesktop) then
        (console_add (Warn "MkVideoPlayer: No YouTube source provided for modal") w, None)
      else
        let baseSrc := pick_source (isMobile env) youtubeMobile youtubeDesktop in
        (w, Some (ModalIframeElement
                    {| mi_src := modal_youtube_src codec baseSrc;
                       mi_allow := "autoplay; encrypted-media; picture-in-picture";
                       mi_allowFullscreen := true;
                       mi_frameBorder := "0" |}))
    else
      let videoDesktop := attributes s !! "data-video-desktop" in
      let videoMobile := Js.sor (attributes s !! "data-video-mobile") videoDesktop in
      let posterDesktop := Js.sor_lit (attributes s !! "data-poster-desktop") "" in
      let posterMobile := Js.sor_lit (attributes s !! "data-poster-mobile") posterDesktop in
      if negb (Js.struthy videoDesktop) then
        (console_add (Warn "MkVideoPlayer: No video source provided for modal") w, None)
      else
        let src := pick_source (isMobile env) videoMobile videoDesktop in
        let poster :=
          if isMobile env && negb (String.eqb posterMobile "") then posterMobile
          else posterDesktop in
        let loop := Js.seq_lit (attributes s !! "data-loop") "true" in
        let muted := Js.seq_lit (attributes s !! "data-muted") "true" in
        let controls := Js.seq_lit (attributes s !! "data-controls") "true" in
        (w, Some (ModalVideoElement
                    {| mv_src := default "" src;
                       mv_poster := if String.eqb poster "" then None else Some poster;
                       mv_loop := loop;
                       mv_muted := muted;
                       mv_playsInline := true;
                       mv_preload := Some "metadata";
                       mv_controls := controls || true;
                       mv_calls := [PlayCall] |})) in
  let modal := {| m_id := id; m_active := true; m_media := media |} in
  let pg := set_modals (modals pg ++ [modal]) pg in
  (w, set_rootClasses (rootClasses pg ∪ {["mk-video-modal-open"]}) pg).

(** The handler [#openModalPlayer] attaches to the promise of the
    modal video's [play()]. *)
Definition onModalPlayRejected (w : Window) : Window :=
  console_add (Warn "MkVideoPlayer: Modal video playback failed") w.

(** The [close] closure of the modal with the given id. *)
Definition close_media (m : option ModalMedia) : option ModalMedia :=
  match m with
  | Some (ModalVideoElement v) =>
      Some (ModalVideoElement
              {| mv_src := mv_src v; mv_poster := mv_poster v; mv_loop := mv_loop v;
                 mv_muted := mv_muted v; mv_playsInline := mv_playsInline v;
                 mv_preload := mv_preload v; mv_controls := mv_controls v;
                 mv_calls := mv_calls v ++ [PauseCall] |})
  | Some (ModalIframeElement f) =>
      Some (ModalIframeElement
              {| mi_src := ""; mi_allow := mi_allow f;
                 mi_allowFullscreen := mi_allowFullscreen f;
                 mi_frameBorder := mi_frameBorder f |})
  | None => None
  end.

Definition close (id : nat) (pg : Page) : Page :=
  let pg :=
    set_modals
      (map (λ m, if Nat.eqb (m_id m) id
                 then {| m_id := m_id m; m_active := false;
                         m_media := close_media (m_media m) |}
                 else m)
           (modals pg)) pg in
  let pg := set_timeouts (timeouts pg ++ [id]) pg in
  set_rootClasses (rootClasses pg ∖ {["mk-video-modal-open"]}) pg.

(** The click listener on the modal itself: a click whose target is
    the modal (its backdrop) closes it.  A click inside the content
    does not get this far. *)
Definition modal_click (target_is_modal : bool) (id : nat) (pg : Page) : Page :=
  if target_is_modal then close id pg else pg.

(** The oldest pending timeout fires: [modal.remove()]. *)
Definition timeout_fires (pg : Page) : Page :=
  match timeouts pg with
  | [] => pg
  | id :: rest =>
      set_timeouts rest
        (set_modals (List.filter (λ m, negb (Nat.eqb (m_id m) id)) (modals pg)) pg)
  end.

(** [#handlePlayButtonClick()] *)
Definition handlePlayButtonClick (env : Env) (codec : UrlCodec)
    (st : Window * Page * MkVideoPlayer.t) : Window * Page * MkVideoPlayer.t :=
  let '(w, pg, s) := st in
  let useModal := Js.seq_lit (attributes s !! "data-use-modal") "true" in
  if useModal then
    let pg := set_logged (logged pg ++ ["use modal"]) pg in
    let '(w, pg) := openModalPlayer env codec s (w, pg) in
    (w, pg, s)
  else
    let '(w, s) := if negb (_isLoaded s) then loadVideo env (w, s) else (w, s) in
    (w, pg, playVideo env s).

(** A page without any modal, and a codec for queries that need no
    escaping: pairs [name=value] joined by [&]. *)
Definition empty_page : Page :=
  {| modals := []; rootClasses := ∅; timeouts := []; logged := []; created := 0 |}.

Fixpoint split_at (sep : ascii) (acc : string) (str : string) : list string :=
  match str with
  | EmptyString => [acc]
  | String c rest =>
      if Ascii.eqb c sep then acc :: split_at sep "" rest
      else split_at sep (acc ++ String c "") rest
  end.

Definition sample_pair (item : string) : string * string :=
  match split_at "="%char "" item with
  | name :: value :: _ => (name, value)
  | name :: [] => (name, "")
  | [] => ("", "")
  end.

Definition sample_codec : UrlCodec :=
  {| URLSearchParams_parse :=
       λ q, if String.eqb q "" then [] else map sample_pair (split_at "&"%char "" q);
     URLSearchParams_toString :=
       λ l, String.concat "&" (map (λ p, fst p ++ "=" ++ snd p) l) |}.

End MkVideoModal.

(** * Properties *)

(** ** The engine used in the examples

    The theorems below hold for every engine; the examples run on
    [Js.sample_engine].  It writes 1e21 with an exponent and large
    integers with the digits that read back, and its [parseInt] skips
    a no-break space and rounds to the nearest double. *)
Example sample_engine_toString :
  map (Js.toString Js.sample_engine)
      [Js.VNum 7; Js.VNum 1e21; Js.VNum 1152921504606846976; Js.VNum 0.5;
       Js.VNum (0 / 0); Js.VBigInt (10 ^ 21); Js.VObject "[object Object]"] =
    ["7"; "1e+21"; "1152921504606847000"; "0.5"; "NaN"; "1000000000000000000000";
     "[object Object]"].
Proof. vm_compute. reflexivity. Qed.

Example sample_engine_parseInt :
  let nbsp := String (ascii_of_nat 194) (String (ascii_of_nat 160) EmptyString) in
  map (Js.Number_parseInt Js.sample_engine)
      [nbsp ++ "7"; " 12px"; "9007199254740993"; "-3"; "3.9"] =
    [7; 12; 9007199254740992; -3; 3]%float /\
  PrimFloat.is_nan (Js.Number_parseInt Js.sample_engine "px") = true /\
  PrimFloat.is_infinity
    (Js.Number_parseInt Js.sample_engine (String.concat "" (repeat "9" 400))) = true.
Proof. vm_compute. repeat split; reflexivity. Qed.

(** ** Sticky add-to-cart bar: intersection handling *)
Section StickyATC_intersection.
Import Browser StickyATC.
Local Open Scope Q_scope.

Lemma undecided_tests e :
  undecided e ->
  Qeq_bool (intersectionRatio e) 0 = false /\
  Qle_bool 0.75 (intersectionRatio e) = false.
Proof.
  intros [Hpos Hlt]. split.
  - destruct (Qeq_bool (intersectionRatio e) 0) eqn:E; [|reflexivity].
    apply Qeq_bool_iff in E. rewrite E in Hpos. exfalso. revert Hpos. apply Qlt_irrefl.
  - destruct (Qle_bool 0.75 (intersectionRatio e)) eqn:E; [|reflexivity].
    apply Qle_bool_iff in E. exfalso. apply (Qlt_not_le _ _ Hlt E).
Qed.

Lemma handleIntersection_skips pre rest s :
  Forall undecided pre ->
  _handleIntersection (pre ++ rest) s = _handleIntersection rest s.
Proof.
  induction 1 as [|e pre He _ IH]; [reflexivity|].
  cbn [app _handleIntersection].
  destruct (undecided_tests e He) as [-> ->]. exact IH.
Qed.

Lemma at_least_three_quarters_not_zero q :
  0.75 <= q -> Qeq_bool q 0 = false.
Proof.
  intros H. destruct (Qeq_bool q 0) eqn:E; [|reflexivity].
  apply Qeq_bool_iff in E. rewrite E in H. exfalso. revert H. apply Qlt_not_le. reflexivity.
Qed.

(** C2, as amended.  A batch of entries is decided by its first entry
    whose ratio is 0 or at least 0.75; the entries after it are not
    looked at.  After any number of entries with ratios strictly
    between 0 and 0.75: a ratio of exactly 0 gives the bar the
    is-visible class, a ratio of at least 0.75 takes it away, and a
    batch holding only in-between ratios leaves the bar as it was. *)
Theorem handleIntersection_first_decisive
    (pre : list IntersectionObserverEntry) (e : IntersectionObserverEntry)
    (post : list IntersectionObserverEntry) (s : t) :
  Forall undecided pre ->
  (intersectionRatio e == 0 ->
     _handleIntersection (pre ++ e :: post) s = classList_add "is-visible" s /\
     ("is-visible" ∈ classList (_handleIntersection (pre ++ e :: post) s))) /\
  (0.75 <= intersectionRatio e ->
     _handleIntersection (pre ++ e :: post) s = classList_remove "is-visible" s /\
     ("is-visible" ∉ classList (_handleIntersection (pre ++ e :: post) s))) /\
  _handleIntersection pre s = s.
Proof.
  intros Hpre. rewrite (handleIntersection_skips pre (e :: post) s Hpre).
  cbn [_handleIntersection]. split; [|split].
  - intros Hzero. apply Qeq_bool_iff in Hzero. rewrite Hzero.
    split; [reflexivity|]. cbn. set_solver.
  - intros Hlarge. rewrite (at_least_three_quarters_not_zero _ Hlarge).
    apply Qle_bool_iff in Hlarge. rewrite Hlarge.
    split; [reflexivity|]. cbn. set_solver.
  - rewrite <- (app_nil_r pre) at 1.
    now rewrite (handleIntersection_skips pre [] s Hpre).
Qed.

Lemma handleIntersection_first_decisive_witness :
  "is-visible" ∈ classList
    (_handleIntersection [entry_at 0.5; entry_at 0; entry_at 1] (constructor ∅ ∅)).
Proof.
  apply (handleIntersection_first_decisive [entry_at 0.5] (entry_at 0) [entry_at 1]).
  - repeat constructor.
  - reflexivity.
Defined.

(** C2 as stated fails on a batch of two entries: the target was seen
    fully in view and then fully out of view, the handler stops at the
    first entry, and the bar never gains the class for the second. *)
Lemma handleIntersection_later_entry_ignored :
  let batch := [entry_at 1; entry_at 0] in
  ~ (forall e, e ∈ batch -> intersectionRatio e == 0 ->
       "is-visible" ∈ classList (_handleIntersection batch (constructor ∅ ∅))).
Proof.
  intros batch H.
  specialize (H (entry_at 0)).
  assert (Hin : entry_at 0 ∈ batch) by (unfold batch; set_solver).
  specialize (H Hin ltac:(reflexivity)).
  cbn in H. set_solver.
Qed.

End StickyATC_intersection.

(** ** Sticky add-to-cart bar: bounded retries *)
Section StickyATC_retry.
Import Browser StickyATC.

Variables (classes : gset string) (attrs : gmap string string) (w0 : Window).
Hypothesis idle : rafPending w0 = [].

Lemma connect_without_target doc :
  target_missing (configured_selector attrs) doc ->
  connectedCallback doc (w0, constructor classes attrs) = retrying classes attrs w0 0.
Proof.
  unfold target_missing, connectedCallback, _attachObserver, retrying, configured_selector.
  intros Hdoc. cbn. rewrite Hdoc. cbn. rewrite idle, Nat.add_0_r. reflexivity.
Qed.

Lemma frame_without_target doc k :
  target_missing (configured_selector attrs) doc -> k < 9 ->
  animationFrame doc (retrying classes attrs w0 k) = retrying classes attrs w0 (S k).
Proof.
  unfold target_missing, animationFrame, _attachObserver, retrying.
  intros Hdoc Hk. cbn. rewrite Hdoc. cbn.
  destruct (Nat.leb_spec k 8) as [_|Hbad]; [|lia]. cbn.
  replace (rafNext w0 + S k) with (S (rafNext w0 + k)) by lia.
  replace (k + 1) with (S k) by lia. reflexivity.
Qed.

Lemma last_frame_without_target doc :
  target_missing (configured_selector attrs) doc ->
  animationFrame doc (retrying classes attrs w0 9) = gave_up classes attrs w0.
Proof.
  unfold target_missing, animationFrame, _attachObserver, retrying, gave_up.
  intros Hdoc. cbn. rewrite Hdoc. cbn.
  replace (S (rafNext w0 + 9)) with (rafNext w0 + 10) by lia. reflexivity.
Qed.

Lemma frame_after_giving_up doc :
  animationFrame doc (gave_up classes attrs w0) = gave_up classes attrs w0.
Proof. reflexivity. Qed.

Lemma frames_after_giving_up docs :
  animationFrames docs (gave_up classes attrs w0) = gave_up classes attrs w0.
Proof.
  induction docs as [|d docs IH]; [reflexivity|].
  unfold animationFrames in *. cbn [fold_left].
  rewrite frame_after_giving_up. exact IH.
Qed.

Lemma frames_without_target docs : forall k,
  Forall (target_missing (configured_selector attrs)) docs ->
  k <= 9 ->
  animationFrames docs (retrying classes attrs w0 k) =
    if decide (k + length docs <= 9) then retrying classes attrs w0 (k + length docs)
    else gave_up classes attrs w0.
Proof.
  induction docs as [|d docs IH]; intros k Hdocs Hk.
  - cbn. rewrite Nat.add_0_r. destruct (decide (k <= 9)); [reflexivity|lia].
  - inversion Hdocs as [|? ? Hd Hrest]; subst.
    unfold animationFrames in *. cbn [fold_left length].
    destruct (decide (k = 9)) as [->|Hne].
    + rewrite (last_frame_without_target _ Hd).
      fold (animationFrames docs (gave_up classes attrs w0)).
      rewrite frames_after_giving_up.
      destruct (decide (9 + S (length docs) <= 9)); [lia|reflexivity].
    + rewrite (frame_without_target _ _ Hd) by lia.
      rewrite (IH (S k) Hrest) by lia.
      replace (S k + length docs) with (k + S (length docs)) by lia.
      reflexivity.
Qed.

End StickyATC_retry.

Section StickyATC_retry_count.
Import Browser StickyATC.

Lemma animationFrames_nothing_pending (docs : list Document) (w : Window) (s : t) :
  rafPending w = [] -> animationFrames docs (w, s) = (w, s).
Proof.
  intros Hw. induction docs as [|d docs IH]; [reflexivity|].
  unfold animationFrames in *. cbn [fold_left].
  replace (animationFrame d (w, s)) with (w, s); [exact IH|].
  unfold animationFrame, take_frame. rewrite Hw. cbn.
  destruct w; cbn in *; subst; reflexivity.
Qed.

(** One attach attempt that finds no target: below the limit it counts
    the failure and asks for one more frame; at the limit it warns and
    shows the bar, and asks for nothing. *)
Lemma attach_without_target (doc : Document) (w : Window) (s : t) :
  target_missing (_targetSelector s) doc ->
  let ws := _attachObserver doc (w, s) in
  _targetSelector (snd ws) = _targetSelector s /\
  (_retryCount s < 10 ->
     rafPending (fst ws) = (rafPending w ++ [rafNext w])%list /\
     rafNext (fst ws) = S (rafNext w) /\
     console (fst ws) = console w /\
     classList (snd ws) = classList s /\
     _retryCount (snd ws) = _retryCount s + 1) /\
  (10 <= _retryCount s ->
     rafPending (fst ws) = rafPending w /\
     rafNext (fst ws) = rafNext w /\
     console (fst ws) =
       (console w ++ [Warn (not_found_message (_targetSelector s))])%list /\
     classList (snd ws) = classList s ∪ {["is-visible"]} /\
     _retryCount (snd ws) = _retryCount s).
Proof.
  unfold target_missing, _attachObserver. intros Hdoc. cbn. rewrite Hdoc. cbn.
  destruct (Nat.leb_spec (_retryCount s) 9) as [Hlt|Hge]; cbn.
  - split; [reflexivity|]. split; [intros _; repeat split|intros Hbad; lia].
  - split; [reflexivity|]. split; [intros Hbad; lia|intros _; repeat split].
Qed.

(** A frame with one callback waiting runs one attach attempt. *)
Lemma frame_runs_one_attempt (doc : Document) (w : Window) (s : t) (n : nat) :
  rafPending w = [n] ->
  animationFrame doc (w, s) =
    _attachObserver doc
      ({| rafPending := []; rafNext := rafNext w; console := console w;
          ioCount := ioCount w |}, s).
Proof. intros Hw. unfold animationFrame, take_frame. rewrite Hw. reflexivity. Qed.

(** The frames that follow a failed attempt, from any count up to the
    limit. *)
Lemma frames_from_retrying (sel : string) (docs : list Document) :
  Forall (target_missing sel) docs ->
  forall (w : Window) (s : t) (n : nat),
    _targetSelector s = sel ->
    rafPending w = [n] -> rafNext w = S n -> _retryCount s <= 10 ->
    let ws := animationFrames docs (w, s) in
    (_retryCount s + length docs <= 10 ->
       rafPending (fst ws) = [n + length docs] /\
       console (fst ws) = console w /\
       classList (snd ws) = classList s /\
       _retryCount (snd ws) = _retryCount s + length docs) /\
    (10 < _retryCount s + length docs ->
       rafPending (fst ws) = [] /\
       rafNext (fst ws) = S n + (10 - _retryCount s) /\
       console (fst ws) = (console w ++ [Warn (not_found_message sel)])%list /\
       classList (snd ws) = classList s ∪ {["is-visible"]} /\
       _retryCount (snd ws) = 10).
Proof.
  induction 1 as [|d docs Hd _ IH]; intros w s n Hsel Hw Hnext Hcount; cbv zeta.
  - cbn. split; [|intros Hbad; lia].
    intros _. rewrite !Nat.add_0_r. repeat split. exact Hw.
  - unfold animationFrames. cbn [fold_left length].
    fold (animationFrames docs (animationFrame d (w, s))).
    rewrite (frame_runs_one_attempt d w s n Hw).
    set (w1 := {| rafPending := []; rafNext := rafNext w; console := console w;
                  ioCount := ioCount w |}).
    rewrite <- Hsel in Hd.
    destruct (attach_without_target d w1 s Hd) as (Hs1 & Hbelow & Hlimit).
    destruct (_attachObserver d (w1, s)) as [w2 s2]. cbn [fst snd] in *.
    destruct (Nat.eq_dec (_retryCount s) 10) as [Hten|Hless].
    + destruct Hlimit as (Hp & Hn & Hc & Hcl & Hrc); [lia|].
      rewrite animationFrames_nothing_pending by exact Hp. cbn [fst snd].
      split; [intros Hbad; lia|]. intros _.
      rewrite Hp, Hn, Hc, Hcl, Hrc, Hsel, Hten. subst w1. cbn [rafNext console].
      rewrite Hnext. repeat split. lia.
    + destruct Hbelow as (Hp & Hn & Hc & Hcl & Hrc); [lia|].
      subst w1. cbn [rafPending rafNext console app] in Hp, Hn, Hc.
      rewrite Hnext in Hp, Hn.
      destruct (IH w2 s2 (S n)) as [Hgo Hstop]; [congruence|exact Hp|exact Hn|lia|].
      rewrite Hc, Hcl, Hrc in *. split.
      * intros Hlen. destruct Hgo as (E1 & E2 & E3 & E4); [lia|].
        rewrite E1, E2, E3, E4. repeat split; try lia. f_equal. lia.
      * intros Hlen. destruct Hstop as (E1 & E2 & E3 & E4 & E5); [lia|].
        rewrite E1, E2, E3, E4, E5. repeat split. lia.
Qed.

(** C3, as amended.  Failed attach attempts are counted in
    [_retryCount], which only a successful attach resets: a disconnect
    cancels the pending callback and keeps the count.  Take a bar in
    any state, connected while no callback of its own is waiting, on a
    page where its selector matches nothing at the connect and at
    every following animation frame.  As long as the count it was
    connected with plus the number of frames run stays below ten,
    exactly one more animation-frame callback is waiting, nothing has
    been logged and the class list is untouched.  The attempt that
    finds the count at ten logs the warning once, adds is-visible and
    schedules nothing, and later frames schedule nothing either.  For
    a newly constructed bar that is the eleventh failed attempt (the
    connect and ten frames); a bar reconnected after failures gets
    there sooner. *)
Theorem attach_gives_up_on_eleventh_failure
    (w : Window) (s : t) (doc : Document) (docs : list Document) :
  rafPending w = [] ->
  target_missing (configured_selector (attributes s)) doc ->
  Forall (target_missing (configured_selector (attributes s))) docs ->
  let ws := animationFrames docs (connectedCallback doc (w, s)) in
  (_retryCount s + length docs < 10 ->
     rafPending (fst ws) = [rafNext w + length docs] /\
     console (fst ws) = console w /\
     classList (snd ws) = classList s /\
     _retryCount (snd ws) = _retryCount s + S (length docs)) /\
  (10 <= _retryCount s + length docs ->
     rafPending (fst ws) = [] /\
     rafNext (fst ws) = rafNext w + (10 - _retryCount s) /\
     console (fst ws) =
       (console w ++
          [Warn (not_found_message (configured_selector (attributes s)))])%list /\
     classList (snd ws) = classList s ∪ {["is-visible"]} /\
     _retryCount (snd ws) = Nat.max (_retryCount s) 10).
Proof.
  intros Hidle Hdoc Hdocs ws. subst ws. unfold connectedCallback.
  fold (configured_selector (attributes s)).
  set (sel := configured_selector (attributes s)) in *.
  set (s0 := set_targetSelector sel s).
  assert (Hsel0 : _targetSelector s0 = sel) by reflexivity.
  assert (Hd0 : target_missing (_targetSelector s0) doc) by exact Hdoc.
  destruct (attach_without_target doc w s0 Hd0) as (Hs1 & Hbelow & Hlimit).
  change (_retryCount s0) with (_retryCount s) in *.
  change (classList s0) with (classList s) in *.
  rewrite Hsel0 in *.
  destruct (_attachObserver doc (w, s0)) as [w1 s1]. cbn [fst snd] in *.
  destruct (Nat.lt_ge_cases (_retryCount s) 10) as [Hlt|Hge].
  - destruct (Hbelow Hlt) as (Hp & Hn & Hc & Hcl & Hrc). clear Hbelow Hlimit.
    rewrite Hidle in Hp. cbn [app] in Hp.
    destruct (frames_from_retrying sel docs Hdocs w1 s1 (rafNext w))
      as [Hgo Hstop]; [exact Hs1|exact Hp|exact Hn|lia|].
    rewrite Hc, Hcl, Hrc in *. split.
    + intros Hlen. destruct Hgo as (E1 & E2 & E3 & E4); [lia|].
      rewrite E1, E2, E3, E4. repeat split. lia.
    + intros Hlen. destruct Hstop as (E1 & E2 & E3 & E4 & E5); [lia|].
      rewrite E1, E2, E3, E4, E5. repeat split; lia.
  - destruct (Hlimit Hge) as (Hp & Hn & Hc & Hcl & Hrc). clear Hbelow Hlimit.
    rewrite Hidle in Hp.
    rewrite animationFrames_nothing_pending by exact Hp. cbn [fst snd].
    split; [intros Hbad; lia|]. intros _.
    rewrite Hp, Hn, Hc, Hcl, Hrc. repeat split; lia.
Qed.

End StickyATC_retry_count.

Lemma attach_gives_up_on_eleventh_failure_witness :
  let before := StickyATC.disconnectedCallback
                  (StickyATC.animationFrames (repeat StickyATC.no_target 5)
                     (StickyATC.connectedCallback StickyATC.no_target
                        (Browser.fresh_window, StickyATC.constructor ∅ ∅))) in
  let ws := StickyATC.animationFrames (repeat StickyATC.no_target 4)
              (StickyATC.connectedCallback StickyATC.no_target
                 (fst before, snd before)) in
  StickyATC._retryCount (snd before) = 6 /\
  Browser.rafPending (fst ws) = [] /\
  Browser.console (fst ws) =
    [Browser.Warn (StickyATC.not_found_message ".product-form-buttons")] /\
  "is-visible" ∈ StickyATC.classList (snd ws).
Proof.
  intros before ws. split; [reflexivity|].
  destruct (attach_gives_up_on_eleventh_failure (fst before) (snd before)
              StickyATC.no_target (repeat StickyATC.no_target 4))
    as [_ Hstop].
  - reflexivity.
  - reflexivity.
  - repeat constructor.
  - destruct Hstop as (Hpending & _ & Hconsole & Hclasses & _).
    + vm_compute. lia.
    + split; [exact Hpending|]. split.
      * etransitivity; [exact Hconsole|]. vm_compute. reflexivity.
      * subst ws. rewrite Hclasses. set_solver.
Defined.

(** The retries end as soon as the target shows up: the observer is
    attached and the count starts again from zero. *)
Example attach_succeeds_once_target_appears :
  let found : Browser.Document := λ _, Some 5 in
  let ws := StickyATC.animationFrames [StickyATC.no_target; found; found]
              (StickyATC.connectedCallback StickyATC.no_target
                 (Browser.fresh_window, StickyATC.constructor ∅ ∅)) in
  Browser.rafPending (fst ws) = [] /\
  StickyATC._retryCount (snd ws) = 0 /\
  Browser.io_observing <$> StickyATC._observer (snd ws) = Some [5].
Proof. vm_compute. repeat split; reflexivity. Qed.

(** C3 as stated fails at ten: after ten failed attach attempts (the
    connect and nine animation frames) a callback is still waiting for
    the next frame and the bar has not been made visible. *)
Lemma ten_failed_attempts_still_retrying :
  let ws := StickyATC.animationFrames (repeat StickyATC.no_target 9)
              (StickyATC.connectedCallback StickyATC.no_target
                 (Browser.fresh_window, StickyATC.constructor ∅ ∅)) in
  StickyATC._retryCount (snd ws) = 10 /\
  ~ (Browser.rafPending (fst ws) = [] /\ "is-visible" ∈ StickyATC.classList (snd ws)).
Proof.
  intros ws. split; [reflexivity|].
  intros [Hpending _]. vm_compute in Hpending. discriminate Hpending.
Qed.

(** ** Anchor-tracking sticky bar *)
Section StickyAtcElement_properties.
Import Browser StickyAtcElement.

(** C4.  A [variant:update] event that carries no product id, or one
    that differs from the id the element was connected with, leaves
    the element and the window exactly as they were: attributes and
    dataset, text, link targets, image and observers included. *)
Theorem handleVariantUpdate_other_product
    (js : Js.Engine) (pg : Page) (event : VariantUpdateEvent) (w : Window) (s : t) :
  payload_productId js event ≠ Some (productId s) ->
  handleVariantUpdate js pg event (w, s) = (w, s).
Proof.
  unfold payload_productId, handleVariantUpdate.
  destruct (detail event) as [det|]; [|reflexivity].
  destruct (data det) as [d|]; [|reflexivity].
  destruct (event_productId js d) as [pid|]; [|reflexivity].
  intros Hne.
  destruct (String.eqb pid "") eqn:Hempty; [reflexivity|].
  destruct (String.eqb pid (productId s)) eqn:Hsame; [|reflexivity].
  apply String.eqb_eq in Hsame. congruence.
Qed.

Lemma handleVariantUpdate_other_product_witness :
  let ws := connected {[ "data-product-id" := "7" ]} in
  handleVariantUpdate Js.sample_engine sample_page
    (update_for (Js.VNum 42) empty_resource) (fst ws, snd ws) = (fst ws, snd ws).
Proof.
  intros ws.
  apply (handleVariantUpdate_other_product Js.sample_engine sample_page
           (update_for (Js.VNum 42) empty_resource) (fst ws) (snd ws)).
  vm_compute. discriminate.
Defined.

(** An id that the engine writes with an exponent is compared in that
    form: the event for product 1e21 is handled by the element whose
    data-product-id is 1e+21 and ignored by the one whose
    data-product-id spells the number out. *)
Example handleVariantUpdate_large_id :
  let event := update_for (Js.VNum 1e21)
                 {| url := None; title := Some "Small"; featured_media := None |} in
  variantTarget
    (snd (handleVariantUpdate Js.sample_engine sample_page event
            (connected {[ "data-product-id" := "1e+21" ]})))
  = Some {| textContent := "Small"; v_hidden := false |} /\
  handleVariantUpdate Js.sample_engine sample_page event
    (connected {[ "data-product-id" := "1000000000000000000000" ]})
  = connected {[ "data-product-id" := "1000000000000000000000" ]}.
Proof. vm_compute. split; reflexivity. Qed.

(** The handler is not idle: an event for the element's own product
    rewrites the variant text. *)
Example handleVariantUpdate_same_product :
  variantTarget
    (snd (handleVariantUpdate Js.sample_engine sample_page
            (update_for (Js.VNum 7)
               {| url := None; title := Some "Small"; featured_media := None |})
            (connected {[ "data-product-id" := "7" ]})))
  = Some {| textContent := "Small"; v_hidden := false |}.
Proof. vm_compute. reflexivity. Qed.

Lemma setVisibility_from_consistent (b : bool) (s : t) :
  shown s \/ concealed s ->
  if b then shown (setVisibility b s) else concealed (setVisibility b s).
Proof.
  unfold shown, concealed, setVisibility, setAttribute, Js.seq_lit.
  intros [[Ha Hv]|[Ha Hv]]; rewrite Ha; destruct b; cbn;
    split; simplify_map_eq; done.
Qed.




End StickyAtcElement_properties.

(** ** Header: trigger button and drawer *)
Section MKHeaderComponent_properties.
Import MKHeaderComponent.

(** The button agrees with the drawer. *)
Lemma updateButtonState_in_sync (s : t) (b : MenuButton) (isOpen : bool) (i1 i2 : Icon) :
  menuButton s = Some b -> drawerDetails s = Some isOpen ->
  openIcon b = Some i1 -> closeIcon b = Some i2 ->
  menuButton (updateButtonState s) =
    Some {| aria_expanded := Some (if isOpen then "true" else "false");
            openIcon := Some (if isOpen then hidden else shown);
            closeIcon := Some (if isOpen then shown else hidden) |}.
Proof.
  intros Hb Hd Ho Hc. unfold updateButtonState.
  rewrite Hb, Hd. cbn. rewrite Ho, Hc. destruct isOpen; reflexivity.
Qed.

Lemma updateButtonState_details (s : t) :
  drawerDetails (updateButtonState s) = drawerDetails s.
Proof.
  unfold updateButtonState.
  destruct (menuButton s) as [b|] eqn:Hb; [|reflexivity].
  destruct (drawerDetails s) as [isOpen|] eqn:Hd; [|exact Hd].
  cbn. exact Hd.
Qed.

Lemma updateButtonState_keeps_icons (n : nat) (s : t) (b : MenuButton)
    (isOpen : bool) (i1 i2 : Icon) :
  menuButton s = Some b -> drawerDetails s = Some isOpen ->
  openIcon b = Some i1 -> closeIcon b = Some i2 ->
  drawerDetails (Nat.iter n updateButtonState s) = Some isOpen /\
  exists b' j1 j2,
    menuButton (Nat.iter n updateButtonState s) = Some b' /\
    openIcon b' = Some j1 /\ closeIcon b' = Some j2.
Proof.
  intros Hb Hd Ho Hc. induction n as [|n [IHd (b' & j1 & j2 & IHb & IHo & IHc)]].
  - split; [exact Hd|]. exists b, i1, i2. auto.
  - rewrite Nat.iter_succ. split.
    + rewrite updateButtonState_details. exact IHd.
    + rewrite (updateButtonState_in_sync _ _ _ _ _ IHb IHd IHo IHc).
      eexists _, _, _. repeat split; reflexivity.
Qed.

(** The part of C9 that holds: after a [toggle] event on an initialised
    header whose button holds both icons, aria-expanded and the icons
    follow the drawer. *)
Lemma toggle_event_in_sync (s : t) (b : MenuButton) (isOpen : bool) (i1 i2 : Icon) :
  0 < toggleListeners s ->
  menuButton s = Some b -> drawerDetails s = Some isOpen ->
  openIcon b = Some i1 -> closeIcon b = Some i2 ->
  menuButton (toggle_event s) =
    Some {| aria_expanded := Some (if isOpen then "true" else "false");
            openIcon := Some (if isOpen then hidden else shown);
            closeIcon := Some (if isOpen then shown else hidden) |}.
Proof.
  unfold toggle_event. intros Hn Hb Hd Ho Hc.
  destruct (toggleListeners s) as [|n]; [lia|].
  rewrite Nat.iter_succ.
  destruct (updateButtonState_keeps_icons n s b isOpen i1 i2 Hb Hd Ho Hc)
    as [Hd' (b' & j1 & j2 & Hb' & Ho' & Hc')].
  exact (updateButtonState_in_sync _ _ _ _ _ Hb' Hd' Ho' Hc').
Qed.

(** C9 at initialisation.  When [#initMobileMenu] runs while the
    drawer is open and the button holds both icons, aria-expanded
    becomes true but the icons are left in the closed arrangement: the
    open icon displayed, the close icon hidden. *)
Theorem initMobileMenu_open_drawer_icons (s : t) (b : MenuButton) (i1 i2 : Icon) :
  headerComponent s = true -> headerDrawer s = true ->
  menuButton s = Some b -> drawerDetails s = Some true ->
  openIcon b = Some i1 -> closeIcon b = Some i2 ->
  menuButton (initMobileMenu s) =
    Some {| aria_expanded := Some "true";
            openIcon := Some {| display := Some "block" |};
            closeIcon := Some {| display := Some "none" |} |}.
Proof.
  intros Hh Hdr Hb Hd Ho Hc. unfold initMobileMenu.
  rewrite Hh, Hb, Hd, Hdr. cbn.
  unfold updateButtonState. cbn. rewrite Hb, Hd. cbn. rewrite Ho, Hc. reflexivity.
Qed.

End MKHeaderComponent_properties.

Lemma initMobileMenu_open_drawer_icons_witness :
  MKHeaderComponent.menuButton
    (MKHeaderComponent.initMobileMenu MKHeaderComponent.header_with_open_drawer) =
    Some {| MKHeaderComponent.aria_expanded := Some "true";
            MKHeaderComponent.openIcon := Some MKHeaderComponent.shown;
            MKHeaderComponent.closeIcon := Some MKHeaderComponent.hidden |}.
Proof.
  apply (initMobileMenu_open_drawer_icons MKHeaderComponent.header_with_open_drawer
           MKHeaderComponent.untouched_button
           {| MKHeaderComponent.display := None |}
           {| MKHeaderComponent.display := None |});
    reflexivity.
Defined.

(** ** Video player *)
Section MkVideoPlayer_properties.
Import Browser MkVideoPlayer.

Lemma querySelector_from_lookup (cls : string) (l : list Element) :
  forall (k i : nat) (e : Element),
    querySelector_from k cls l = Some (i, e) ->
    k <= i /\ l !! (i - k) = Some e.
Proof.
  induction l as [|x l IH]; intros k i e; cbn [querySelector_from]; [discriminate|].
  case_bool_decide.
  - intros [= <- <-]. split; [lia|]. now rewrite Nat.sub_diag.
  - intros Hrest. destruct (IH _ _ _ Hrest) as [Hle Hl]. split; [lia|].
    replace (i - k) with (S (i - S k)) by lia. exact Hl.
Qed.

Lemma getCurrentVideo_video_at (s : t) (i : nat) (v : VideoState) :
  getCurrentVideo s = Some (i, HTMLVideoElement v) -> video_at i s = Some v.
Proof.
  unfold getCurrentVideo, querySelector, video_at.
  destruct (querySelector_from 0 "mk-video__element" (children s)) as [[j e]|] eqn:Hq;
    [|discriminate].
  destruct (querySelector_from_lookup _ _ _ _ _ Hq) as [_ Hl].
  rewrite Nat.sub_0_r in Hl.
  destruct (kind e) eqn:Hk; intros [= <- <-] || discriminate.
  now rewrite Hl, Hk.
Qed.

Lemma video_at_set_display (i c : nat) (d : string) (s : t) :
  video_at i (set_display c d s) = video_at i s.
Proof.
  unfold video_at, set_display.
  destruct (children s !! c) as [e|] eqn:Hc; [|reflexivity].
  cbn. destruct (decide (c = i)) as [->|Hne].
  - rewrite list_lookup_insert_eq by (eapply lookup_lt_Some; eassumption).
    now rewrite Hc.
  - now rewrite list_lookup_insert_ne.
Qed.

Lemma video_at_update_video (i : nat) (f : VideoState -> VideoState) (s : t) (v : VideoState) :
  video_at i s = Some v -> video_at i (update_video i f s) = Some (f v).
Proof.
  unfold update_video. intros Hv. rewrite Hv.
  unfold video_at, set_kind in *.
  destruct (children s !! i) as [e|] eqn:Hi; [|discriminate].
  cbn. rewrite list_lookup_insert_eq by (eapply lookup_lt_Some; eassumption).
  reflexivity.
Qed.

Lemma update_video_frame (i : nat) (f : VideoState -> VideoState) (s : t) :
  _observer (update_video i f s) = _observer s /\
  _isLoaded (update_video i f s) = _isLoaded s /\
  _isPlaying (update_video i f s) = _isPlaying s /\
  classList (update_video i f s) = classList s /\
  attributes (update_video i f s) = attributes s /\
  this (update_video i f s) = this s /\
  calls (update_video i f s) = calls s.
Proof.
  unfold update_video, set_kind.
  destruct (video_at i s); [|repeat split].
  destruct (children s !! i); repeat split.
Qed.

Lemma set_display_frame (c : nat) (d : string) (s : t) :
  _observer (set_display c d s) = _observer s /\
  _isLoaded (set_display c d s) = _isLoaded s /\
  _isPlaying (set_display c d s) = _isPlaying s /\
  classList (set_display c d s) = classList s /\
  attributes (set_display c d s) = attributes s /\
  this (set_display c d s) = this s /\
  calls (set_display c d s) = calls s.
Proof.
  unfold set_display. destruct (children s !! c); repeat split.
Qed.

Lemma pauseVideo_frame (s : t) :
  children (pauseVideo s) = children s /\
  _observer (pauseVideo s) = _observer s /\
  _isLoaded (pauseVideo s) = _isLoaded s /\
  attributes (pauseVideo s) = attributes s /\
  this (pauseVideo s) = this s.
Proof.
  unfold pauseVideo, postMessage.
  destruct (_isPlaying s); [|repeat split].
  destruct (getCurrentVideo s) as [[i k]|]; [|repeat split].
  destruct k as [v|f|]; cbn; [repeat split| |repeat split].
  destruct (String.eqb (videoType s) "youtube"); [|repeat split].
  destruct (iframe_at i s) as [x|]; [|repeat split].
  destruct (f_contentWindow x); repeat split.
Qed.

Lemma unloaded_effect (lazy : bool) (w : Window) (s : t) :
  let r := unloaded lazy (w, s) in
  _isLoaded (snd r) = false /\
  ("is-loaded" ∉ classList (snd r)) /\
  children (snd r) = children s /\
  _isPlaying (snd r) = _isPlaying s /\
  match lazy, _observer s with
  | true, Some _ =>
      _observer (snd r) =
        Some {| io_id := ioCount w; io_rootMargin := "50px";
                io_threshold := [0.1%Q]; io_observing := [this s] |} /\
      ioCount (fst r) = S (ioCount w)
  | _, _ => _observer (snd r) = _observer s /\ ioCount (fst r) = ioCount w
  end.
Proof.
  unfold unloaded. cbn [_observer classList_remove set_classList set_isLoaded].
  destruct lazy, (_observer s) as [o|] eqn:Ho; cbn; rewrite ?Ho;
    repeat split; try reflexivity; set_solver.
Qed.


Lemma iframe_at_set_display (i c : nat) (d : string) (s : t) :
  iframe_at i (set_display c d s) = iframe_at i s.
Proof.
  unfold iframe_at, set_display.
  destruct (children s !! c) as [e|] eqn:Hc; [|reflexivity].
  cbn. destruct (decide (c = i)) as [->|Hne].
  - rewrite list_lookup_insert_eq by (eapply lookup_lt_Some; eassumption).
    now rewrite Hc.
  - now rewrite list_lookup_insert_ne.
Qed.

Lemma iframe_at_update_iframe (i : nat) (g : IframeState -> IframeState) (s : t)
    (f : IframeState) :
  iframe_at i s = Some f -> iframe_at i (update_iframe i g s) = Some (g f).
Proof.
  unfold update_iframe. intros Hf. rewrite Hf.
  unfold iframe_at, set_kind in *.
  destruct (children s !! i) as [e|] eqn:Hi; [|discriminate].
  cbn. rewrite list_lookup_insert_eq by (eapply lookup_lt_Some; eassumption).
  reflexivity.
Qed.

Lemma update_iframe_frame (i : nat) (g : IframeState -> IframeState) (s : t) :
  _observer (update_iframe i g s) = _observer s /\
  _isLoaded (update_iframe i g s) = _isLoaded s /\
  classList (update_iframe i g s) = classList s.
Proof.
  unfold update_iframe, set_kind.
  destruct (iframe_at i s); [|repeat split].
  destruct (children s !! i); repeat split.
Qed.



(** Playing never unloads, never touches an observer, and leaves the
    media elements' own state alone. *)
Lemma playVideo_frame (env : Env) (s : t) :
  _isLoaded (playVideo env s) = _isLoaded s /\
  _observer (playVideo env s) = _observer s /\
  classList s ⊆ classList (playVideo env s) /\
  (forall i, video_at i (playVideo env s) = video_at i s) /\
  (forall i, iframe_at i (playVideo env s) = iframe_at i s).
Proof.
  unfold playVideo.
  destruct (_isPlaying s); [repeat split; done|].
  destruct (getCurrentVideo s) as [[i k]|]; [|repeat split; done].
  set (s1 := match querySelector "mk-video__container" (children s) with
             | Some (c, _) => set_display c "" s
             | None => s
             end).
  assert (H1 : _isLoaded s1 = _isLoaded s /\ _observer s1 = _observer s /\
               classList s1 = classList s /\
               (forall j, video_at j s1 = video_at j s) /\
               (forall j, iframe_at j s1 = iframe_at j s)).
  { subst s1. destruct (querySelector "mk-video__container" (children s)) as [[c e]|];
      [|repeat split; done].
    destruct (set_display_frame c "" s) as (Eo & El & _ & Ec & _).
    repeat split; auto using video_at_set_display, iframe_at_set_display. }
  clearbody s1. destruct H1 as (El & Eo & Ec & Ev & Ef).
  destruct k as [v|f|].
  - destruct (play_returns_promise env); cbn; rewrite <- ?Ec; repeat split; auto.
  - destruct (String.eqb (videoType s1) "youtube").
    + unfold postMessage. destruct (iframe_at i s1) as [x|];
        [destruct (f_contentWindow x)|]; cbn; rewrite <- ?Ec;
        repeat split; auto; set_solver.
    + rewrite <- Ec. repeat split; auto.
  - rewrite <- Ec. repeat split; auto.
Qed.

(** Loading writes to the media element only. *)
Lemma loadMP4_frame (env : Env) (w : Window) (s : t) :
  let r := loadMP4 env (w, s) in
  _observer (snd r) = _observer s /\ _isLoaded (snd r) = _isLoaded s /\
  classList (snd r) = classList s /\ ioCount (fst r) = ioCount w.
Proof.
  unfold loadMP4.
  destruct (negb (Js.struthy (attributes s !! "data-video-desktop"))); [repeat split|].
  destruct (querySelector "mk-video__element" (children s)) as [[i [cn sd [v| |]]]|];
    try (repeat split; fail).
  destruct (pick_source (isMobile env) (attributes s !! "data-video-mobile")
              (attributes s !! "data-video-desktop")) as [vsrc|]; [|repeat split].
  set (s1 := if String.eqb (current_source env v) "" || String.eqb (current_source env v) ""
                || negb (String.eqb (current_source env v) vsrc)
             then call (Load i) (update_video i (with_v_src vsrc) s) else s).
  assert (H1 : _observer s1 = _observer s /\ _isLoaded s1 = _isLoaded s /\
               classList s1 = classList s).
  { subst s1. destruct (_ || _); [|repeat split]. cbn.
    destruct (update_video_frame i (with_v_src vsrc) s) as (-> & -> & _ & -> & _).
    repeat split. }
  clearbody s1. destruct H1 as (Eo & El & Ec).
  destruct (pick_source (isMobile env) (attributes s !! "data-poster-mobile")
              (attributes s !! "data-poster-desktop")) as [psrc|]; [|repeat split; assumption].
  destruct (String.eqb psrc ""); [repeat split; assumption|]. cbn [fst snd].
  destruct (update_video_frame i (with_v_poster psrc) s1) as (-> & -> & _ & -> & _).
  repeat split; assumption.
Qed.

Lemma loadYouTube_frame (env : Env) (w : Window) (s : t) :
  let r := loadYouTube env (w, s) in
  _observer (snd r) = _observer s /\ _isLoaded (snd r) = _isLoaded s /\
  classList (snd r) = classList s /\ ioCount (fst r) = ioCount w.
Proof.
  unfold loadYouTube.
  destruct (negb (Js.struthy (attributes s !! "data-youtube-desktop"))); [repeat split|].
  destruct (querySelector "mk-video__iframe" (children s)) as [[i [cn sd [|f|]]]|];
    try (repeat split; fail).
  destruct (pick_source (isMobile env) (attributes s !! "data-youtube-mobile")
              (attributes s !! "data-youtube-desktop")) as [ysrc|]; [|repeat split].
  destruct (_ || _); [|repeat split]. cbn [fst snd].
  destruct (update_iframe_frame i (with_f_src ysrc) s) as (-> & -> & ->).
  repeat split.
Qed.




(** C10.  The boolean form of [reset] does what the options object
    does: [reset(true)] is [reset({unload: true})], and [reset(false)],
    [reset()] and [reset({})] are all
    [reset({unload: false, disableAutoplay: false})], down to the
    window, the element, its subtree and the calls made on the media
    element. *)
Theorem reset_boolean_is_options_object (ws : Window * t) :
  reset (OptBoolean true) ws = reset (OptObject (Js.VBool true) Js.VUndefined) ws /\
  reset (OptBoolean false) ws = reset (OptObject (Js.VBool false) (Js.VBool false)) ws /\
  reset OptUndefined ws = reset (OptObject (Js.VBool false) (Js.VBool false)) ws /\
  reset (OptObject Js.VUndefined Js.VUndefined) ws =
    reset (OptObject (Js.VBool false) (Js.VBool false)) ws.
Proof.
  destruct ws as [w s]. unfold reset.
  repeat split; reflexivity.
Qed.

(** The boolean form is not blind to its argument. *)
Example reset_true_differs_from_reset_false :
  let s := set_isLoaded true
             (created 0 ∅ ∅
                [ {| className := ["mk-video__element"]; style_display := None;
                     kind := HTMLVideoElement
                               {| v_src := Some "a.mp4"; v_currentSrc := "a.mp4";
                                  v_poster := None; v_currentTime := 3 |} |} ]) in
  _isLoaded (snd (reset (OptBoolean true) (fresh_window, s))) = false /\
  _isLoaded (snd (reset (OptBoolean false) (fresh_window, s))) = true.
Proof. vm_compute. split; reflexivity. Qed.

(** The rejection handler on its own: whatever the player's state, it
    returns normally, logs one warning, and touches nothing but the
    data-autoplay attribute. *)
Lemma onPlayRejected_effect (w : Window) (s : t) :
  onPlayRejected (w, s) =
    (Returned,
     (console_add (Warn "MkVideoPlayer: Video playback failed") w,
      if Js.seq_lit (attributes s !! "data-autoplay") "true"
      then removeAttribute "data-autoplay" s else s)).
Proof.
  unfold onPlayRejected.
  destruct (Js.seq_lit (attributes s !! "data-autoplay") "true"); reflexivity.
Qed.

(** C8.  A player that is not playing calls [play()] on its video
    element and the returned promise rejects: the chain of handlers
    ends fulfilled (nothing is left unhandled), the playing flag is
    still false, the class list is as it was before the call (so
    is-playing has not been added), and data-autoplay is removed if it
    was true and every other attribute kept. *)
Theorem rejected_play_is_contained
    (env : Env) (w : Window) (s : t) (i : nat) (v : VideoState) :
  _isPlaying s = false ->
  getCurrentVideo s = Some (i, HTMLVideoElement v) ->
  play_returns_promise env = true ->
  let r := settlePlay Rejected (w, playVideo env s) in
  fst r = Fulfilled /\
  isPlaying (snd (snd r)) = false /\
  classList (snd (snd r)) = classList s /\
  attributes (snd (snd r)) =
    (if Js.seq_lit (attributes s !! "data-autoplay") "true"
     then delete "data-autoplay" (attributes s) else attributes s) /\
  pendingPlay (snd (snd r)) = pendingPlay s.
Proof.
  intros Hidle Hvideo Hpromise r. subst r.
  unfold playVideo. rewrite Hidle, Hvideo, Hpromise.
  assert (Hshape : forall s0 : t,
            attributes s0 = attributes s -> classList s0 = classList s ->
            _isPlaying s0 = false -> pendingPlay s0 = pendingPlay s ->
            let r := settlePlay Rejected
                       (w, set_pendingPlay (S (pendingPlay (call (Play i) s0)))
                             (call (Play i) s0)) in
            fst r = Fulfilled /\
            isPlaying (snd (snd r)) = false /\
            classList (snd (snd r)) = classList s /\
            attributes (snd (snd r)) =
              (if Js.seq_lit (attributes s !! "data-autoplay") "true"
               then delete "data-autoplay" (attributes s) else attributes s) /\
            pendingPlay (snd (snd r)) = pendingPlay s).
  { intros s0 Hattrs Hclasses Hplaying Hpending.
    unfold settlePlay, then_catch. cbn [snd fst pendingPlay set_pendingPlay].
    rewrite onPlayRejected_effect. cbn [attributes set_pendingPlay call set_calls].
    rewrite Hattrs.
    destruct (Js.seq_lit (attributes s !! "data-autoplay") "true");
      cbn; rewrite ?Hattrs; auto. }
  destruct (querySelector "mk-video__container" (children s)) as [[c e]|].
  - apply Hshape; unfold set_display; destruct (children s !! c); reflexivity || assumption.
  - apply Hshape; reflexivity || assumption.
Qed.

End MkVideoPlayer_properties.



Lemma rejected_play_is_contained_witness :
  let s := MkVideoPlayer.mp4_player
             {[ "data-autoplay" := "true"; "data-video-desktop" := "/videos/a.mp4" ]} in
  let r := MkVideoPlayer.settlePlay MkVideoPlayer.Rejected
             (Browser.fresh_window, MkVideoPlayer.playVideo MkVideoPlayer.desktop s) in
  fst r = MkVideoPlayer.Fulfilled /\
  MkVideoPlayer.isPlaying (snd (snd r)) = false /\
  MkVideoPlayer.attributes (snd (snd r)) !! "data-autoplay" = None.
Proof.
  intros s r.
  destruct (rejected_play_is_contained MkVideoPlayer.desktop Browser.fresh_window s 1
              {| MkVideoPlayer.v_src := None; MkVideoPlayer.v_currentSrc := "";
                 MkVideoPlayer.v_poster := None; MkVideoPlayer.v_currentTime := 0 |})
    as (Hchain & Hplaying & _ & Hattrs & _).
  - reflexivity.
  - vm_compute. reflexivity.
  - reflexivity.
  - repeat split; first [assumption | subst r; rewrite Hattrs; vm_compute; reflexivity].
Defined.



(** ** Doubles: adding one does not go below

    The overflow check adds one pixel of slack to the collapsed height.
    On doubles the sum is rounded; that the rounded sum of a positive
    height and 1 is not below the height is read off the
    specification of the addition. *)
Section Double_arithmetic.
Local Open Scope Z_scope.

Local Abbreviation digits p := (Zpos (digits2_pos p)).

Lemma digits2_pos_bounds (p : positive) :
  2 ^ (digits p - 1) <= Zpos p < 2 ^ digits p.
Proof.
  induction p as [p IH|p IH|]; cbn [digits2_pos].
  - rewrite Pos2Z.inj_succ. replace (Z.succ (digits p) - 1) with (Z.succ (digits p - 1)) by lia.
    rewrite !Z.pow_succ_r by lia. lia.
  - rewrite Pos2Z.inj_succ. replace (Z.succ (digits p) - 1) with (Z.succ (digits p - 1)) by lia.
    rewrite !Z.pow_succ_r by lia. lia.
  - cbn. lia.
Qed.

Lemma shr_1_halves (mrs : shr_record) :
  0 <= shr_m mrs -> shr_m (shr_1 mrs) = shr_m mrs / 2.
Proof.
  destruct mrs as [m r s]. cbn [shr_m]. intros Hm.
  rewrite <- Z.div2_div.
  destruct m as [|[p|p|]|p]; try reflexivity. lia.
Qed.

Lemma iter_shr_1_divides (p : positive) : forall mrs : shr_record,
  0 <= shr_m mrs -> shr_m (SpecFloat.iter_pos shr_1 p mrs) = shr_m mrs / 2 ^ Zpos p.
Proof.
  induction p as [p IH|p IH|]; intros mrs Hm; cbn [SpecFloat.iter_pos].
  - assert (H1 : 0 <= shr_m (shr_1 mrs)).
    { rewrite shr_1_halves by exact Hm. apply Z.div_pos; lia. }
    assert (H2 : 0 <= shr_m (SpecFloat.iter_pos shr_1 p (shr_1 mrs))).
    { rewrite IH by exact H1. apply Z.div_pos; [exact H1|]. apply Z.pow_pos_nonneg; lia. }
    rewrite IH by exact H2. rewrite IH by exact H1. rewrite shr_1_halves by exact Hm.
    rewrite !Z.div_div by (try apply Z.pow_pos_nonneg; lia).
    f_equal. replace (Z.pos p~1) with (1 + Z.pos p + Z.pos p) by lia.
    rewrite !Z.pow_add_r by lia. rewrite Z.pow_1_r. ring.
  - assert (H2 : 0 <= shr_m (SpecFloat.iter_pos shr_1 p mrs)).
    { rewrite IH by exact Hm. apply Z.div_pos; [exact Hm|]. apply Z.pow_pos_nonneg; lia. }
    rewrite IH by exact H2. rewrite IH by exact Hm.
    rewrite !Z.div_div by (try apply Z.pow_pos_nonneg; lia).
    f_equal. replace (Z.pos p~0) with (Z.pos p + Z.pos p) by lia.
    rewrite !Z.pow_add_r by lia. ring.
  - rewrite shr_1_halves by exact Hm. reflexivity.
Qed.

Lemma fexp64_eq (x : Z) : fexp prec emax x = Z.max (x - 53) (-1074).
Proof. reflexivity. Qed.

Lemma round_nearest_even_bounds (m : Z) (l : location) :
  m <= round_nearest_even m l <= m + 1.
Proof. destruct l as [|[]]; cbn; try destruct (Z.even m); lia. Qed.

Local Abbreviation not_below r m e := (SFcompare r (S754_finite false m e) <> Some Lt).

Lemma finite_not_below (q m : positive) (e' e : Z) :
  e <= e' -> (e' = e -> (m <= q)%positive) ->
  not_below (S754_finite false q e') m e.
Proof.
  intros He Hm. cbn [SFcompare].
  destruct (Z.compare_spec e' e) as [Heq|Hlt|Hgt]; [|lia|discriminate].
  specialize (Hm Heq). change (Pos.compare_cont Eq q m) with (q ?= m)%positive.
  intros Hc. injection Hc as Hc. rewrite Pos.compare_lt_iff in Hc. lia.
Qed.

Lemma renormalised_not_below (q m : positive) (e' e : Z) :
  -1074 <= e' -> e <= e' -> (e' = e -> (m <= q)%positive) ->
  not_below (let '(mrs'', e'') := shr_fexp prec emax (Zpos q) e' loc_Exact in
             match shr_m mrs'' with
             | Z0 => S754_zero false
             | Zpos m'' =>
                 if e'' <=? emax - prec then S754_finite false m'' e''
                 else S754_infinity false
             | Zneg _ => S754_nan
             end) m e.
Proof.
  intros Hmin He Hm. unfold shr_fexp. cbn [Zdigits2 shr_record_of_loc]. rewrite fexp64_eq.
  pose proof (digits2_pos_bounds q) as [Hlo Hhi].
  destruct (Z.max (digits q + e' - 53) (-1074) - e') as [|p2|p2] eqn:Hn2; cbn [shr shr_m].
  - destruct (e' <=? emax - prec); [now apply finite_not_below|discriminate].
  - rewrite iter_shr_1_divides by (cbn; lia). cbn [shr_m].
    assert (Hp : 2 ^ Zpos p2 <= Zpos q).
    { etransitivity; [|exact Hlo]. apply Z.pow_le_mono_r; lia. }
    assert (Hq : 0 < Zpos q / 2 ^ Zpos p2).
    { apply Z.div_str_pos. split; [apply Z.pow_pos_nonneg; lia|exact Hp]. }
    destruct (Zpos q / 2 ^ Zpos p2) as [|m''|m'']; [lia| |lia].
    destruct (e' + Zpos p2 <=? emax - prec); [|discriminate].
    apply finite_not_below; lia.
  - destruct (e' <=? emax - prec); [now apply finite_not_below|discriminate].
Qed.

Lemma rounded_not_below (M m : positive) (ex e : Z) :
  canonical_mantissa prec emax m e = true ->
  ex <= e -> Zpos m * 2 ^ (e - ex) <= Zpos M ->
  not_below (binary_round prec emax false M ex) m e.
Proof.
  intros Hcan Hex Hval. unfold canonical_mantissa in Hcan.
  apply Z.eqb_eq in Hcan. rewrite fexp64_eq in Hcan.
  pose proof (digits2_pos_bounds M) as [HMl HMh].
  pose proof (digits2_pos_bounds m) as [Hml Hmh].
  assert (Hpow : 0 < 2 ^ (e - ex)) by (apply Z.pow_pos_nonneg; lia).
  assert (Hd : digits m + e <= digits M + ex).
  { assert (H : 2 ^ (digits m - 1 + (e - ex)) < 2 ^ digits M).
    { rewrite Z.pow_add_r by lia. eapply Z.le_lt_trans; [|exact HMh].
      etransitivity; [|exact Hval]. apply Z.mul_le_mono_nonneg_r; lia. }
    apply Z.pow_lt_mono_r_iff in H; lia. }
  unfold binary_round. rewrite fexp64_eq.
  set (f := Z.max (digits M + ex - 53) (-1074)).
  assert (Hf : e <= f) by lia.
  unfold shl_align.
  destruct (f - ex) as [|p|p] eqn:Hn; [| |lia].
  - unfold binary_round_aux, shr_fexp at 1. cbn [Zdigits2 shr_record_of_loc].
    rewrite fexp64_eq. fold f. rewrite Hn.
    cbn [shr shr_m loc_of_shr_record round_nearest_even].
    apply renormalised_not_below; [lia|lia|].
    intros _. replace (e - ex) with 0 in Hval by lia. cbn in Hval. lia.
  - unfold binary_round_aux, shr_fexp at 1. cbn [Zdigits2 shr_record_of_loc].
    rewrite fexp64_eq. fold f. rewrite Hn. cbn [shr].
    set (mrs' := SpecFloat.iter_pos shr_1 p _).
    assert (Hm' : shr_m mrs' = Zpos M / 2 ^ Zpos p).
    { subst mrs'. rewrite iter_shr_1_divides by (cbn; lia). reflexivity. }
    assert (Hp : 2 ^ Zpos p <= Zpos M).
    { destruct (Z.eq_dec f e) as [Hfe|Hfe].
      - replace (Zpos p) with (e - ex) by lia. nia.
      - etransitivity; [|exact HMl]. apply Z.pow_le_mono_r; lia. }
    assert (Hpos : 0 < shr_m mrs').
    { rewrite Hm'. apply Z.div_str_pos. split; [apply Z.pow_pos_nonneg; lia|exact Hp]. }
    pose proof (round_nearest_even_bounds (shr_m mrs') (loc_of_shr_record mrs')) as Hr.
    destruct (round_nearest_even (shr_m mrs') (loc_of_shr_record mrs')) as [|q|q];
      [lia| |lia].
    replace (ex + Zpos p) with f by lia.
    apply renormalised_not_below; [lia|lia|].
    intros Hfe. 
    assert (Zpos m <= shr_m mrs'); [|lia].
    rewrite Hm'. apply Z.div_le_lower_bound; [apply Z.pow_pos_nonneg; lia|].
    replace (Zpos p) with (e - ex) by lia. lia.
Qed.


Lemma Pos_iter_xO (d m : positive) : Zpos (Pos.iter xO m d) = Zpos m * 2 ^ Zpos d.
Proof.
  induction d as [|d IH] using Pos.peano_ind.
  - cbn. lia.
  - rewrite Pos.iter_succ, Pos2Z.inj_xO, IH, Pos2Z.inj_succ, Z.pow_succ_r by lia. ring.
Qed.

Lemma shl_align_value (m : positive) (e ez : Z) :
  ez <= e -> Zpos (fst (shl_align m e ez)) = Zpos m * 2 ^ (e - ez).
Proof.
  intros Hle. unfold shl_align. destruct (ez - e) as [|p|p] eqn:Hn; cbn [fst].
  - replace (e - ez) with 0 by lia. cbn. lia.
  - lia.
  - rewrite Pos_iter_xO. f_equal. f_equal. lia.
Qed.

Lemma add_one_not_below (m : positive) (e : Z) :
  bounded prec emax m e = true ->
  not_below (SF64add (S754_finite false m e) (S754_finite false 4503599627370496 (-52))) m e.
Proof.
  intros Hb. unfold bounded in Hb. apply andb_true_iff in Hb as [Hcan _].
  unfold SF64add, SFadd. cbn [cond_Zopp Z.add binary_normalize].
  apply rounded_not_below; [exact Hcan|lia|].
  rewrite Pos2Z.inj_add, shl_align_value by lia. lia.
Qed.

(** A positive double plus one is not below any double equal to it. *)
Lemma no_overflow_at_collapsed_height (scroll collapsed : float) :
  (collapsed <=? 0)%float = false -> (scroll =? collapsed)%float = true ->
  (collapsed + 1 <? scroll)%float = false.
Proof.
  rewrite FloatAxioms.leb_spec, FloatAxioms.eqb_spec, FloatAxioms.ltb_spec, FloatAxioms.add_spec.
  pose proof (Prim2SF_valid collapsed) as Hv.
  change (Prim2SF 0) with (S754_zero false).
  change (Prim2SF 1) with (S754_finite false 4503599627370496 (-52)).
  destruct (Prim2SF collapsed) as [sc|sc| |sc m e];
    destruct (Prim2SF scroll) as [ss|ss| |ss m' e'];
    try destruct sc; try destruct ss; try discriminate; try reflexivity.
  unfold SFeqb, SFleb, SFltb. cbn [SFcompare]. intros _ Heq.
  destruct (Z.compare_spec e' e) as [He| |]; try discriminate. subst e'.
  change (Pos.compare_cont Eq m' m) with (m' ?= m)%positive in Heq.
  destruct (m' ?= m)%positive eqn:Hm; try discriminate.
  apply Pos.compare_eq in Hm. subst m'.
  pose proof (add_one_not_below m e Hv) as Hnb.
  destruct (SFcompare _ _) as [[| |]|]; congruence.
Qed.

End Double_arithmetic.

(** ** Product description block *)
Section ProductDescriptionBlock_properties.
Import ProductDescriptionBlock.
Local Open Scope float_scope.

Lemma updateOverflowState_no_overflow (lay : Layout) (s : t) (c : Content) (g : Toggle) :
  content s = Some c -> toggle s = Some g ->
  (scrollHeight lay =? _collapsedHeight s) = true ->
  let s' := updateOverflowState lay s in
  hidden <$> toggle s' = Some true /\
  attributes s' !! "data-has-overflow" = Some "false" /\
  _expanded s' = false /\
  style_maxHeight <$> content s' = Some (Some none) /\
  _collapsedHeight s' = _collapsedHeight s.
Proof.
  intros Hc Hg Heq s'. subst s'. unfold updateOverflowState. rewrite Hc, Hg.
  destruct s as [ch ex lc ro co tg at_ fq tl rl]. cbn in Hc, Hg, Heq. subst co tg.
  cbn [_collapsedHeight].
  destruct (ch <=? 0) eqn:Hle.
  - cbn. repeat split. now simplify_map_eq.
  - rewrite (no_overflow_at_collapsed_height _ _ Hle Heq).
    cbn. repeat split. now simplify_map_eq.
Qed.

(** The collapsed height [#handleContentResize] runs the check
    against. *)
Lemma handleContentResize_height (lay : Layout) (s : t) (c : Content) (g : Toggle) :
  content s = Some c -> toggle s = Some g ->
  exists s1 : t,
    content s1 <> None /\ toggle s1 <> None /\
    _collapsedHeight s1 =
      (if negb (_expanded s)
          && ((0 <? calculateCollapsedHeight lay s)
              && (1 <? abs (calculateCollapsedHeight lay s - _collapsedHeight s)))
       then calculateCollapsedHeight lay s else _collapsedHeight s) /\
    handleContentResize lay s =
      (if _expanded (updateOverflowState lay s1)
       then set_maxHeight none (updateOverflowState lay s1)
       else updateOverflowState lay s1).
Proof.
  intros Hc Hg. unfold handleContentResize. rewrite Hc.
  destruct (negb (_expanded s)); cbn [andb].
  - destruct ((0 <? calculateCollapsedHeight lay s)
              && (1 <? abs (calculateCollapsedHeight lay s - _collapsedHeight s))).
    + eexists. split; [|split; [|split; [|reflexivity]]].
      * unfold set_maxHeight. cbn [content set_collapsedHeight]. rewrite Hc. discriminate.
      * unfold set_maxHeight. cbn [content set_collapsedHeight]. rewrite Hc.
        cbn [toggle set_content set_collapsedHeight]. congruence.
      * unfold set_maxHeight. cbn [content set_collapsedHeight]. rewrite Hc. reflexivity.
    + exists s. repeat split; congruence.
  - exists s. repeat split; congruence.
Qed.

(** C7, as amended.  A block holding both its content and its toggle.
    At initialisation and on a window resize the overflow check runs
    against the collapsed height just computed from the line height
    and the line clamp; on a content resize it runs against the stored
    height, which is replaced by the computed one beforehand only if
    the block is collapsed and the computed height is positive and
    more than one pixel away from the stored one.  Whenever the
    content's scroll height equals the height the check runs against,
    the check leaves the toggle hidden, data-has-overflow false, the
    expanded flag false and the content's max-height none. *)
Theorem overflow_check_at_collapsed_height
    (lay : Layout) (s : t) (c : Content) (g : Toggle) :
  content s = Some c -> toggle s = Some g ->
  let computed := calculateCollapsedHeight lay s in
  (_collapsedHeight (initialize lay s) = computed /\
   _collapsedHeight (onWindowResize lay s) = computed /\
   _collapsedHeight (handleContentResize lay s) =
     (if negb (_expanded s)
         && ((0 <? computed) && (1 <? abs (computed - _collapsedHeight s)))
      then computed else _collapsedHeight s)) /\
  ((scrollHeight lay =? _collapsedHeight (initialize lay s)) = true ->
   not_overflowing (initialize lay s)) /\
  ((scrollHeight lay =? _collapsedHeight (onWindowResize lay s)) = true ->
   not_overflowing (onWindowResize lay s)) /\
  ((scrollHeight lay =? _collapsedHeight (handleContentResize lay s)) = true ->
   not_overflowing (handleContentResize lay s)).
Proof.
  intros Hc Hg computed.
  assert (Hcheck : forall s1 : t,
            content s1 <> None -> toggle s1 <> None ->
            let s2 := updateOverflowState lay s1 in
            let s' := if _expanded s2 then set_maxHeight none s2 else s2 in
            _collapsedHeight s2 = _collapsedHeight s1 /\
            _collapsedHeight s' = _collapsedHeight s1 /\
            ((scrollHeight lay =? _collapsedHeight s1) = true ->
             not_overflowing s2 /\ not_overflowing s')).
  { intros s1 Hc1 Hg1. cbv zeta.
    destruct (content s1) as [c1|] eqn:Ec1; [|congruence].
    destruct (toggle s1) as [g1|] eqn:Eg1; [|congruence].
    assert (Hkeep : _collapsedHeight (updateOverflowState lay s1) = _collapsedHeight s1).
    { unfold updateOverflowState. rewrite Ec1, Eg1.
      destruct s1 as [ch ex lc ro co tg at_ fq tl rl]. cbn in Ec1, Eg1. subst co tg.
      cbn [_collapsedHeight _expanded].
      destruct (ch <=? 0); [reflexivity|].
      destruct (ch + 1 <? scrollHeight lay); cbn [negb]; [|reflexivity].
      cbn. destruct ex, (hidden g1); reflexivity. }
    split; [exact Hkeep|]. split.
    - destruct (_expanded (updateOverflowState lay s1)); [|exact Hkeep].
      unfold set_maxHeight. destruct (content (updateOverflowState lay s1)); exact Hkeep.
    - intros Heq.
      destruct (updateOverflowState_no_overflow lay s1 c1 g1 Ec1 Eg1 Heq)
        as (Hh & Ha & He & Hm & _).
      rewrite He. split; repeat split; assumption. }
  assert (Hset : forall h : float,
            content (set_collapsedHeight h s) <> None /\
            toggle (set_collapsedHeight h s) <> None).
  { intros h. cbn [content toggle set_collapsedHeight]. split; congruence. }
  destruct (Hcheck (set_collapsedHeight computed s)) as (Hi & Hw & Hcase);
    [apply Hset|apply Hset|].
  cbv zeta in Hi, Hw, Hcase. cbn [_collapsedHeight set_collapsedHeight] in Hi, Hw, Hcase.
  destruct (handleContentResize_height lay s c g Hc Hg) as (s1 & Hc1 & Hg1 & Hh1 & Hr).
  destruct (Hcheck s1 Hc1 Hg1) as (_ & Hr2 & Hcase1). cbv zeta in Hr2, Hcase1.
  rewrite <- Hr in Hr2, Hcase1. fold computed in Hh1.
  assert (Einit : initialize lay s =
                  updateOverflowState lay (set_collapsedHeight computed s)).
  { unfold initialize. now rewrite Hc, Hg. }
  assert (Eresize : onWindowResize lay s =
            (if _expanded (updateOverflowState lay (set_collapsedHeight computed s))
             then set_maxHeight none
                    (updateOverflowState lay (set_collapsedHeight computed s))
             else updateOverflowState lay (set_collapsedHeight computed s))).
  { unfold onWindowResize. now rewrite Hc. }
  rewrite Einit, Eresize. rewrite Hi, Hw, Hr2, Hh1.
  split; [repeat split|]. split; [|split].
  - intros Heq. apply Hcase, Heq.
  - intros Heq. apply Hcase, Heq.
  - intros Heq. apply Hcase1. rewrite Hh1. exact Heq.
Qed.

Lemma overflow_check_at_collapsed_height_witness :
  not_overflowing (initialize (layout_of_height 60) three_lines) /\
  not_overflowing (onWindowResize (layout_of_height 60) three_lines) /\
  not_overflowing (handleContentResize (layout_of_height 60) three_lines).
Proof.
  destruct (overflow_check_at_collapsed_height (layout_of_height 60) three_lines
              {| style_maxHeight := None; scrollTop := 0 |}
              {| hidden := false; aria_expanded := None |})
    as (_ & Hinit & Hresize & Hcontent).
  - reflexivity.
  - reflexivity.
  - split; [|split].
    + apply Hinit. vm_compute. reflexivity.
    + apply Hresize. vm_compute. reflexivity.
    + apply Hcontent. vm_compute. reflexivity.
Defined.

(** The check does tell taller content apart: it shows the toggle and
    clamps the content. *)
Example overflow_check_above_collapsed_height :
  let s := initialize (layout_of_height 200) three_lines in
  hidden <$> toggle s = Some false /\
  attributes s !! "data-has-overflow" = Some "true" /\
  style_maxHeight <$> content s = Some (Some (px 60)).
Proof. vm_compute. repeat split; reflexivity. Qed.

(** C7 as stated fails on a content resize of an expanded block: the
    collapsed height is not recomputed there.  The block was
    initialised at 20px per line (stored height 60) and expanded; its
    text is now set at 25px per line and the content is 75px tall,
    exactly three lines.  The check still runs against 60, finds
    overflow and keeps the toggle shown. *)
Lemma content_resize_of_expanded_block_overflows :
  let lay := layout_of_height 200 in
  let s := transitionend
             (animationFrame lay (toggleDescription lay (animationFrame lay three_lines))) in
  let lay' := {| scrollHeight := 75; offsetHeight := 75;
                 textElement := Some {| lineHeight := CssPx 25; fontSize := CssPx 16 |} |} in
  let s' := handleContentResize lay' s in
  _expanded s = true /\ _collapsedHeight s = 60 /\
  (scrollHeight lay' =? calculateCollapsedHeight lay' s) = true /\
  hidden <$> toggle s' = Some false /\
  attributes s' !! "data-has-overflow" = Some "true" /\
  _expanded s' = true /\
  ~ not_overflowing s'.
Proof.
  intros lay s lay' s'.
  assert (Hshown : hidden <$> toggle s' = Some false) by (vm_compute; reflexivity).
  repeat split; try (vm_compute; reflexivity).
  intros (Hhidden & _). rewrite Hshown in Hhidden. discriminate Hhidden.
Qed.

End ProductDescriptionBlock_properties.

(** * Further properties *)

(** ** Sticky add-to-cart bar: life cycle *)
Section StickyATC_lifecycle.
Import Browser StickyATC.

Variables (classes : gset string) (attrs : gmap string string) (w0 : Window).
Hypothesis idle : rafPending w0 = [].

Lemma failed_attempts_state (doc : Document) (docs : list Document) :
  target_missing (configured_selector attrs) doc ->
  Forall (target_missing (configured_selector attrs)) docs ->
  length docs <= 9 ->
  animationFrames docs (connectedCallback doc (w0, constructor classes attrs)) =
    retrying classes attrs w0 (length docs).
Proof.
  intros Hdoc Hdocs Hlen.
  rewrite (connect_without_target classes attrs w0 idle _ Hdoc).
  rewrite (frames_without_target classes attrs w0 docs 0 Hdocs) by lia.
  destruct (decide (0 + length docs <= 9)) as [_|Hbad]; [reflexivity|cbn in Hbad; lia].
Qed.

Lemma disconnect_while_retrying (k : nat) :
  disconnectedCallback (retrying classes attrs w0 k) =
    ({| rafPending := []; rafNext := S (rafNext w0 + k);
        console := console w0; ioCount := ioCount w0 |},
     {| _targetSelector := configured_selector attrs; _targetNode := None;
        _observer := None; _retryFrame := None; _retryCount := S k;
        classList := classes; attributes := attrs |}).
Proof.
  unfold disconnectedCallback, retrying, cancelAnimationFrame. cbn.
  rewrite decide_False by (intros Hne; apply Hne; reflexivity). reflexivity.
Qed.

Lemma reconnect_while_retrying (doc : Document) (k : nat) :
  target_missing (configured_selector attrs) doc -> k < 9 ->
  connectedCallback doc (disconnectedCallback (retrying classes attrs w0 k)) =
    retrying classes attrs w0 (S k).
Proof.
  intros Hdoc Hk. rewrite disconnect_while_retrying.
  unfold target_missing, connectedCallback, _attachObserver, retrying in *.
  cbn. fold (configured_selector attrs). rewrite Hdoc. cbn.
  destruct (Nat.leb_spec k 8) as [_|Hbad]; [|lia]. cbn.
  replace (rafNext w0 + S k) with (S (rafNext w0 + k)) by lia.
  replace (k + 1) with (S k) by lia. reflexivity.
Qed.

Lemma reconnect_after_ten_failures (doc : Document) :
  target_missing (configured_selector attrs) doc ->
  connectedCallback doc (disconnectedCallback (retrying classes attrs w0 9)) =
    (fst (gave_up classes attrs w0),
     set_retryFrame None (snd (gave_up classes attrs w0))).
Proof.
  intros Hdoc. rewrite disconnect_while_retrying.
  unfold target_missing, connectedCallback, _attachObserver, gave_up in *.
  cbn. fold (configured_selector attrs). rewrite Hdoc. cbn.
  replace (S (rafNext w0 + 9)) with (rafNext w0 + 10) by lia. reflexivity.
Qed.

(** X1.  Taking the bar out of the document while it is still retrying
    cancels the callback it had scheduled and keeps the number of
    failed attempts: from then on no frame runs an attempt, whatever
    the page comes to contain. *)
Theorem disconnect_stops_retrying (doc : Document) (docs later : list Document) :
  target_missing (configured_selector attrs) doc ->
  Forall (target_missing (configured_selector attrs)) docs ->
  length docs <= 9 ->
  let ws := disconnectedCallback
              (animationFrames docs
                 (connectedCallback doc (w0, constructor classes attrs))) in
  rafPending (fst ws) = [] /\
  _retryFrame (snd ws) = None /\
  _retryCount (snd ws) = S (length docs) /\
  animationFrames later ws = ws.
Proof.
  intros Hdoc Hdocs Hlen ws. subst ws.
  rewrite (failed_attempts_state _ _ Hdoc Hdocs Hlen), disconnect_while_retrying.
  repeat split. now apply animationFrames_nothing_pending.
Qed.

(** X2.  Failed attempts are counted across disconnects.  A bar that failed
    while connected, was disconnected and is connected again on a page
    that still lacks its target goes on from the count it had: it is
    still retrying while at most ten attempts have failed in all, and
    gives up (warning once, becoming visible) at the eleventh. *)
Theorem failed_attempts_accumulate
    (doc doc2 : Document) (docs docs2 : list Document) :
  target_missing (configured_selector attrs) doc ->
  Forall (target_missing (configured_selector attrs)) docs ->
  target_missing (configured_selector attrs) doc2 ->
  Forall (target_missing (configured_selector attrs)) docs2 ->
  length docs <= 9 ->
  let ws := animationFrames docs2
              (connectedCallback doc2
                 (disconnectedCallback
                    (animationFrames docs
                       (connectedCallback doc (w0, constructor classes attrs))))) in
  (length docs + length docs2 <= 8 ->
     length (rafPending (fst ws)) = 1 /\
     _retryCount (snd ws) = length docs + length docs2 + 2 /\
     classList (snd ws) = classes /\
     console (fst ws) = console w0) /\
  (9 <= length docs + length docs2 ->
     rafPending (fst ws) = [] /\
     ("is-visible" ∈ classList (snd ws)) /\
     console (fst ws) =
       (console w0 ++ [Warn (not_found_message (configured_selector attrs))])%list).
Proof.
  intros Hdoc Hdocs Hdoc2 Hdocs2 Hlen ws. subst ws.
  rewrite (failed_attempts_state _ _ Hdoc Hdocs Hlen).
  destruct (decide (length docs = 9)) as [Hnine|Hless].
  - rewrite Hnine, (reconnect_after_ten_failures _ Hdoc2).
    rewrite animationFrames_nothing_pending by reflexivity.
    split; intros Hsum; [lia|]. cbn. repeat split. set_solver.
  - rewrite (reconnect_while_retrying _ _ Hdoc2) by lia.
    rewrite (frames_without_target classes attrs w0 docs2 (S (length docs)) Hdocs2) by lia.
    split; intros Hsum.
    + destruct (decide (S (length docs) + length docs2 <= 9)) as [_|Hbad]; [|lia].
      cbn. repeat split; lia.
    + destruct (decide (S (length docs) + length docs2 <= 9)) as [Hbad|_]; [lia|].
      cbn. repeat split. set_solver.
Qed.

(** X3.  A target that shows up late is still picked up.  After the failed
    connect and up to nine failed frames, the frame in which the
    selector matches attaches a new observer to the match with the six
    thresholds, starts the count again from zero and leaves nothing
    scheduled; nothing was logged and the class list is untouched. *)
Theorem late_target_is_observed
    (doc found : Document) (docs : list Document) (target : Node) :
  target_missing (configured_selector attrs) doc ->
  Forall (target_missing (configured_selector attrs)) docs ->
  length docs <= 9 ->
  found (configured_selector attrs) = Some target ->
  let ws := animationFrames (docs ++ [found])
              (connectedCallback doc (w0, constructor classes attrs)) in
  rafPending (fst ws) = [] /\
  console (fst ws) = console w0 /\
  classList (snd ws) = classes /\
  _retryCount (snd ws) = 0 /\
  _observer (snd ws) =
    Some {| io_id := ioCount w0; io_rootMargin := "0px";
            io_threshold := [0; 0.1; 0.25; 0.5; 0.75; 1]%Q;
            io_observing := [target] |}.
Proof.
  intros Hdoc Hdocs Hlen Hfound ws. subst ws.
  unfold animationFrames. rewrite fold_left_app.
  fold (animationFrames docs (connectedCallback doc (w0, constructor classes attrs))).
  rewrite (failed_attempts_state _ _ Hdoc Hdocs Hlen).
  unfold retrying, animationFrame, _attachObserver. cbn. rewrite Hfound. cbn.
  repeat split.
Qed.

End StickyATC_lifecycle.

Lemma disconnect_stops_retrying_witness :
  let ws := StickyATC.disconnectedCallback
              (StickyATC.animationFrames [StickyATC.no_target; StickyATC.no_target]
                 (StickyATC.connectedCallback StickyATC.no_target
                    (Browser.fresh_window, StickyATC.constructor ∅ ∅))) in
  Browser.rafPending (fst ws) = [] /\
  StickyATC._retryFrame (snd ws) = None /\
  StickyATC._retryCount (snd ws) = 3 /\
  StickyATC.animationFrames [λ _, Some 5] ws = ws.
Proof.
  apply (disconnect_stops_retrying ∅ ∅ Browser.fresh_window eq_refl StickyATC.no_target
           [StickyATC.no_target; StickyATC.no_target] [λ _, Some 5]).
  - reflexivity.
  - repeat constructor.
  - cbn. lia.
Defined.

Lemma failed_attempts_accumulate_witness :
  let ws := StickyATC.animationFrames (repeat StickyATC.no_target 4)
              (StickyATC.connectedCallback StickyATC.no_target
                 (StickyATC.disconnectedCallback
                    (StickyATC.animationFrames (repeat StickyATC.no_target 5)
                       (StickyATC.connectedCallback StickyATC.no_target
                          (Browser.fresh_window, StickyATC.constructor ∅ ∅))))) in
  Browser.rafPending (fst ws) = [] /\
  ("is-visible" ∈ StickyATC.classList (snd ws)) /\
  Browser.console (fst ws) =
    [Browser.Warn (StickyATC.not_found_message (StickyATC.configured_selector ∅))].
Proof.
  apply (failed_attempts_accumulate ∅ ∅ Browser.fresh_window eq_refl
           StickyATC.no_target StickyATC.no_target
           (repeat StickyATC.no_target 5) (repeat StickyATC.no_target 4)).
  - reflexivity.
  - repeat constructor.
  - reflexivity.
  - repeat constructor.
  - cbn. lia.
  - cbn. lia.
Defined.

Lemma late_target_is_observed_witness :
  let found : Browser.Document := λ _, Some 5 in
  let ws := StickyATC.animationFrames (repeat StickyATC.no_target 9 ++ [found])
              (StickyATC.connectedCallback StickyATC.no_target
                 (Browser.fresh_window, StickyATC.constructor ∅ ∅)) in
  StickyATC._retryCount (snd ws) = 0 /\
  Browser.io_observing <$> StickyATC._observer (snd ws) = Some [5].
Proof.
  intros found.
  destruct (late_target_is_observed ∅ ∅ Browser.fresh_window eq_refl
              StickyATC.no_target found (repeat StickyATC.no_target 9) 5)
    as (_ & _ & _ & Hcount & Hobserver).
  - reflexivity.
  - repeat constructor.
  - cbn. lia.
  - reflexivity.
  - split; [exact Hcount|]. cbn zeta in Hobserver. rewrite Hobserver. reflexivity.
Defined.

(** ** Anchor-tracking sticky bar: observers, visibility and rendering *)
Section StickyAtcElement_more.
Import Browser StickyAtcElement.

Lemma paired_by_attributes (s s' : t) :
  attributes s' = attributes s -> shown s \/ concealed s -> shown s' \/ concealed s'.
Proof. unfold shown, concealed. intros ->. auto. Qed.

Lemma setVisibility_keeps_pairing (b : bool) (s : t) :
  shown s \/ concealed s -> shown (setVisibility b s) \/ concealed (setVisibility b s).
Proof.
  intros Hs. pose proof (setVisibility_from_consistent b s Hs) as H.
  destruct b; auto.
Qed.

Lemma setAttribute_keeps_pairing (name val : string) (s : t) :
  name <> "aria-hidden" -> name <> "data-visible" ->
  shown s \/ concealed s ->
  shown (setAttribute name val s) \/ concealed (setAttribute name val s).
Proof.
  unfold shown, concealed, setAttribute. cbn. intros H1 H2.
  rewrite !lookup_insert_ne by assumption. auto.
Qed.

Lemma createIntersectionObserver_keeps_pairing (a : Node * Q) (w : Window) (s : t) :
  shown s \/ concealed s ->
  shown (snd (createIntersectionObserver a (w, s))) \/
  concealed (snd (createIntersectionObserver a (w, s))).
Proof.
  intros Hs. unfold createIntersectionObserver.
  destruct (intersectionObserver s); [exact Hs|]. cbn [snd].
  apply setVisibility_keeps_pairing.
  eapply paired_by_attributes; [|exact Hs]. reflexivity.
Qed.

Lemma toggleVariantVisibility_attributes (b : bool) (s : t) :
  attributes (toggleVariantVisibility b s) = attributes s.
Proof.
  unfold toggleVariantVisibility.
  destruct (variantTarget s) as [v|]; [|reflexivity].
  destruct b; [reflexivity|]. destruct (v_hidden v); reflexivity.
Qed.

Lemma set_textContent_attributes (txt : string) (s : t) :
  attributes (set_textContent txt s) = attributes s.
Proof. unfold set_textContent. destruct (variantTarget s); reflexivity. Qed.

Lemma updateVariantTitle_attributes (title : string) (s : t) :
  attributes (updateVariantTitle title s) = attributes s.
Proof.
  unfold updateVariantTitle.
  destruct (variantTarget s); [|reflexivity].
  destruct (negb _); rewrite set_textContent_attributes;
    apply toggleVariantVisibility_attributes.
Qed.

Lemma updateMedia_attributes (pg : Page) (r : VariantResource) (s : t) :
  attributes (updateMedia pg r s) = attributes s.
Proof.
  unfold updateMedia.
  destruct (mediaLink s); [|reflexivity].
  destruct (match match featured_media r with
                  | Some fm => preview_image fm
                  | None => None
                  end with
            | Some p => src p
            | None => None
            end) as [psrc|]; [|reflexivity].
  destruct (String.eqb psrc ""); reflexivity.
Qed.

Lemma handleVariantUpdate_keeps_pairing
    (js : Js.Engine) (pg : Page) (event : VariantUpdateEvent) (w : Window) (s : t) :
  shown s \/ concealed s ->
  shown (snd (handleVariantUpdate js pg event (w, s))) \/
  concealed (snd (handleVariantUpdate js pg event (w, s))).
Proof.
  intros Hs. unfold handleVariantUpdate.
  destruct (detail event) as [det|]; [|exact Hs].
  destruct (data det) as [d|]; [|exact Hs].
  destruct (event_productId js d) as [pid|]; [|exact Hs].
  destruct (String.eqb pid "" || negb (String.eqb pid (productId s))); [exact Hs|].
  set (s1 := setAttribute "data-product-id" pid (set_productId pid s)).
  assert (H1 : shown s1 \/ concealed s1).
  { subst s1. apply setAttribute_keeps_pairing; [discriminate|discriminate|].
    eapply paired_by_attributes; [|exact Hs]. reflexivity. }
  clearbody s1.
  set (targetUrl := Js.sor _ _).
  set (s2 := if Js.struthy targetUrl then _ else s1).
  assert (H2 : shown s2 \/ concealed s2).
  { subst s2. destruct (Js.struthy targetUrl); [|exact H1].
    apply setAttribute_keeps_pairing; [discriminate|discriminate|].
    eapply paired_by_attributes; [|exact H1]. reflexivity. }
  clearbody s2. clear H1.
  set (r := match getAnchor pg s2 with
            | Some a => if bool_decide (Some a.1 ≠ anchorElement s2)
                        then resetIntersectionObserver a (w, s2) else (w, s2)
            | None => (w, s2)
            end).
  assert (H3 : shown (snd r) \/ concealed (snd r)).
  { subst r. destruct (getAnchor pg s2) as [a|]; [|exact H2].
    case_bool_decide; [|exact H2].
    unfold resetIntersectionObserver. apply createIntersectionObserver_keeps_pairing.
    eapply paired_by_attributes; [|exact H2]. reflexivity. }
  clearbody r. destruct r as [w3 s3]. cbn [snd] in *.
  eapply paired_by_attributes; [|exact H3].
  rewrite updateMedia_attributes. apply updateVariantTitle_attributes.
Qed.

(** X4.  The two visibility attributes stay paired.  Once aria-hidden and
    data-visible agree (false with true, or true with false), every
    handler of the element leaves them agreeing: an intersection
    batch, a variant update, and the mutation callback that arms the
    observer. *)
Theorem visibility_attributes_stay_paired
    (js : Js.Engine) (pg : Page) (entries : list IntersectionObserverEntry)
    (event : VariantUpdateEvent) (w : Window) (s : t) :
  shown s \/ concealed s ->
  (shown (handleAnchorIntersect entries s) \/
   concealed (handleAnchorIntersect entries s)) /\
  (shown (snd (handleVariantUpdate js pg event (w, s))) \/
   concealed (snd (handleVariantUpdate js pg event (w, s)))) /\
  (shown (snd (anchorMutation pg (w, s))) \/
   concealed (snd (anchorMutation pg (w, s)))).
Proof.
  intros Hs. split; [|split].
  - destruct entries as [|e rest]; [exact Hs|].
    now apply setVisibility_keeps_pairing.
  - now apply handleVariantUpdate_keeps_pairing.
  - unfold anchorMutation. cbn [snd].
    destruct (getAnchor pg s) as [a|]; [|exact Hs].
    pose proof (createIntersectionObserver_keeps_pairing a w s Hs) as Hc.
    destruct (createIntersectionObserver a (w, s)) as [w1 s1]. exact Hc.
Qed.

Lemma toggleVariantVisibility_observers (b : bool) (s : t) :
  intersectionObserver (toggleVariantVisibility b s) = intersectionObserver s /\
  anchorMutationObserver (toggleVariantVisibility b s) = anchorMutationObserver s /\
  anchorElement (toggleVariantVisibility b s) = anchorElement s /\
  listening (toggleVariantVisibility b s) = listening s /\
  section (toggleVariantVisibility b s) = section s.
Proof.
  unfold toggleVariantVisibility.
  destruct (variantTarget s) as [v|]; [|repeat split].
  destruct b; [repeat split|]. destruct (v_hidden v); repeat split.
Qed.

Lemma updateVariantTitle_observers (title : string) (s : t) :
  intersectionObserver (updateVariantTitle title s) = intersectionObserver s /\
  anchorMutationObserver (updateVariantTitle title s) = anchorMutationObserver s /\
  anchorElement (updateVariantTitle title s) = anchorElement s /\
  listening (updateVariantTitle title s) = listening s /\
  section (updateVariantTitle title s) = section s.
Proof.
  unfold updateVariantTitle.
  destruct (variantTarget s) as [v0|]; [|repeat split].
  set (b := negb (String.eqb title "") && negb (String.eqb title "Default Title")).
  destruct (toggleVariantVisibility_observers b s) as (Hi & Hm & Ha & Hl & Hs).
  unfold set_textContent.
  destruct (negb b); destruct (variantTarget (toggleVariantVisibility b s));
    cbn; repeat split; assumption.
Qed.

Lemma setVisibility_observers (b : bool) (s : t) :
  intersectionObserver (setVisibility b s) = intersectionObserver s /\
  anchorMutationObserver (setVisibility b s) = anchorMutationObserver s /\
  anchorElement (setVisibility b s) = anchorElement s /\
  listening (setVisibility b s) = listening s /\
  section (setVisibility b s) = section s.
Proof. unfold setVisibility. destruct (Bool.eqb _ _); repeat split. Qed.

Lemma observeAnchor_effect (pg : Page) (w : Window) (s : t) :
  intersectionObserver s = None ->
  let r := observeAnchor pg (w, s) in
  listening (snd r) = listening s /\
  section (snd r) = section s /\
  match section s with
  | None =>
      r = (w, s)
  | Some sec =>
      match anchor_in_section pg with
      | Some a =>
          io_observing <$> intersectionObserver (snd r) = Some [fst a] /\
          anchorElement (snd r) = Some (fst a) /\
          anchorMutationObserver (snd r) = anchorMutationObserver s /\
          ioCount (fst r) = S (ioCount w)
      | None =>
          intersectionObserver (snd r) = None /\
          anchorMutationObserver (snd r) = Some {| mo_observing := Some sec |} /\
          anchorElement (snd r) = anchorElement s /\
          fst r = w
      end
  end.
Proof.
  intros Hio r. subst r. unfold observeAnchor, getAnchor. cbn [fst snd].
  destruct (section s) as [sec|] eqn:Hsec; [|repeat split; assumption].
  destruct (anchor_in_section pg) as [a|]; [|repeat split; assumption].
  unfold createIntersectionObserver. rewrite Hio. cbn [newIntersectionObserver fst snd].
  match goal with
  | |- context [setVisibility ?b ?x] =>
      destruct (setVisibility_observers b x) as (-> & -> & -> & -> & ->)
  end.
  cbn. rewrite decide_False by set_solver. repeat split. exact Hsec.
Qed.

(** The state [connectedCallback] leaves, field by field. *)
Lemma connectedCallback_effect (m : Markup) (pg : Page) (w : Window) (s : t) :
  let ws := connectedCallback m pg (w, s) in
  section (snd ws) = closest_section m /\
  listening (snd ws) = match closest_section m with
                       | Some _ => true
                       | None => listening s
                       end /\
  match closest_section m with
  | None =>
      intersectionObserver (snd ws) = None /\
      anchorMutationObserver (snd ws) = None /\
      fst ws = w /\
      attributes (snd ws) = attributes s
  | Some sec =>
      match anchor_in_section pg with
      | Some a =>
          io_observing <$> intersectionObserver (snd ws) = Some [fst a] /\
          anchorElement (snd ws) = Some (fst a) /\
          anchorMutationObserver (snd ws) = None /\
          ioCount (fst ws) = S (ioCount w)
      | None =>
          intersectionObserver (snd ws) = None /\
          anchorMutationObserver (snd ws) = Some {| mo_observing := Some sec |} /\
          fst ws = w
      end
  end.
Proof.
  intros ws. subst ws. unfold connectedCallback. cbv zeta.
  set (s0 := set_anchorMutationObserver None _).
  set (s1 := match section s0 with Some _ => set_listening true s0 | None => s0 end).
  assert (H1 : section s1 = closest_section m /\ intersectionObserver s1 = None /\
               anchorMutationObserver s1 = None /\
               listening s1 = match closest_section m with
                              | Some _ => true
                              | None => listening s
                              end /\
               attributes s1 = attributes s).
  { subst s1 s0. cbn [section set_anchorMutationObserver set_intersectionObserver
                      set_anchorElement set_mediaImage set_mediaLink set_variantTarget
                      set_titleLink set_productId set_section].
    destruct (closest_section m); repeat split. }
  clearbody s1. clear s0. destruct H1 as (Hsec & Hio & Hmo & Hli & Hat).
  pose proof (observeAnchor_effect pg w s1 Hio) as Hobs. cbv zeta in Hobs.
  destruct (observeAnchor pg (w, s1)) as [w2 s2]. cbn [fst snd] in Hobs.
  destruct Hobs as (Hli2 & Hsec2 & Hobs). rewrite Hsec in Hobs.
  assert (Hend : forall r : Window * t,
            r = (if Js.struthy (attributes s2 !! "data-initial-variant-title")
                 then (w2, updateVariantTitle
                             (default "" (attributes s2 !! "data-initial-variant-title")) s2)
                 else (w2, toggleVariantVisibility false s2)) ->
            fst r = w2 /\
            intersectionObserver (snd r) = intersectionObserver s2 /\
            anchorMutationObserver (snd r) = anchorMutationObserver s2 /\
            anchorElement (snd r) = anchorElement s2 /\
            listening (snd r) = listening s2 /\
            section (snd r) = section s2 /\
            attributes (snd r) = attributes s2).
  { intros r ->.
    destruct (Js.struthy (attributes s2 !! "data-initial-variant-title")); cbn [fst snd].
    - destruct (updateVariantTitle_observers
                  (default "" (attributes s2 !! "data-initial-variant-title")) s2)
        as (-> & -> & -> & -> & ->).
      rewrite updateVariantTitle_attributes. repeat split.
    - destruct (toggleVariantVisibility_observers false s2) as (-> & -> & -> & -> & ->).
      rewrite toggleVariantVisibility_attributes. repeat split. }
  destruct (Hend _ eq_refl) as (Ew & Eio & Emo & Ean & Eli & Ese & Eat).
  rewrite Ew, Eio, Emo, Ean, Eli, Ese, Eat, Hli2, Hli, Hsec2, Hsec.
  split; [reflexivity|]. split; [reflexivity|].
  destruct (closest_section m) as [sec|].
  - destruct (anchor_in_section pg) as [a|].
    + destruct Hobs as (H1 & H2 & H3 & H4). rewrite H3. auto.
    + destruct Hobs as (H1 & H2 & _ & H4). auto.
  - injection Hobs as -> ->. auto.
Qed.

(** X5.  What connecting arms.  Outside any section the element observes
    nothing, registers nothing and writes no attribute.  Inside a
    section it listens for variant updates and holds exactly one
    observer: an intersection observer on the anchor when the section
    has one, otherwise a mutation observer on the section. *)
Theorem connect_arms_one_observer (m : Markup) (pg : Page) (w : Window) (s : t) :
  let ws := connectedCallback m pg (w, s) in
  match closest_section m with
  | None =>
      intersectionObserver (snd ws) = None /\
      anchorMutationObserver (snd ws) = None /\
      listening (snd ws) = listening s /\
      ioCount (fst ws) = ioCount w /\
      attributes (snd ws) = attributes s
  | Some sec =>
      listening (snd ws) = true /\
      match anchor_in_section pg with
      | Some a =>
          io_observing <$> intersectionObserver (snd ws) = Some [fst a] /\
          anchorElement (snd ws) = Some (fst a) /\
          anchorMutationObserver (snd ws) = None
      | None =>
          intersectionObserver (snd ws) = None /\
          anchorMutationObserver (snd ws) = Some {| mo_observing := Some sec |}
      end
  end.
Proof.
  intros ws. pose proof (connectedCallback_effect m pg w s) as H.
  cbv zeta in H. fold ws in H. destruct H as (_ & Hli & H).
  destruct (closest_section m) as [sec|].
  - split; [exact Hli|]. destruct (anchor_in_section pg) as [a|].
    + destruct H as (H1 & H2 & H3 & _). auto.
    + destruct H as (H1 & H2 & _). auto.
  - destruct H as (H1 & H2 & H3 & H4). rewrite H3. auto.
Qed.

(** X6.  The anchor that arrives late.  An element connected in a section
    that has no anchor yet waits on its mutation observer: a mutation
    that brings no anchor changes nothing, and the first one that does
    constructs the intersection observer on that anchor and drops the
    mutation observer. *)
Theorem anchor_found_by_mutation
    (m : Markup) (pg pg' : Page) (sec : Node) (a : Node * Q) (w : Window) (s : t) :
  closest_section m = Some sec ->
  anchor_in_section pg = None ->
  anchor_in_section pg' = Some a ->
  let waiting := connectedCallback m pg (w, s) in
  let ws := anchorMutation pg' waiting in
  anchorMutation pg waiting = waiting /\
  io_observing <$> intersectionObserver (snd ws) = Some [fst a] /\
  anchorElement (snd ws) = Some (fst a) /\
  anchorMutationObserver (snd ws) = None /\
  ioCount (fst ws) = S (ioCount w).
Proof.
  intros Hsec Hnone Hsome waiting ws.
  pose proof (connectedCallback_effect m pg w s) as Hc. cbv zeta in Hc.
  fold waiting in Hc. rewrite Hsec, Hnone in Hc.
  destruct Hc as (Hsection & _ & Hio & _ & Hw).
  subst ws. clearbody waiting. destruct waiting as [w1 s1]. cbn [fst snd] in *.
  subst w1. unfold anchorMutation, getAnchor. cbn [snd]. rewrite Hsection, Hnone, Hsome.
  split; [reflexivity|].
  unfold createIntersectionObserver. rewrite Hio. cbn [newIntersectionObserver fst snd].
  cbn [intersectionObserver anchorElement anchorMutationObserver
       set_anchorMutationObserver].
  match goal with
  | |- context [setVisibility ?b ?x] =>
      destruct (setVisibility_observers b x) as (-> & _ & -> & _)
  end.
  cbn. rewrite decide_False by set_solver. repeat split.
Qed.

(** The variant line.  With a variant node present, a title that is
    empty or the placeholder Default Title hides the node and clears
    its text; any other title is written into it and shown. *)
Theorem updateVariantTitle_hides_default_title (title : string) (s : t) (v : VariantEl) :
  variantTarget s = Some v ->
  (title = "" \/ title = "Default Title" ->
     variantTarget (updateVariantTitle title s) =
       Some {| textContent := ""; v_hidden := true |}) /\
  (title <> "" -> title <> "Default Title" ->
     variantTarget (updateVariantTitle title s) =
       Some {| textContent := title; v_hidden := false |}).
Proof.
  intros Hv. unfold updateVariantTitle, toggleVariantVisibility, set_textContent.
  rewrite Hv. split.
  - intros [-> | ->]; cbn; destruct (v_hidden v) eqn:Hh; cbn; rewrite ?Hv; cbn;
      rewrite ?Hh; reflexivity.
  - intros H1 H2.
    apply String.eqb_neq in H1, H2. rewrite H1, H2. cbn. reflexivity.
Qed.

Lemma setVisibility_rendering (b : bool) (s : t) :
  productId (setVisibility b s) = productId s /\
  titleLink (setVisibility b s) = titleLink s /\
  mediaLink (setVisibility b s) = mediaLink s /\
  (forall name, name <> "aria-hidden" -> name <> "data-visible" ->
     attributes (setVisibility b s) !! name = attributes s !! name).
Proof.
  unfold setVisibility, setAttribute. destruct (Bool.eqb _ _); cbn; repeat split.
  intros name H1 H2. now rewrite !lookup_insert_ne by congruence.
Qed.

Lemma createIntersectionObserver_rendering (a : Node * Q) (w : Window) (s : t) :
  let s' := snd (createIntersectionObserver a (w, s)) in
  productId s' = productId s /\
  titleLink s' = titleLink s /\
  mediaLink s' = mediaLink s /\
  (forall name, name <> "aria-hidden" -> name <> "data-visible" ->
     attributes s' !! name = attributes s !! name).
Proof.
  unfold createIntersectionObserver.
  destruct (intersectionObserver s); [repeat split|]. cbn [snd newIntersectionObserver].
  match goal with
  | |- context [setVisibility ?b ?x] =>
      destruct (setVisibility_rendering b x) as (-> & -> & -> & Hat)
  end.
  repeat split. intros name H1 H2. now rewrite Hat.
Qed.

Lemma updateVariantTitle_rendering (title : string) (s : t) :
  productId (updateVariantTitle title s) = productId s /\
  titleLink (updateVariantTitle title s) = titleLink s /\
  mediaLink (updateVariantTitle title s) = mediaLink s /\
  mediaImage (updateVariantTitle title s) = mediaImage s.
Proof.
  unfold updateVariantTitle, set_textContent, toggleVariantVisibility.
  destruct (variantTarget s) as [v|] eqn:Hv; [|repeat split].
  destruct (negb (String.eqb title "") && negb (String.eqb title "Default Title")); cbn.
  - repeat split.
  - destruct (v_hidden v); cbn; rewrite ?Hv; repeat split.
Qed.

Lemma updateMedia_rendering (pg : Page) (r : VariantResource) (s : t) :
  productId (updateMedia pg r s) = productId s /\
  titleLink (updateMedia pg r s) = titleLink s /\
  href <$> mediaLink (updateMedia pg r s) = href <$> mediaLink s /\
  variantTarget (updateMedia pg r s) = variantTarget s.
Proof.
  unfold updateMedia.
  destruct (mediaLink s) as [link|] eqn:Hl; [|rewrite Hl; repeat split].
  destruct (match match featured_media r with
                  | Some fm => preview_image fm
                  | None => None
                  end with
            | Some p => src p
            | None => None
            end) as [psrc|]; [|repeat split].
  destruct (String.eqb psrc ""); repeat split.
Qed.

(** X7.  A variant update for the element's own product that comes with a
    target URL (the variant's, else the new product's, else the one
    already in data-product-url) keeps the product id, writes it to
    data-product-id, writes the URL to data-product-url, and points
    the title link and the media link, where present, at that URL. *)
Theorem variant_update_points_both_links
    (js : Js.Engine) (pg : Page) (det : Detail) (d : EventData) (w : Window) (s : t)
    (u : string) :
  data det = Some d ->
  event_productId js d = Some (productId s) ->
  productId s <> "" ->
  Js.sor (url (default empty_resource (resource det)))
    (Js.sor (match newProduct d with Some np => np_url np | None => None end)
            (attributes s !! "data-product-url")) = Some u ->
  u <> "" ->
  let s' := snd (handleVariantUpdate js pg {| detail := Some det |} (w, s)) in
  productId s' = productId s /\
  attributes s' !! "data-product-id" = Some (productId s) /\
  attributes s' !! "data-product-url" = Some u /\
  href <$> titleLink s' = (λ _, Some u) <$> titleLink s /\
  href <$> mediaLink s' = (λ _, Some u) <$> mediaLink s.
Proof.
  intros Hd Hid Hne Hurl Hu s'. subst s'.
  unfold handleVariantUpdate. cbn [detail]. rewrite Hd, Hid.
  apply String.eqb_neq in Hne. rewrite Hne, String.eqb_refl. cbn [orb negb].
  set (s1 := setAttribute "data-product-id" (productId s) (set_productId (productId s) s)).
  assert (Hat1 : attributes s1 !! "data-product-url" = attributes s !! "data-product-url").
  { subst s1. unfold setAttribute. cbn. now rewrite lookup_insert_ne. }
  rewrite Hat1, Hurl. change (default "" (Some u)) with u.
  assert (Htruthy : Js.struthy (Some u) = true).
  { cbn. apply String.eqb_neq in Hu. now rewrite Hu. }
  rewrite Htruthy.
  set (s2 := setAttribute "data-product-url" u _).
  assert (H2 : productId s2 = productId s /\
               attributes s2 !! "data-product-id" = Some (productId s) /\
               attributes s2 !! "data-product-url" = Some u /\
               href <$> titleLink s2 = (λ _, Some u) <$> titleLink s /\
               href <$> mediaLink s2 = (λ _, Some u) <$> mediaLink s).
  { subst s2 s1. unfold setAttribute, set_href. cbn.
    rewrite lookup_insert_ne by discriminate.
    rewrite !lookup_insert_eq.
    destruct (titleLink s), (mediaLink s); repeat split. }
  clearbody s2. clear s1 Hat1. destruct H2 as (Hp & Hi & Hl & Ht & Hm).
  set (r := match getAnchor pg s2 with
            | Some a => if bool_decide (Some a.1 ≠ anchorElement s2)
                        then resetIntersectionObserver a (w, s2) else (w, s2)
            | None => (w, s2)
            end).
  assert (H3 : productId (snd r) = productId s2 /\ titleLink (snd r) = titleLink s2 /\
               mediaLink (snd r) = mediaLink s2 /\
               attributes (snd r) !! "data-product-id" = attributes s2 !! "data-product-id" /\
               attributes (snd r) !! "data-product-url" =
                 attributes s2 !! "data-product-url").
  { subst r. destruct (getAnchor pg s2) as [a|]; [|repeat split].
    case_bool_decide; [|repeat split].
    unfold resetIntersectionObserver.
    destruct (createIntersectionObserver_rendering a w (set_intersectionObserver None s2))
      as (E1 & E2 & E3 & E4).
    rewrite E1, E2, E3, !E4 by discriminate. repeat split. }
  clearbody r. destruct r as [w3 s3]. cbn [snd] in *.
  destruct H3 as (E1 & E2 & E3 & E4 & E5).
  set (title := default "" (title (default empty_resource (resource det)))).
  destruct (updateMedia_rendering pg (default empty_resource (resource det))
              (updateVariantTitle title s3)) as (-> & -> & -> & _).
  rewrite updateMedia_attributes, updateVariantTitle_attributes.
  destruct (updateVariantTitle_rendering title s3) as (-> & -> & -> & _).
  rewrite E1, E2, E3, E4, E5. repeat split; assumption.
Qed.

(** X8.  The thumbnail.  With a media link present, [updateMedia] never
    changes where the link points.  Without a preview source it hides
    the link and leaves the image alone; with one it shows the link
    and leaves an image whose source is the 120 pixel rendition, the
    image being created for lazy loading if the link had none. *)
Theorem updateMedia_follows_preview
    (pg : Page) (r : VariantResource) (s : t) (link : AnchorEl) :
  mediaLink s = Some link ->
  let previewSrc :=
    match featured_media r with
    | Some fm => match preview_image fm with Some p => src p | None => None end
    | None => None
    end in
  let s' := updateMedia pg r s in
  href <$> mediaLink s' = Some (href link) /\
  (Js.struthy previewSrc = false ->
     a_hidden <$> mediaLink s' = Some true /\ mediaImage s' = mediaImage s) /\
  (forall psrc, previewSrc = Some psrc -> psrc <> "" ->
     a_hidden <$> mediaLink s' = Some false /\
     exists img, mediaImage s' = Some img /\
       img_src img = buildSrc pg psrc 120 /\
       img_loading img = match mediaImage s with
                         | Some old => img_loading old
                         | None => "lazy"
                         end).
Proof.
  intros Hl previewSrc s'. subst s' previewSrc. unfold updateMedia. rewrite Hl.
  destruct (featured_media r) as [fm|]; [destruct (preview_image fm) as [p|]|].
  - destruct (src p) as [psrc|].
    + destruct (String.eqb psrc "") eqn:He; cbn [Js.struthy]; rewrite ?He; cbn [negb].
      * split; [reflexivity|]. split.
        -- intros _. split; reflexivity.
        -- intros q [= <-] Hq. apply String.eqb_eq in He. contradiction.
      * split; [reflexivity|]. split; [discriminate|].
        intros q [= <-] _. split; [reflexivity|].
        eexists. split; [reflexivity|]. split; [reflexivity|].
        cbn. destruct (mediaImage s); reflexivity.
    + split; [reflexivity|]. split; [intros _; split; reflexivity|discriminate].
  - split; [reflexivity|]. split; [intros _; split; reflexivity|discriminate].
  - split; [reflexivity|]. split; [intros _; split; reflexivity|discriminate].
Qed.

Lemma updateMedia_observers (pg : Page) (r : VariantResource) (s : t) :
  intersectionObserver (updateMedia pg r s) = intersectionObserver s /\
  anchorMutationObserver (updateMedia pg r s) = anchorMutationObserver s /\
  anchorElement (updateMedia pg r s) = anchorElement s /\
  listening (updateMedia pg r s) = listening s /\
  section (updateMedia pg r s) = section s.
Proof.
  unfold updateMedia. destruct (mediaLink s) as [link|]; [|repeat split].
  destruct (match match featured_media r with
                  | Some fm => preview_image fm
                  | None => None
                  end with
            | Some p => src p
            | None => None
            end) as [psrc|]; [|repeat split].
  destruct (String.eqb psrc ""); repeat split.
Qed.

(** X9.  A variant update follows the anchor.  An update for the element's
    own product, arriving while the section holds an anchor: if that
    anchor is not the node the element has on record, the intersection
    observer is replaced by a newly constructed one that observes the
    new anchor, which goes on record; if it is the same node, the
    observer the element holds is left alone and none is
    constructed. *)
Theorem variant_update_follows_anchor
    (js : Js.Engine) (pg : Page) (event : VariantUpdateEvent) (w : Window) (s : t)
    (sec : Node) (a : Node * Q) :
  payload_productId js event = Some (productId s) ->
  productId s <> "" ->
  section s = Some sec ->
  anchor_in_section pg = Some a ->
  let r := handleVariantUpdate js pg event (w, s) in
  (Some (fst a) <> anchorElement s ->
     intersectionObserver (snd r) =
       Some {| io_id := ioCount w; io_rootMargin := "0px";
               io_threshold := [0]%Q; io_observing := [fst a] |} /\
     anchorElement (snd r) = Some (fst a) /\
     ioCount (fst r) = S (ioCount w)) /\
  (Some (fst a) = anchorElement s ->
     intersectionObserver (snd r) = intersectionObserver s /\
     anchorElement (snd r) = anchorElement s /\
     fst r = w).
Proof.
  intros Hpid Hne Hsec Hanchor r. subst r.
  unfold payload_productId in Hpid. unfold handleVariantUpdate.
  destruct (detail event) as [det|]; [|discriminate].
  destruct (data det) as [d|]; [|discriminate].
  rewrite Hpid.
  assert (Hempty : String.eqb (productId s) "" = false) by now apply String.eqb_neq.
  rewrite Hempty, String.eqb_refl. cbn [orb negb].
  set (s1 := setAttribute "data-product-id" (productId s) (set_productId (productId s) s)).
  set (targetUrl := Js.sor _ _).
  set (s2 := if Js.struthy targetUrl then _ else s1).
  assert (H2 : section s2 = Some sec /\ anchorElement s2 = anchorElement s /\
               intersectionObserver s2 = intersectionObserver s).
  { subst s2 s1. destruct (Js.struthy targetUrl); cbn; auto. }
  clearbody s2. clear targetUrl s1. destruct H2 as (Hsec2 & Han2 & Hio2).
  unfold getAnchor. rewrite Hsec2, Hanchor, Han2.
  assert (Htail : forall (w3 : Window) (s3 : t),
            intersectionObserver
              (updateMedia pg (default empty_resource (resource det))
                 (updateVariantTitle
                    (default "" (title (default empty_resource (resource det)))) s3)) =
              intersectionObserver s3 /\
            anchorElement
              (updateMedia pg (default empty_resource (resource det))
                 (updateVariantTitle
                    (default "" (title (default empty_resource (resource det)))) s3)) =
              anchorElement s3).
  { intros w3 s3.
    destruct (updateMedia_observers pg (default empty_resource (resource det))
                (updateVariantTitle
                   (default "" (title (default empty_resource (resource det)))) s3))
      as (-> & _ & -> & _).
    destruct (updateVariantTitle_observers
                (default "" (title (default empty_resource (resource det)))) s3)
      as (-> & _ & -> & _).
    split; reflexivity. }
  split; intros Hcmp.
  - rewrite bool_decide_eq_true_2 by exact Hcmp.
    unfold resetIntersectionObserver, createIntersectionObserver.
    cbn [intersectionObserver set_intersectionObserver newIntersectionObserver fst snd].
    match goal with
    | |- context [setVisibility ?b ?x] =>
        destruct (Htail w (setVisibility b x)) as [-> ->];
        destruct (setVisibility_observers b x) as (-> & _ & -> & _)
    end.
    cbn. unfold observe. cbn. rewrite decide_False by set_solver. repeat split.
  - rewrite bool_decide_eq_false_2 by (intros Hbad; apply Hbad; exact Hcmp).
    cbn [fst snd]. destruct (Htail w s2) as [-> ->]. repeat split; assumption.
Qed.

(** X10.  Disconnecting undoes what connecting armed, and nothing else.
    After [connectedCallback] and then [disconnectedCallback] the
    element holds no intersection observer, no mutation observer and
    no anchor, and no longer listens for variant updates; its
    attributes, the two visibility attributes among them, are as
    connecting left them, so a bar that was shown still reads as
    shown. *)
Theorem disconnect_drops_observers (m : Markup) (pg : Page) (w : Window) (s : t) :
  let connected := connectedCallback m pg (w, s) in
  let s' := disconnectedCallback (snd connected) in
  intersectionObserver s' = None /\
  anchorMutationObserver s' = None /\
  anchorElement s' = None /\
  listening s' = match closest_section m with
                 | Some _ => false
                 | None => listening s
                 end /\
  attributes s' = attributes (snd connected) /\
  (shown (snd connected) -> shown s').
Proof.
  cbv zeta.
  destruct (connectedCallback_effect m pg w s) as (Hsec & Hlisten & _).
  destruct (connectedCallback m pg (w, s)) as [w1 s1]. cbn [fst snd] in *.
  unfold disconnectedCallback, disconnectObservers. rewrite Hsec.
  destruct (closest_section m); cbn;
    (split; [reflexivity|]); (split; [reflexivity|]); (split; [reflexivity|]);
    (split; [auto|]); (split; [reflexivity|]); intros Hshown; exact Hshown.
Qed.

End StickyAtcElement_more.

Lemma visibility_attributes_stay_paired_witness :
  let s := snd (StickyAtcElement.connected
                  {[ "aria-hidden" := "true"; "data-visible" := "false";
                     "data-product-id" := "7" ]}) in
  let entries := [ {| Browser.intersectionRatio := 0; Browser.isIntersecting := false;
                      Browser.boundingClientRect_bottom := -(3) |} ] in
  let event := StickyAtcElement.update_for (Js.VNum 7) StickyAtcElement.empty_resource in
  StickyAtcElement.shown (StickyAtcElement.handleAnchorIntersect entries s) \/
  StickyAtcElement.concealed (StickyAtcElement.handleAnchorIntersect entries s).
Proof.
  intros s entries event.
  apply (visibility_attributes_stay_paired Js.sample_engine StickyAtcElement.sample_page
           entries event Browser.fresh_window s).
  right. split; vm_compute; reflexivity.
Defined.

Lemma anchor_found_by_mutation_witness :
  let empty_section :=
    {| StickyAtcElement.anchor_in_section := None;
       StickyAtcElement.url_with_width := λ _ _, None |} in
  let waiting := StickyAtcElement.connectedCallback StickyAtcElement.sample_markup
                   empty_section (Browser.fresh_window, StickyAtcElement.created ∅) in
  let ws := StickyAtcElement.anchorMutation StickyAtcElement.sample_page waiting in
  StickyAtcElement.anchorMutation empty_section waiting = waiting /\
  Browser.io_observing <$> StickyAtcElement.intersectionObserver (snd ws) = Some [2] /\
  StickyAtcElement.anchorElement (snd ws) = Some 2 /\
  StickyAtcElement.anchorMutationObserver (snd ws) = None /\
  Browser.ioCount (fst ws) = 1.
Proof.
  intros empty_section.
  exact (anchor_found_by_mutation StickyAtcElement.sample_markup empty_section
           StickyAtcElement.sample_page 1 (2, 500%Q) Browser.fresh_window
           (StickyAtcElement.created ∅) eq_refl eq_refl eq_refl).
Defined.

Lemma updateVariantTitle_hides_default_title_witness :
  let s := snd (StickyAtcElement.connected ∅) in
  StickyAtcElement.variantTarget (StickyAtcElement.updateVariantTitle "Default Title" s) =
    Some {| StickyAtcElement.textContent := ""; StickyAtcElement.v_hidden := true |}.
Proof.
  intros s.
  apply (proj1 (updateVariantTitle_hides_default_title "Default Title" s
                  {| StickyAtcElement.textContent := "Large";
                     StickyAtcElement.v_hidden := true |}
                  ltac:(vm_compute; reflexivity))).
  right. reflexivity.
Defined.

Lemma variant_update_points_both_links_witness :
  let s := snd (StickyAtcElement.connected {[ "data-product-id" := "7" ]}) in
  let d := {| StickyAtcElement.newProduct :=
                Some {| StickyAtcElement.id := Js.VNum 7;
                        StickyAtcElement.np_url := Some "/products/bowl" |};
              StickyAtcElement.data_productId := Js.VUndefined |} in
  let det := {| StickyAtcElement.resource :=
                  Some {| StickyAtcElement.url := Some "/products/bowl?variant=2";
                          StickyAtcElement.title := Some "Small";
                          StickyAtcElement.featured_media := None |};
                StickyAtcElement.data := Some d |} in
  let s' := snd (StickyAtcElement.handleVariantUpdate Js.sample_engine
                   StickyAtcElement.sample_page
                   {| StickyAtcElement.detail := Some det |} (Browser.fresh_window, s)) in
  StickyAtcElement.productId s' = StickyAtcElement.productId s /\
  StickyAtcElement.attributes s' !! "data-product-id" = Some (StickyAtcElement.productId s) /\
  StickyAtcElement.attributes s' !! "data-product-url" = Some "/products/bowl?variant=2" /\
  StickyAtcElement.href <$> StickyAtcElement.titleLink s' =
    (λ _, Some "/products/bowl?variant=2") <$> StickyAtcElement.titleLink s /\
  StickyAtcElement.href <$> StickyAtcElement.mediaLink s' =
    (λ _, Some "/products/bowl?variant=2") <$> StickyAtcElement.mediaLink s.
Proof.
  intros s d det.
  apply (variant_update_points_both_links Js.sample_engine StickyAtcElement.sample_page
           det d Browser.fresh_window s "/products/bowl?variant=2").
  - reflexivity.
  - vm_compute. reflexivity.
  - vm_compute. discriminate.
  - reflexivity.
  - discriminate.
Defined.

Lemma updateMedia_follows_preview_witness :
  let s := snd (StickyAtcElement.connected ∅) in
  let r := {| StickyAtcElement.url := None; StickyAtcElement.title := None;
              StickyAtcElement.featured_media :=
                Some {| StickyAtcElement.preview_image :=
                          Some {| StickyAtcElement.src := Some "/cdn/bowl.jpg?v=3";
                                  StickyAtcElement.alt := None |} |} |} in
  StickyAtcElement.href <$>
    StickyAtcElement.mediaLink (StickyAtcElement.updateMedia StickyAtcElement.sample_page r s)
  = Some (Some "/products/bowl").
Proof.
  intros s r.
  exact (proj1 (updateMedia_follows_preview StickyAtcElement.sample_page r s
                  {| StickyAtcElement.href := Some "/products/bowl";
                     StickyAtcElement.a_hidden := false |}
                  ltac:(vm_compute; reflexivity))).
Defined.

Lemma variant_update_follows_anchor_witness :
  let ws := StickyAtcElement.connected {[ "data-product-id" := "7" ]} in
  let moved := {| StickyAtcElement.anchor_in_section := Some (9%nat, 500%Q);
                  StickyAtcElement.url_with_width := λ _ _, None |} in
  let event := StickyAtcElement.update_for (Js.VNum 7) StickyAtcElement.empty_resource in
  let r := StickyAtcElement.handleVariantUpdate Js.sample_engine moved event
             (fst ws, snd ws) in
  StickyAtcElement.anchorElement (snd ws) = Some 2%nat /\
  Browser.io_observing <$> StickyAtcElement.intersectionObserver (snd r) = Some [9%nat] /\
  StickyAtcElement.anchorElement (snd r) = Some 9%nat.
Proof.
  intros ws moved event r. split; [vm_compute; reflexivity|].
  destruct (variant_update_follows_anchor Js.sample_engine moved event (fst ws) (snd ws)
              1%nat (9%nat, 500%Q))
    as [Hnew _].
  - vm_compute. reflexivity.
  - vm_compute. discriminate.
  - vm_compute. reflexivity.
  - reflexivity.
  - destruct Hnew as (Hobserver & Hanchor & _).
    + vm_compute. discriminate.
    + split; [|exact Hanchor].
      subst r. rewrite Hobserver. reflexivity.
Defined.

Lemma disconnect_drops_observers_witness :
  let passed := {| StickyAtcElement.anchor_in_section := Some (2%nat, -(10))%Q;
                   StickyAtcElement.url_with_width := λ _ _, None |} in
  let connected := StickyAtcElement.connectedCallback StickyAtcElement.sample_markup passed
                     (Browser.fresh_window, StickyAtcElement.created ∅) in
  StickyAtcElement.shown (StickyAtcElement.disconnectedCallback (snd connected)) /\
  StickyAtcElement.intersectionObserver
    (StickyAtcElement.disconnectedCallback (snd connected)) = None.
Proof.
  intros passed connected.
  destruct (disconnect_drops_observers StickyAtcElement.sample_markup passed
              Browser.fresh_window (StickyAtcElement.created ∅))
    as (Hobserver & _ & _ & _ & _ & Hshown).
  split; [|exact Hobserver].
  apply Hshown. split; vm_compute; reflexivity.
Defined.

(** ** Header: initialisation and clicks *)
Section MKHeaderComponent_more.
Import MKHeaderComponent.

(** A click and the toggle event it causes.  On an initialised header
    whose button holds both icons, the click listener flips the
    drawer's open attribute and the toggle listener then brings
    aria-expanded and both icons in line with the new state. *)
Theorem click_then_toggle_in_sync
    (s : t) (b : MenuButton) (isOpen : bool) (i1 i2 : Icon) :
  0 < toggleListeners s ->
  menuButton s = Some b -> drawerDetails s = Some isOpen ->
  openIcon b = Some i1 -> closeIcon b = Some i2 ->
  let s' := toggle_event (click_listener s) in
  drawerDetails s' = Some (negb isOpen) /\
  menuButton s' =
    Some {| aria_expanded := Some (if isOpen then "false" else "true");
            openIcon := Some (if isOpen then shown else hidden);
            closeIcon := Some (if isOpen then hidden else shown) |}.
Proof.
  intros Hn Hb Hd Ho Hc s'. subst s'.
  assert (Hclick : menuButton (click_listener s) = Some b /\
                   drawerDetails (click_listener s) = Some (negb isOpen) /\
                   toggleListeners (click_listener s) = toggleListeners s).
  { unfold click_listener, set_open. rewrite Hd.
    destruct isOpen; cbn; auto. }
  destruct Hclick as (Hb' & Hd' & Hn').
  split.
  - unfold toggle_event. rewrite Hn'.
    destruct (updateButtonState_keeps_icons (toggleListeners s) (click_listener s)
                b (negb isOpen) i1 i2 Hb' Hd' Ho Hc) as [Hdetails _].
    exact Hdetails.
  - rewrite (toggle_event_in_sync (click_listener s) b (negb isOpen) i1 i2)
      by (rewrite ?Hn'; assumption).
    destruct isOpen; reflexivity.
Qed.

(** Initialisation over a closed drawer.  With the header, the button
    holding both icons, the details element and its header-drawer all
    present and the drawer closed, [#initMobileMenu] adds one toggle
    and one click listener and leaves aria-expanded false, the open
    icon displayed and the close icon hidden. *)
Theorem initMobileMenu_closed_drawer (s : t) (b : MenuButton) (i1 i2 : Icon) :
  headerComponent s = true -> headerDrawer s = true ->
  menuButton s = Some b -> drawerDetails s = Some false ->
  openIcon b = Some i1 -> closeIcon b = Some i2 ->
  menuButton (initMobileMenu s) =
    Some {| aria_expanded := Some "false";
            openIcon := Some shown; closeIcon := Some hidden |} /\
  drawerDetails (initMobileMenu s) = Some false /\
  toggleListeners (initMobileMenu s) = S (toggleListeners s) /\
  clickListeners (initMobileMenu s) = S (clickListeners s).
Proof.
  intros Hh Hdr Hb Hd Ho Hc. unfold initMobileMenu.
  rewrite Hh, Hb, Hd, Hdr. cbn.
  unfold updateButtonState. cbn. rewrite Hb, Hd. cbn. rewrite Ho, Hc. cbn.
  rewrite Hd. repeat split.
Qed.

(** Initialisation with a part missing.  If the header element, the
    trigger button, the details element or its enclosing header-drawer
    is absent, [#initMobileMenu] changes nothing and adds no listener,
    so a later toggle event finds nothing more to run than before. *)
Theorem initMobileMenu_needs_every_part (s : t) :
  headerComponent s = false \/ menuButton s = None \/
  drawerDetails s = None \/ headerDrawer s = false ->
  initMobileMenu s = s /\ toggle_event (initMobileMenu s) = toggle_event s.
Proof.
  intros H.
  assert (Hsame : initMobileMenu s = s).
  { unfold initMobileMenu.
    destruct (headerComponent s); [|reflexivity]. cbn.
    destruct H as [H | [H | [H | H]]]; try discriminate; rewrite H;
      try reflexivity.
    - destruct (menuButton s); reflexivity.
    - destruct (menuButton s), (drawerDetails s); reflexivity. }
  now rewrite Hsame.
Qed.

Lemma updateButtonState_listeners (n : nat) (s : t) :
  toggleListeners (Nat.iter n updateButtonState s) = toggleListeners s /\
  clickListeners (Nat.iter n updateButtonState s) = clickListeners s.
Proof.
  induction n as [|n [IHt IHc]]; [split; reflexivity|].
  rewrite Nat.iter_succ. unfold updateButtonState at 1 3.
  destruct (menuButton (Nat.iter n updateButtonState s)) as [b|]; [|split; assumption].
  destruct (drawerDetails (Nat.iter n updateButtonState s)) as [o|]; [|split; assumption].
  split; assumption.
Qed.

(** X11.  From initialisation through a click and back.  A header with
    every part in place, the button holding both icons and the drawer
    closed is initialised: one toggle listener and one click listener
    are added, aria-expanded is false and the open icon is the one
    displayed.  A click and the toggle event it causes open the
    drawer, set aria-expanded to true and display the close icon
    instead; a second click and toggle event close the drawer and
    bring the button back to what initialisation left. *)
Theorem header_click_cycle (s : t) (b : MenuButton) (i1 i2 : Icon) :
  headerComponent s = true -> headerDrawer s = true ->
  menuButton s = Some b -> drawerDetails s = Some false ->
  openIcon b = Some i1 -> closeIcon b = Some i2 ->
  let s0 := initMobileMenu s in
  let s1 := toggle_event (click_listener s0) in
  let s2 := toggle_event (click_listener s1) in
  toggleListeners s0 = S (toggleListeners s) /\
  clickListeners s0 = S (clickListeners s) /\
  menuButton s0 =
    Some {| aria_expanded := Some "false";
            openIcon := Some shown; closeIcon := Some hidden |} /\
  drawerDetails s1 = Some true /\
  menuButton s1 =
    Some {| aria_expanded := Some "true";
            openIcon := Some hidden; closeIcon := Some shown |} /\
  drawerDetails s2 = Some false /\
  menuButton s2 = menuButton s0.
Proof.
  intros Hh Hdr Hb Hd Ho Hc s0 s1 s2.
  destruct (initMobileMenu_closed_drawer s b i1 i2 Hh Hdr Hb Hd Ho Hc)
    as (Hb0 & Hd0 & Ht0 & Hc0).
  fold s0 in Hb0, Hd0, Ht0, Hc0.
  assert (Hn0 : 0 < toggleListeners s0) by lia.
  destruct (click_then_toggle_in_sync s0 _ false shown hidden Hn0 Hb0 Hd0 eq_refl eq_refl)
    as [Hd1 Hb1].
  fold s1 in Hd1, Hb1. cbn [negb] in Hd1, Hb1.
  assert (Hn1 : 0 < toggleListeners s1).
  { subst s1. unfold toggle_event.
    destruct (updateButtonState_listeners (toggleListeners (click_listener s0))
                (click_listener s0)) as [-> _].
    unfold click_listener, set_open. rewrite Hd0. cbn. lia. }
  destruct (click_then_toggle_in_sync s1 _ true hidden shown Hn1 Hb1 Hd1 eq_refl eq_refl)
    as [Hd2 Hb2].
  fold s2 in Hd2, Hb2. cbn [negb] in Hd2, Hb2.
  rewrite Hb2, Hb0. repeat split; assumption.
Qed.

End MKHeaderComponent_more.

Lemma click_then_toggle_in_sync_witness :
  let s := MKHeaderComponent.initMobileMenu MKHeaderComponent.header_with_open_drawer in
  let s' := MKHeaderComponent.toggle_event (MKHeaderComponent.click_listener s) in
  MKHeaderComponent.drawerDetails s' = Some false /\
  MKHeaderComponent.menuButton s' =
    Some {| MKHeaderComponent.aria_expanded := Some "false";
            MKHeaderComponent.openIcon := Some MKHeaderComponent.shown;
            MKHeaderComponent.closeIcon := Some MKHeaderComponent.hidden |}.
Proof.
  intros s.
  apply (click_then_toggle_in_sync s
           {| MKHeaderComponent.aria_expanded := Some "true";
              MKHeaderComponent.openIcon := Some MKHeaderComponent.shown;
              MKHeaderComponent.closeIcon := Some MKHeaderComponent.hidden |}
           true MKHeaderComponent.shown MKHeaderComponent.hidden).
  - cbn. lia.
  - reflexivity.
  - reflexivity.
  - reflexivity.
  - reflexivity.
Defined.

Lemma initMobileMenu_closed_drawer_witness :
  let s := MKHeaderComponent.click_listener MKHeaderComponent.header_with_open_drawer in
  MKHeaderComponent.menuButton (MKHeaderComponent.initMobileMenu s) =
    Some {| MKHeaderComponent.aria_expanded := Some "false";
            MKHeaderComponent.openIcon := Some MKHeaderComponent.shown;
            MKHeaderComponent.closeIcon := Some MKHeaderComponent.hidden |} /\
  MKHeaderComponent.drawerDetails (MKHeaderComponent.initMobileMenu s) = Some false /\
  MKHeaderComponent.toggleListeners (MKHeaderComponent.initMobileMenu s) = 1 /\
  MKHeaderComponent.clickListeners (MKHeaderComponent.initMobileMenu s) = 1.
Proof.
  intros s.
  apply (initMobileMenu_closed_drawer s MKHeaderComponent.untouched_button
           {| MKHeaderComponent.display := None |} {| MKHeaderComponent.display := None |});
    reflexivity.
Defined.

Lemma initMobileMenu_needs_every_part_witness :
  let s := MKHeaderComponent.set_menuButton None MKHeaderComponent.header_with_open_drawer in
  MKHeaderComponent.initMobileMenu s = s /\
  MKHeaderComponent.toggle_event (MKHeaderComponent.initMobileMenu s) =
    MKHeaderComponent.toggle_event s.
Proof.
  intros s. apply (initMobileMenu_needs_every_part s).
  right. left. reflexivity.
Defined.

Lemma header_click_cycle_witness :
  let s := MKHeaderComponent.click_listener MKHeaderComponent.header_with_open_drawer in
  let s0 := MKHeaderComponent.initMobileMenu s in
  let s1 := MKHeaderComponent.toggle_event (MKHeaderComponent.click_listener s0) in
  let s2 := MKHeaderComponent.toggle_event (MKHeaderComponent.click_listener s1) in
  MKHeaderComponent.drawerDetails s1 = Some true /\
  MKHeaderComponent.menuButton s1 =
    Some {| MKHeaderComponent.aria_expanded := Some "true";
            MKHeaderComponent.openIcon := Some MKHeaderComponent.hidden;
            MKHeaderComponent.closeIcon := Some MKHeaderComponent.shown |} /\
  MKHeaderComponent.drawerDetails s2 = Some false /\
  MKHeaderComponent.menuButton s2 = MKHeaderComponent.menuButton s0.
Proof.
  intros s.
  destruct (header_click_cycle s MKHeaderComponent.untouched_button
              {| MKHeaderComponent.display := None |} {| MKHeaderComponent.display := None |})
    as (_ & _ & _ & H1 & H2 & H3 & H4); try reflexivity.
  split; [exact H1|]. split; [exact H2|]. split; [exact H3|exact H4].
Defined.

(** ** Video player: loading, playing and resetting *)
Section MkVideoPlayer_more.
Import Browser MkVideoPlayer.

Lemma loadVideo_marks_loaded (env : Env) (w : Window) (s : t) :
  _isLoaded (snd (loadVideo env (w, s))) = true /\
  (_isLoaded s = false -> "is-loaded" ∈ classList (snd (loadVideo env (w, s)))).
Proof.
  unfold loadVideo. cbn [snd].
  destruct (_isLoaded s) eqn:Hl; [split; [exact Hl|discriminate]|].
  destruct (if String.eqb (videoType s) "youtube"
            then loadYouTube env (w, s) else loadMP4 env (w, s)) as [w1 s1].
  cbn. split; [reflexivity|]. intros _. set_solver.
Qed.

(** Loading happens once.  However often it is asked for, the load
    runs the first time only: a second [#loadVideo] changes nothing,
    and after the first the player is marked loaded. *)
Theorem loadVideo_once (env : Env) (ws : Window * t) :
  loadVideo env (loadVideo env ws) = loadVideo env ws /\
  _isLoaded (snd (loadVideo env ws)) = true.
Proof.
  destruct ws as [w s].
  destruct (loadVideo_marks_loaded env w s) as [Hl _].
  split; [|exact Hl].
  unfold loadVideo at 1. now rewrite Hl.
Qed.

(** X12.  Loading without a source.  A player that is not yet loaded and
    whose desktop source for its media kind is missing or empty logs
    one warning, leaves its subtree untouched and calls nothing on a
    media element, and is nevertheless marked loaded and given the
    is-loaded class. *)
Theorem loadVideo_without_source (env : Env) (w : Window) (s : t) :
  _isLoaded s = false ->
  Js.struthy (attributes s !! (if String.eqb (videoType s) "youtube"
                               then "data-youtube-desktop"
                               else "data-video-desktop")) = false ->
  let r := loadVideo env (w, s) in
  console (fst r) =
    (console w ++ [Warn (if String.eqb (videoType s) "youtube"
                         then "MkVideoPlayer: No YouTube source provided"
                         else "MkVideoPlayer: No video source provided")])%list /\
  children (snd r) = children s /\
  calls (snd r) = calls s /\
  _isLoaded (snd r) = true /\
  ("is-loaded" ∈ classList (snd r)).
Proof.
  intros Hl Hsrc r. subst r. unfold loadVideo. cbn [snd]. rewrite Hl.
  destruct (String.eqb (videoType s) "youtube").
  - unfold loadYouTube. rewrite Hsrc. cbn. repeat split. set_solver.
  - unfold loadMP4. rewrite Hsrc. cbn. repeat split. set_solver.
Qed.

Lemma loadVideo_frame (env : Env) (w : Window) (s : t) :
  _observer (snd (loadVideo env (w, s))) = _observer s /\
  ioCount (fst (loadVideo env (w, s))) = ioCount w.
Proof.
  unfold loadVideo. cbn [snd]. destruct (_isLoaded s); [split; reflexivity|].
  destruct (String.eqb (videoType s) "youtube").
  - destruct (loadYouTube_frame env w s) as (Ho & _ & _ & Hw).
    destruct (loadYouTube env (w, s)) as [w1 s1]. cbn in *. auto.
  - destruct (loadMP4_frame env w s) as (Ho & _ & _ & Hw).
    destruct (loadMP4 env (w, s)) as [w1 s1]. cbn in *. auto.
Qed.

(** One entry of the lazy-load observer's callback. *)
Lemma observer_entry_effect (env : Env) (entry : IntersectionObserverEntry)
    (w : Window) (s : t) :
  let step := λ (ws : Window * t) (entry : IntersectionObserverEntry),
                observerCallback env [entry] ws in
  (isIntersecting entry = false \/ _isLoaded s = true -> step (w, s) entry = (w, s)) /\
  (isIntersecting entry = true -> _isLoaded s = false ->
     _isLoaded (snd (step (w, s) entry)) = true /\
     io_observing <$> _observer (snd (step (w, s) entry)) = (λ _, []) <$> _observer s /\
     ioCount (fst (step (w, s) entry)) = ioCount w).
Proof.
  cbv zeta. unfold observerCallback. cbn [fold_left snd]. split.
  - intros [-> | ->]; [reflexivity|]. now rewrite andb_false_r.
  - intros -> ->. cbn [andb negb].
    destruct (loadVideo_marks_loaded env w s) as [Hl _].
    destruct (loadVideo_frame env w s) as [Ho Hw].
    destruct (loadVideo env (w, s)) as [w1 s1]. cbn [fst snd] in *.
    set (s2 := if Js.seq_lit (attributes s1 !! "data-autoplay") "true"
               then playVideo env s1 else s1).
    assert (H2 : _isLoaded s2 = true /\ _observer s2 = _observer s).
    { subst s2. destruct (Js.seq_lit _ _); [|auto].
      destruct (playVideo_frame env s1) as (-> & -> & _). auto. }
    clearbody s2. destruct H2 as [Hl2 Ho2]. rewrite Ho2.
    destruct (_observer s) as [o|]; cbn; rewrite ?Ho2; auto.
Qed.

Lemma observerCallback_cons (env : Env) (e : IntersectionObserverEntry)
    (rest : list IntersectionObserverEntry) (ws : Window * t) :
  observerCallback env (e :: rest) ws =
    observerCallback env rest (observerCallback env [e] ws).
Proof. reflexivity. Qed.

Lemma observerCallback_when_loaded (env : Env) (entries : list IntersectionObserverEntry)
    (w : Window) (s : t) :
  _isLoaded s = true -> observerCallback env entries (w, s) = (w, s).
Proof.
  intros Hl. induction entries as [|e rest IH]; [reflexivity|].
  rewrite observerCallback_cons.
  destruct (observer_entry_effect env e w s) as [Hsame _]. cbv zeta in Hsame.
  rewrite Hsame by auto. exact IH.
Qed.

(** X13.  The lazy load fires once per arming.  A batch holding no
    intersecting entry, or any batch delivered to a player that is
    already loaded, changes nothing.  On a player that is not loaded,
    the first intersecting entry loads it and disconnects the observer;
    the rest of the batch is then ignored and no observer is
    constructed. *)
Theorem observerCallback_loads_once
    (env : Env) (entries : list IntersectionObserverEntry) (w : Window) (s : t) :
  let r := observerCallback env entries (w, s) in
  (_isLoaded s = true \/ Forall (λ e, isIntersecting e = false) entries -> r = (w, s)) /\
  (_isLoaded s = false -> Exists (λ e, isIntersecting e = true) entries ->
     _isLoaded (snd r) = true /\
     io_observing <$> _observer (snd r) = (λ _, []) <$> _observer s /\
     ioCount (fst r) = ioCount w).
Proof.
  cbv zeta. split.
  - intros [Hl | Hall]; [now apply observerCallback_when_loaded|].
    induction Hall as [|e rest He _ IH]; [reflexivity|].
    rewrite observerCallback_cons.
    destruct (observer_entry_effect env e w s) as [Hsame _]. cbv zeta in Hsame.
    rewrite Hsame by auto. exact IH.
  - intros Hl Hex. induction Hex as [e rest He | e rest Hex IH].
    + rewrite observerCallback_cons.
      destruct (observer_entry_effect env e w s) as [_ Hload]. cbv zeta in Hload.
      destruct (Hload He Hl) as (H1 & H2 & H3).
      destruct (observerCallback env [e] (w, s)) as [w1 s1]. cbn [fst snd] in *.
      rewrite observerCallback_when_loaded by exact H1. auto.
    + rewrite observerCallback_cons.
      destruct (isIntersecting e) eqn:He.
      * destruct (observer_entry_effect env e w s) as [_ Hload]. cbv zeta in Hload.
        destruct (Hload He Hl) as (H1 & H2 & H3).
        destruct (observerCallback env [e] (w, s)) as [w1 s1]. cbn [fst snd] in *.
        rewrite observerCallback_when_loaded by exact H1. auto.
      * destruct (observer_entry_effect env e w s) as [Hsame _]. cbv zeta in Hsame.
        rewrite Hsame by auto. exact IH.
Qed.

Lemma querySelector_from_restyled (cls : string) (l : list Element) :
  forall (k c : nat) (e e' : Element),
    l !! c = Some e -> className e' = className e ->
    querySelector_from k cls (<[c := e']> l) =
      match querySelector_from k cls l with
      | Some (i, x) => Some (i, if decide (i = k + c) then e' else x)
      | None => None
      end.
Proof.
  induction l as [|x l IH]; intros k c e e' Hc Hn; [discriminate|].
  destruct c as [|c]; cbn [querySelector_from].
  - injection Hc as ->. cbn [insert list_insert querySelector_from]. rewrite Hn.
    case_bool_decide.
    + rewrite decide_True by lia. reflexivity.
    + destruct (querySelector_from (S k) cls l) as [[i y]|] eqn:Hq; [|reflexivity].
      destruct (querySelector_from_lookup _ _ _ _ _ Hq) as [Hle _].
      rewrite decide_False by lia. reflexivity.
  - cbn [insert list_insert querySelector_from].
    pose proof (IH (S k) c e e' Hc Hn) as IH'.
    case_bool_decide.
    + rewrite decide_False by lia. reflexivity.
    + etransitivity; [exact IH'|].
      destruct (querySelector_from (S k) cls l) as [[i y]|]; [|reflexivity].
      replace (S k + c) with (k + S c) by lia. reflexivity.
Qed.

Lemma getCurrentVideo_set_display (c : nat) (d : string) (s : t) :
  getCurrentVideo (set_display c d s) = getCurrentVideo s.
Proof.
  unfold getCurrentVideo, querySelector, set_display.
  destruct (children s !! c) as [e|] eqn:Hc; [|reflexivity].
  cbn [children set_children].
  erewrite querySelector_from_restyled; [|exact Hc|reflexivity].
  destruct (querySelector_from 0 "mk-video__element" (children s)) as [[i x]|] eqn:Hq;
    [|reflexivity].
  destruct (decide (i = 0 + c)) as [->|]; [|reflexivity].
  destruct (querySelector_from_lookup _ _ _ _ _ Hq) as [_ Hl].
  cbn in Hl. rewrite Nat.sub_0_r in Hl. rewrite Hc in Hl. injection Hl as ->.
  reflexivity.
Qed.

(** [#playVideo] on a player that is not playing and whose element is
    a video: one call of [play()], one more promise awaited, nothing
    else changed. *)
Lemma playVideo_on_video (env : Env) (s : t) (i : nat) (v : VideoState) :
  _isPlaying s = false ->
  getCurrentVideo s = Some (i, HTMLVideoElement v) ->
  play_returns_promise env = true ->
  pendingPlay (playVideo env s) = S (pendingPlay s) /\
  calls (playVideo env s) = (calls s ++ [Play i])%list /\
  _isPlaying (playVideo env s) = false /\
  getCurrentVideo (playVideo env s) = getCurrentVideo s /\
  classList (playVideo env s) = classList s /\
  attributes (playVideo env s) = attributes s.
Proof.
  intros Hp Hv Hpr. unfold playVideo. rewrite Hp, Hv, Hpr.
  set (s1 := match querySelector "mk-video__container" (children s) with
             | Some (c, _) => set_display c "" s
             | None => s
             end).
  assert (H1 : pendingPlay s1 = pendingPlay s /\ calls s1 = calls s /\
               _isPlaying s1 = false /\ getCurrentVideo s1 = getCurrentVideo s /\
               classList s1 = classList s /\ attributes s1 = attributes s).
  { subst s1. destruct (querySelector "mk-video__container" (children s)) as [[c e]|];
      [|repeat split; assumption].
    rewrite getCurrentVideo_set_display.
    unfold set_display. destruct (children s !! c); repeat split; assumption. }
  clearbody s1. destruct H1 as (E1 & E2 & E3 & E4 & E5 & E6).
  rewrite <- Hv.
  change (getCurrentVideo (set_pendingPlay ?n (call ?c s1))) with (getCurrentVideo s1).
  cbn. rewrite E1, E2. repeat split; assumption.
Qed.

(** X14.  Asking twice before the browser answers.  The playing flag is set
    only when a play promise is fulfilled, so a second [#playVideo]
    before that is not stopped by the guard: [play()] is called again
    on the video element and a second promise is awaited. *)
Theorem play_twice_before_settling (env : Env) (s : t) (i : nat) (v : VideoState) :
  _isPlaying s = false ->
  getCurrentVideo s = Some (i, HTMLVideoElement v) ->
  play_returns_promise env = true ->
  let s2 := playVideo env (playVideo env s) in
  pendingPlay s2 = S (S (pendingPlay s)) /\
  calls s2 = (calls s ++ [Play i; Play i])%list /\
  isPlaying s2 = false.
Proof.
  intros Hp Hv Hpr s2. subst s2.
  destruct (playVideo_on_video env s i v Hp Hv Hpr) as (E1 & E2 & E3 & E4 & _).
  rewrite Hv in E4.
  destruct (playVideo_on_video env (playVideo env s) i v E3 E4 Hpr)
    as (F1 & F2 & F3 & _).
  unfold isPlaying. rewrite F1, F2, F3, E1, E2, <- app_assoc. repeat split.
Qed.

(** X15.  From fulfilment to pause.  When the promise of a [play()] call is
    fulfilled the player counts as playing and carries is-playing and
    has-started, and the chain ends fulfilled; [pauseVideo()] then
    pauses the video element, clears the flag and removes is-playing,
    while has-started stays. *)
Theorem fulfilled_play_then_pause
    (env : Env) (w : Window) (s : t) (i : nat) (v : VideoState) :
  _isPlaying s = false ->
  getCurrentVideo s = Some (i, HTMLVideoElement v) ->
  play_returns_promise env = true ->
  let r := settlePlay Fulfilled (w, playVideo env s) in
  let playing := snd (snd r) in
  let paused := pauseVideo playing in
  fst r = Fulfilled /\
  isPlaying playing = true /\
  classList playing = classList s ∪ {["is-playing"]} ∪ {["has-started"]} /\
  isPlaying paused = false /\
  ("is-playing" ∉ classList paused) /\
  ("has-started" ∈ classList paused) /\
  calls paused = (calls s ++ [Play i; Pause i])%list.
Proof.
  intros Hp Hv Hpr r playing paused.
  destruct (playVideo_on_video env s i v Hp Hv Hpr) as (E1 & E2 & E3 & E4 & E5 & E6).
  rewrite Hv in E4.
  assert (Hr : r = (Fulfilled,
                    (w, classList_add "has-started"
                          (classList_add "is-playing"
                             (set_isPlaying true
                                (set_pendingPlay (pendingPlay s) (playVideo env s))))))).
  { subst r. unfold settlePlay. cbn [snd fst]. rewrite E1. reflexivity. }
  subst paused playing. rewrite Hr. cbn [fst snd].
  split; [reflexivity|]. split; [reflexivity|].
  split; [cbn; now rewrite E5|].
  unfold pauseVideo.
  cbn [_isPlaying classList_add set_classList set_isPlaying negb].
  change (getCurrentVideo (classList_add ?a (classList_add ?b (set_isPlaying ?c
            (set_pendingPlay ?d ?x))))) with (getCurrentVideo x).
  rewrite E4. cbn. rewrite E2, E5, <- app_assoc.
  repeat split; set_solver.
Qed.

Lemma postMessage_frame (i : nat) (c : YtCommand) (s : t) :
  attributes (postMessage i c s) = attributes s /\
  children (postMessage i c s) = children s /\
  _observer (postMessage i c s) = _observer s /\
  _isLoaded (postMessage i c s) = _isLoaded s /\
  _isPlaying (postMessage i c s) = _isPlaying s /\
  classList (postMessage i c s) = classList s /\
  this (postMessage i c s) = this s.
Proof.
  unfold postMessage. destruct (iframe_at i s) as [f|]; [|repeat split].
  destruct (f_contentWindow f); repeat split.
Qed.

Lemma update_iframe_attributes (i : nat) (g : IframeState -> IframeState) (s : t) :
  attributes (update_iframe i g s) = attributes s /\
  _isPlaying (update_iframe i g s) = _isPlaying s /\
  this (update_iframe i g s) = this s.
Proof.
  unfold update_iframe, set_kind.
  destruct (iframe_at i s); [|repeat split].
  destruct (children s !! i); repeat split.
Qed.

Lemma unloaded_attributes (lazy : bool) (w : Window) (s : t) :
  attributes (snd (unloaded lazy (w, s))) = attributes s /\
  console (fst (unloaded lazy (w, s))) = console w.
Proof.
  unfold unloaded. cbn [_observer classList_remove set_classList set_isLoaded].
  destruct lazy, (_observer s); split; reflexivity.
Qed.

(** What [reset] does to the attributes: nothing, unless autoplay is
    to be disabled, in which case it saves data-autoplay (or the empty
    string) under data-autoplay-original and writes false. *)
Lemma reset_attributes (options : ResetOptions) (w : Window) (s : t) :
  attributes (snd (reset options (w, s))) =
    if Js.truthy (snd (reset_options options))
    then <["data-autoplay" := "false"]>
           (<["data-autoplay-original" :=
                Js.sor_lit (attributes s !! "data-autoplay") ""]> (attributes s))
    else attributes s.
Proof.
  unfold reset. destruct (reset_options options) as [unload disableAutoplay].
  cbn [snd].
  set (s0 := if _isPlaying s then pauseVideo s else s).
  assert (H0 : attributes s0 = attributes s).
  { subst s0. destruct (_isPlaying s); [|reflexivity].
    now destruct (pauseVideo_frame s) as (_ & _ & _ & -> & _). }
  clearbody s0.
  set (s1 := classList_remove "has-started"
               (classList_remove "is-playing" (set_isPlaying false s0))).
  assert (H1 : attributes s1 = attributes s) by (subst s1; exact H0).
  clearbody s1. clear s0 H0.
  set (s2 := if Js.truthy disableAutoplay then _ else s1).
  set (final := if Js.truthy disableAutoplay
                then <["data-autoplay" := "false"]>
                       (<["data-autoplay-original" :=
                            Js.sor_lit (attributes s !! "data-autoplay") ""]> (attributes s))
                else attributes s).
  assert (H2 : attributes s2 = final).
  { subst s2 final. destruct (Js.truthy disableAutoplay); [|exact H1].
    unfold dataset_set. cbn. now rewrite H1. }
  clearbody s2 final. clear s1 H1.
  set (r := match getCurrentVideo s with
            | Some (i, HTMLVideoElement _) => _
            | Some (i, HTMLIFrameElement _) => _
            | _ => (w, s2)
            end).
  assert (H3 : attributes (snd r) = final).
  { subst r. destruct (getCurrentVideo s) as [[i [v|f|]]|]; try exact H2.
    - destruct (Js.truthy unload).
      + destruct (unloaded_attributes
                    (Js.seq_lit (attributes s !! "data-lazy-load") "true") w
                    (call (Load i)
                       (update_video i (with_v_src "")
                          (update_video i (with_v_currentTime 0) (call (Pause i) s2)))))
          as [-> _].
        cbn.
        destruct (update_video_frame i (with_v_src "")
                    (update_video i (with_v_currentTime 0) (call (Pause i) s2)))
          as (_ & _ & _ & _ & -> & _).
        destruct (update_video_frame i (with_v_currentTime 0) (call (Pause i) s2))
          as (_ & _ & _ & _ & -> & _).
        exact H2.
      + cbn [snd].
        destruct (update_video_frame i (with_v_currentTime 0) (call (Pause i) s2))
          as (_ & _ & _ & _ & -> & _).
        exact H2.
    - destruct (String.eqb (videoType s) "youtube"); [|exact H2].
      destruct (Js.truthy unload).
      + destruct (unloaded_attributes
                    (Js.seq_lit (attributes s !! "data-lazy-load") "true") w
                    (update_iframe i (with_f_src "")
                       (postMessage i YtSeekToStart (postMessage i YtStopVideo s2))))
          as [-> _].
        destruct (update_iframe_attributes i (with_f_src "")
                    (postMessage i YtSeekToStart (postMessage i YtStopVideo s2)))
          as (-> & _).
        destruct (postMessage_frame i YtSeekToStart (postMessage i YtStopVideo s2))
          as (-> & _).
        destruct (postMessage_frame i YtStopVideo s2) as (-> & _).
        exact H2.
      + cbn [snd].
        destruct (postMessage_frame i YtSeekToStart (postMessage i YtStopVideo s2))
          as (-> & _).
        destruct (postMessage_frame i YtStopVideo s2) as (-> & _).
        exact H2. }
  clearbody r. destruct r as [w3 s3]. cbn [snd] in H3.
  destruct (Js.seq_lit (attributes s !! "data-lazy-load") "true"); [|exact H3].
  destruct (querySelector "mk-video__container" (children s3)) as [[c e]|]; [|exact H3].
  cbn [snd]. now destruct (set_display_frame c "none" s3) as (_ & _ & _ & _ & -> & _).
Qed.

Lemma pauseVideo_on_video (s : t) (i : nat) (v : VideoState) :
  _isPlaying s = true ->
  getCurrentVideo s = Some (i, HTMLVideoElement v) ->
  pauseVideo s = classList_remove "is-playing" (set_isPlaying false (call (Pause i) s)).
Proof. intros Hp Hv. unfold pauseVideo. now rewrite Hp, Hv. Qed.

(** X16.  Reset without unloading.  When the [unload] option is not truthy,
    [reset] on a player whose element is a video rewinds that video and
    leaves its source, the loaded flag, the is-loaded class and the
    observer as they were; no observer is constructed and nothing is
    logged.  The player ends not playing, without is-playing and
    has-started.  The video element is paused once, or twice if the
    player was playing: once by [pauseVideo] and once by [reset]
    itself. *)
Theorem reset_without_unload_rewinds
    (options : ResetOptions) (w : Window) (s : t) (i : nat) (v : VideoState) :
  Js.truthy (fst (reset_options options)) = false ->
  getCurrentVideo s = Some (i, HTMLVideoElement v) ->
  let r := reset options (w, s) in
  fst r = w /\
  video_at i (snd r) = Some (with_v_currentTime 0 v) /\
  _isLoaded (snd r) = _isLoaded s /\
  _observer (snd r) = _observer s /\
  isPlaying (snd r) = false /\
  classList (snd r) = classList s ∖ {["is-playing"]} ∖ {["has-started"]} /\
  calls (snd r) =
    (calls s ++ (if _isPlaying s then [Pause i; Pause i] else [Pause i]))%list.
Proof.
  intros Hun Hv r. subst r. unfold reset.
  destruct (reset_options options) as [unload disableAutoplay]. cbn [fst] in Hun.
  rewrite Hv, Hun.
  pose proof (getCurrentVideo_video_at _ _ _ Hv) as Hat.
  set (s0 := if _isPlaying s then pauseVideo s else s).
  assert (H0 : children s0 = children s /\ _isLoaded s0 = _isLoaded s /\
               _observer s0 = _observer s /\
               classList s0 ∖ {["is-playing"]} = classList s ∖ {["is-playing"]} /\
               calls s0 = (calls s ++ (if _isPlaying s then [Pause i] else []))%list).
  { subst s0. destruct (_isPlaying s) eqn:Hp.
    - rewrite (pauseVideo_on_video s i v Hp Hv). cbn.
      repeat split. set_solver.
    - rewrite app_nil_r. repeat split. }
  clearbody s0. destruct H0 as (Ec0 & El0 & Eo0 & Ecl0 & Eca0).
  set (s1 := classList_remove "has-started"
               (classList_remove "is-playing" (set_isPlaying false s0))).
  assert (H1 : children s1 = children s /\ _isLoaded s1 = _isLoaded s /\
               _observer s1 = _observer s /\ _isPlaying s1 = false /\
               classList s1 = classList s ∖ {["is-playing"]} ∖ {["has-started"]} /\
               calls s1 = (calls s ++ (if _isPlaying s then [Pause i] else []))%list).
  { subst s1. cbn. rewrite Ecl0. repeat split; assumption. }
  clearbody s1. clear s0 Ec0 El0 Eo0 Ecl0 Eca0.
  destruct H1 as (Ec1 & El1 & Eo1 & Ep1 & Ecl1 & Eca1).
  set (s2 := if Js.truthy disableAutoplay
             then dataset_set "data-autoplay" "false"
                    (dataset_set "data-autoplay-original"
                       (Js.sor_lit (attributes s1 !! "data-autoplay") "") s1)
             else s1).
  assert (H2 : children s2 = children s /\ _isLoaded s2 = _isLoaded s /\
               _observer s2 = _observer s /\ _isPlaying s2 = false /\
               classList s2 = classList s ∖ {["is-playing"]} ∖ {["has-started"]} /\
               calls s2 = (calls s ++ (if _isPlaying s then [Pause i] else []))%list).
  { subst s2. destruct (Js.truthy disableAutoplay); cbn; repeat split; assumption. }
  clearbody s2. clear s1 Ec1 El1 Eo1 Ep1 Ecl1 Eca1.
  destruct H2 as (Ec2 & El2 & Eo2 & Ep2 & Ecl2 & Eca2).
  set (s3 := update_video i (with_v_currentTime 0) (call (Pause i) s2)).
  assert (Hat3 : video_at i s3 = Some (with_v_currentTime 0 v)).
  { subst s3. apply video_at_update_video. unfold video_at in *. cbn.
    rewrite Ec2. exact Hat. }
  assert (H3 : _isLoaded s3 = _isLoaded s /\ _observer s3 = _observer s /\
               _isPlaying s3 = false /\
               classList s3 = classList s ∖ {["is-playing"]} ∖ {["has-started"]} /\
               calls s3 =
                 (calls s ++ (if _isPlaying s then [Pause i; Pause i] else [Pause i]))%list).
  { subst s3.
    destruct (update_video_frame i (with_v_currentTime 0) (call (Pause i) s2))
      as (-> & -> & -> & -> & _ & _ & ->).
    cbn. rewrite Eca2, <- app_assoc.
    repeat split; try assumption. now destruct (_isPlaying s). }
  clearbody s3. destruct H3 as (El3 & Eo3 & Ep3 & Ecl3 & Eca3).
  unfold isPlaying.
  destruct (Js.seq_lit (attributes s !! "data-lazy-load") "true"); cbn [fst snd];
    [|repeat split; assumption].
  destruct (querySelector "mk-video__container" (children s3)) as [[c e]|]; cbn [fst snd];
    [|repeat split; assumption].
  destruct (set_display_frame c "none" s3) as (-> & -> & -> & -> & _ & _ & ->).
  rewrite video_at_set_display. repeat split; assumption.
Qed.

(** Disabling autoplay twice loses the original.  The second [reset]
    saves the false the first one wrote, so [restoreAutoplay] then
    leaves data-autoplay at false whatever it was to begin with. *)
Lemma disable_autoplay_twice
    (options : ResetOptions) (w : Window) (s : t) :
  Js.truthy (snd (reset_options options)) = true ->
  let r := restoreAutoplay (snd (reset options (reset options (w, s)))) in
  attributes r !! "data-autoplay" = Some "false" /\
  attributes r !! "data-autoplay-original" = None.
Proof.
  intros Hd r. subst r.
  pose proof (reset_attributes options w s) as H1. rewrite Hd in H1.
  destruct (reset options (w, s)) as [w1 s1]. cbn [snd] in H1.
  pose proof (reset_attributes options w1 s1) as H2. rewrite Hd in H2.
  destruct (reset options (w1, s1)) as [w2 s2]. cbn [snd] in *.
  assert (Hap : attributes s1 !! "data-autoplay" = Some "false")
    by (rewrite H1; apply lookup_insert_eq).
  rewrite Hap in H2. change (Js.sor_lit (Some "false") "") with "false" in H2.
  unfold restoreAutoplay.
  assert (Ho : attributes s2 !! "data-autoplay-original" = Some "false").
  { rewrite H2. rewrite lookup_insert_ne by discriminate. apply lookup_insert_eq. }
  rewrite Ho. unfold removeAttribute, dataset_set. cbn. split.
  - rewrite lookup_delete_ne by discriminate. apply lookup_insert_eq.
  - apply lookup_delete_eq.
Qed.

(** X17.  Disabling autoplay and restoring it.  After a [reset] that
    disables autoplay, [restoreAutoplay] removes the saved copy and
    writes back what [reset] saved: the former data-autoplay, or the
    empty string where it was missing or empty.  So a player that had a
    non-empty data-autoplay and no saved copy gets exactly its former
    attributes back, while one that had no data-autoplay ends with an
    empty one.  Disabling twice before restoring loses the original:
    data-autoplay is then left at false. *)
Theorem disable_then_restore_autoplay (options : ResetOptions) (w : Window) (s : t) :
  Js.truthy (snd (reset_options options)) = true ->
  let r := restoreAutoplay (snd (reset options (w, s))) in
  attributes r =
    <["data-autoplay" := Js.sor_lit (attributes s !! "data-autoplay") ""]>
      (delete "data-autoplay-original" (attributes s)) /\
  (Js.struthy (attributes s !! "data-autoplay") = true ->
   attributes s !! "data-autoplay-original" = None ->
   attributes r = attributes s) /\
  (attributes s !! "data-autoplay" = None ->
   attributes r !! "data-autoplay" = Some "") /\
  attributes (restoreAutoplay (snd (reset options (reset options (w, s)))))
    !! "data-autoplay" = Some "false".
Proof.
  intros Hd r.
  assert (Hr : attributes r =
                 <["data-autoplay" := Js.sor_lit (attributes s !! "data-autoplay") ""]>
                   (delete "data-autoplay-original" (attributes s))).
  { subst r. unfold restoreAutoplay.
    pose proof (reset_attributes options w s) as Ha. rewrite Hd in Ha.
    destruct (reset options (w, s)) as [w1 s1]. cbn [snd] in *.
    rewrite Ha. rewrite lookup_insert_ne by discriminate.
    rewrite lookup_insert_eq. unfold removeAttribute, dataset_set. cbn. rewrite Ha.
    apply map_eq. intros k.
    destruct (decide (k = "data-autoplay-original")) as [->|Hk1].
    - rewrite lookup_delete_eq, lookup_insert_ne by discriminate.
      now rewrite lookup_delete_eq.
    - rewrite lookup_delete_ne by congruence.
      destruct (decide (k = "data-autoplay")) as [->|Hk2].
      + now rewrite !lookup_insert_eq.
      + rewrite !lookup_insert_ne by congruence.
        now rewrite lookup_delete_ne by congruence. }
  split; [exact Hr|]. split; [|split].
  - intros Hnonempty Hnone. rewrite Hr.
    rewrite delete_id by exact Hnone.
    destruct (attributes s !! "data-autoplay") as [a|] eqn:Ha; [|discriminate].
    unfold Js.sor_lit, Js.struthy in *. cbn in *.
    destruct (String.eqb a "") eqn:He; [discriminate|].
    cbn. now apply insert_id.
  - intros Hnone. rewrite Hr, Hnone. now rewrite lookup_insert_eq.
  - now apply disable_autoplay_twice.
Qed.

(** What neither loading, arming nor playing touches: the click
    listeners and the abort signal. *)
Local Abbreviation same_listeners s s' :=
  (clickListeners s' = clickListeners s /\ _aborted s' = _aborted s).

Lemma same_listeners_refl (s : t) : same_listeners s s.
Proof. split; reflexivity. Qed.

Lemma same_listeners_trans (s1 s2 s3 : t) :
  same_listeners s1 s2 -> same_listeners s2 s3 -> same_listeners s1 s3.
Proof. intros [-> ->] [-> ->]. split; reflexivity. Qed.

Lemma update_video_listeners (i : nat) (g : VideoState -> VideoState) (s : t) :
  same_listeners s (update_video i g s).
Proof.
  unfold update_video, set_kind.
  destruct (video_at i s); [|split; reflexivity].
  destruct (children s !! i); split; reflexivity.
Qed.

Lemma update_iframe_listeners (i : nat) (g : IframeState -> IframeState) (s : t) :
  same_listeners s (update_iframe i g s).
Proof.
  unfold update_iframe, set_kind.
  destruct (iframe_at i s); [|split; reflexivity].
  destruct (children s !! i); split; reflexivity.
Qed.

Lemma set_display_listeners (c : nat) (d : string) (s : t) :
  same_listeners s (set_display c d s).
Proof.
  unfold set_display. destruct (children s !! c); split; reflexivity.
Qed.

Lemma postMessage_listeners (i : nat) (c : YtCommand) (s : t) :
  same_listeners s (postMessage i c s).
Proof.
  unfold postMessage.
  destruct (iframe_at i s) as [f|]; [|split; reflexivity].
  destruct (f_contentWindow f); split; reflexivity.
Qed.

Lemma loadVideo_listeners (env : Env) (w : Window) (s : t) :
  same_listeners s (snd (loadVideo env (w, s))).
Proof.
  unfold loadVideo. cbn [snd]. destruct (_isLoaded s); [apply same_listeners_refl|].
  assert (H : same_listeners s
                (snd (if String.eqb (videoType s) "youtube"
                      then loadYouTube env (w, s) else loadMP4 env (w, s)))).
  { destruct (String.eqb (videoType s) "youtube").
    - unfold loadYouTube.
      destruct (negb (Js.struthy (attributes s !! "data-youtube-desktop")));
        [apply same_listeners_refl|].
      destruct (querySelector "mk-video__iframe" (children s)) as [[i [cn sd [|f|]]]|];
        try apply same_listeners_refl.
      destruct (pick_source (isMobile env) (attributes s !! "data-youtube-mobile")
                  (attributes s !! "data-youtube-desktop")) as [ysrc|];
        [|apply same_listeners_refl].
      destruct (_ || _); [|apply same_listeners_refl].
      apply update_iframe_listeners.
    - unfold loadMP4.
      destruct (negb (Js.struthy (attributes s !! "data-video-desktop")));
        [apply same_listeners_refl|].
      destruct (querySelector "mk-video__element" (children s)) as [[i [cn sd [v| |]]]|];
        try apply same_listeners_refl.
      destruct (pick_source (isMobile env) (attributes s !! "data-video-mobile")
                  (attributes s !! "data-video-desktop")) as [vsrc|];
        [|apply same_listeners_refl].
      set (s1 := if String.eqb (current_source env v) ""
                    || String.eqb (current_source env v) ""
                    || negb (String.eqb (current_source env v) vsrc)
                 then call (Load i) (update_video i (with_v_src vsrc) s) else s).
      assert (H1 : same_listeners s s1).
      { subst s1. destruct (_ || _); [|apply same_listeners_refl].
        apply (update_video_listeners i (with_v_src vsrc) s). }
      clearbody s1.
      destruct (pick_source (isMobile env) (attributes s !! "data-poster-mobile")
                  (attributes s !! "data-poster-desktop")) as [psrc|]; [|exact H1].
      destruct (String.eqb psrc ""); [exact H1|]. cbn [snd].
      eapply same_listeners_trans; [exact H1|apply update_video_listeners]. }
  destruct (if String.eqb (videoType s) "youtube"
            then loadYouTube env (w, s) else loadMP4 env (w, s)) as [w1 s1].
  exact H.
Qed.

Lemma playVideo_listeners (env : Env) (s : t) : same_listeners s (playVideo env s).
Proof.
  unfold playVideo. destruct (_isPlaying s); [apply same_listeners_refl|].
  destruct (getCurrentVideo s) as [[i k]|]; [|apply same_listeners_refl].
  set (s1 := match querySelector "mk-video__container" (children s) with
             | Some (c, _) => set_display c "" s
             | None => s
             end).
  assert (H1 : same_listeners s s1).
  { subst s1. destruct (querySelector "mk-video__container" (children s)) as [[c e]|];
      [apply set_display_listeners|apply same_listeners_refl]. }
  clearbody s1. destruct k as [v|f|]; [| |exact H1].
  - destruct (play_returns_promise env); exact H1.
  - destruct (String.eqb (videoType s1) "youtube"); [|exact H1].
    eapply same_listeners_trans; [exact H1|].
    apply (postMessage_listeners i YtPlayVideo s1).
Qed.

Lemma connectedCallback_listeners (env : Env) (w : Window) (s : t) :
  same_listeners (bindPlayButtonEvents s) (snd (connectedCallback env (w, s))).
Proof.
  unfold connectedCallback.
  set (s0 := bindPlayButtonEvents s). clearbody s0.
  set (l := if Js.seq_lit (attributes s !! "data-lazy-load") "true"
            then setupIntersectionObserver (w, s0) else loadVideo env (w, s0)).
  assert (Hl : same_listeners s0 (snd l)).
  { subst l. destruct (Js.seq_lit (attributes s !! "data-lazy-load") "true");
      [split; reflexivity|apply loadVideo_listeners]. }
  clearbody l. destruct l as [w1 s1]. cbn [snd] in Hl.
  destruct (_ && _); cbn [snd]; [|exact Hl].
  eapply same_listeners_trans; [exact Hl|apply playVideo_listeners].
Qed.

(** X18.  Play buttons across the lifecycle.  Connecting a player whose
    abort signal has not fired adds one click listener per play
    button, after those already there.  Disconnecting fires the signal,
    and the signal is never replaced: a player that is connected again
    after a disconnect has no click listener at all. *)
Theorem reconnect_binds_no_play_buttons (env : Env) (w : Window) (s : t) :
  (_aborted s = false ->
   clickListeners (snd (connectedCallback env (w, s))) =
     (clickListeners s ++
        querySelectorAll_from 0 "mk-video__play-button" (children s))%list) /\
  clickListeners (snd (connectedCallback env (w, disconnectedCallback s))) = [].
Proof.
  split.
  - intros Ha. destruct (connectedCallback_listeners env w s) as [-> _].
    unfold bindPlayButtonEvents. now rewrite Ha.
  - destruct (connectedCallback_listeners env w (disconnectedCallback s)) as [-> _].
    unfold bindPlayButtonEvents, disconnectedCallback. reflexivity.
Qed.

Lemma getCurrentVideo_iframe_at (s : t) (i : nat) (f : IframeState) :
  getCurrentVideo s = Some (i, HTMLIFrameElement f) -> iframe_at i s = Some f.
Proof.
  unfold getCurrentVideo, querySelector, iframe_at.
  destruct (querySelector_from 0 "mk-video__element" (children s)) as [[j e]|] eqn:Hq;
    [|discriminate].
  destruct (querySelector_from_lookup _ _ _ _ _ Hq) as [_ Hl].
  rewrite Nat.sub_0_r in Hl.
  destruct (kind e) eqn:Hk; intros [= <- <-] || discriminate.
  now rewrite Hl, Hk.
Qed.

Lemma pauseVideo_on_iframe (s : t) (i : nat) (f : IframeState) :
  getCurrentVideo s = Some (i, HTMLIFrameElement f) ->
  String.eqb (videoType s) "youtube" = false ->
  calls (pauseVideo s) = calls s.
Proof.
  intros Hv Ht. unfold pauseVideo. destruct (_isPlaying s); [|reflexivity].
  cbn [negb]. rewrite Hv, Ht. reflexivity.
Qed.

(** X19.  Resetting a player whose element is an iframe.  With the unload
    option set and the player typed youtube, the iframe's [src] is
    emptied and the player is no longer loaded.  A player of any other
    type is not treated as YouTube: its iframe keeps its source, the
    loaded flag stays as it was, and no message is posted, so that
    unloading does nothing to it. *)
Theorem reset_unload_iframe (w : Window) (s : t) (i : nat) (f : IframeState) :
  getCurrentVideo s = Some (i, HTMLIFrameElement f) ->
  let r := reset (OptBoolean true) (w, s) in
  if String.eqb (videoType s) "youtube"
  then iframe_at i (snd r) = Some (with_f_src "" f) /\
       _isLoaded (snd r) = false /\
       ("is-loaded" ∉ classList (snd r))
  else iframe_at i (snd r) = Some f /\
       _isLoaded (snd r) = _isLoaded s /\
       calls (snd r) = calls s /\
       fst r = w.
Proof.
  intros Hv r. subst r. unfold reset. cbn [reset_options Js.truthy].
  rewrite Hv.
  pose proof (getCurrentVideo_iframe_at _ _ _ Hv) as Hat.
  set (s1 := classList_remove "has-started"
               (classList_remove "is-playing"
                  (set_isPlaying false (if _isPlaying s then pauseVideo s else s)))).
  assert (H1 : children s1 = children s /\ _isLoaded s1 = _isLoaded s /\
               (String.eqb (videoType s) "youtube" = false -> calls s1 = calls s)).
  { subst s1. cbn. destruct (_isPlaying s); [|repeat split].
    destruct (pauseVideo_frame s) as (Hc & _ & Hl & _).
    repeat split; try assumption. intros Ht. now apply (pauseVideo_on_iframe s i f). }
  clearbody s1. destruct H1 as (Ec1 & El1 & Eca1).
  destruct (String.eqb (videoType s) "youtube") eqn:Ht.
  - set (s2 := postMessage i YtSeekToStart (postMessage i YtStopVideo s1)).
    assert (H2 : children s2 = children s).
    { subst s2.
      destruct (postMessage_frame i YtSeekToStart (postMessage i YtStopVideo s1))
        as (_ & -> & _).
      destruct (postMessage_frame i YtStopVideo s1) as (_ & -> & _). exact Ec1. }
    clearbody s2.
    assert (Hat2 : iframe_at i (update_iframe i (with_f_src "") s2) = Some (with_f_src "" f)).
    { apply iframe_at_update_iframe. unfold iframe_at in *. now rewrite H2. }
    pose proof (unloaded_effect (Js.seq_lit (attributes s !! "data-lazy-load") "true") w
                  (update_iframe i (with_f_src "") s2)) as Hun.
    destruct (unloaded (Js.seq_lit (attributes s !! "data-lazy-load") "true")
                (w, update_iframe i (with_f_src "") s2)) as [w3 s3].
    cbn [fst snd] in Hun. destruct Hun as (Hl3 & Hcl3 & Hc3 & _).
    assert (Hat3 : iframe_at i s3 = Some (with_f_src "" f)).
    { unfold iframe_at in *. rewrite Hc3. exact Hat2. }
    destruct (Js.seq_lit (attributes s !! "data-lazy-load") "true"); cbn [fst snd];
      [|repeat split; assumption].
    destruct (querySelector "mk-video__container" (children s3)) as [[c e]|];
      cbn [fst snd]; [|repeat split; assumption].
    destruct (set_display_frame c "none" s3) as (_ & -> & _ & -> & _).
    rewrite iframe_at_set_display. repeat split; assumption.
  - assert (Hat1 : iframe_at i s1 = Some f).
    { unfold iframe_at in *. now rewrite Ec1. }
    specialize (Eca1 eq_refl).
    destruct (Js.seq_lit (attributes s !! "data-lazy-load") "true"); cbn [fst snd];
      [|repeat split; assumption].
    destruct (querySelector "mk-video__container" (children s1)) as [[c e]|];
      cbn [fst snd]; [|repeat split; assumption].
    destruct (set_display_frame c "none" s1) as (_ & -> & _ & _ & _ & _ & ->).
    rewrite iframe_at_set_display. repeat split; assumption.
Qed.

End MkVideoPlayer_more.

Lemma loadVideo_without_source_witness :
  let s := MkVideoPlayer.mp4_player ∅ in
  let r := MkVideoPlayer.loadVideo MkVideoPlayer.desktop (Browser.fresh_window, s) in
  Browser.console (fst r) = [Browser.Warn "MkVideoPlayer: No video source provided"] /\
  MkVideoPlayer.children (snd r) = MkVideoPlayer.mp4_subtree /\
  MkVideoPlayer._isLoaded (snd r) = true.
Proof.
  intros s r.
  destruct (loadVideo_without_source MkVideoPlayer.desktop Browser.fresh_window s)
    as (Hconsole & Hchildren & _ & Hloaded & _).
  - reflexivity.
  - vm_compute. reflexivity.
  - split; [exact Hconsole|]. split; [exact Hchildren|exact Hloaded].
Defined.

Lemma observerCallback_loads_once_witness :
  let attrs := {[ "data-lazy-load" := "true"; "data-video-desktop" := "/videos/a.mp4" ]} in
  let ws := MkVideoPlayer.connectedCallback MkVideoPlayer.desktop
              (Browser.fresh_window, MkVideoPlayer.mp4_player attrs) in
  let r := MkVideoPlayer.observerCallback MkVideoPlayer.desktop
             [MkVideoPlayer.in_view; MkVideoPlayer.in_view] (fst ws, snd ws) in
  MkVideoPlayer._isLoaded (snd r) = true /\
  Browser.io_observing <$> MkVideoPlayer._observer (snd r) = Some [] /\
  Browser.ioCount (fst r) = 1.
Proof.
  intros attrs ws r.
  destruct (observerCallback_loads_once MkVideoPlayer.desktop
              [MkVideoPlayer.in_view; MkVideoPlayer.in_view] (fst ws) (snd ws))
    as [_ Hload].
  destruct Hload as (Hloaded & Hobserver & Hcount).
  - reflexivity.
  - constructor. reflexivity.
  - split; [exact Hloaded|]. split; [exact Hobserver|exact Hcount].
Defined.

Lemma play_twice_before_settling_witness :
  let s := MkVideoPlayer.mp4_player {[ "data-video-desktop" := "/videos/a.mp4" ]} in
  let s2 := MkVideoPlayer.playVideo MkVideoPlayer.desktop
              (MkVideoPlayer.playVideo MkVideoPlayer.desktop s) in
  MkVideoPlayer.pendingPlay s2 = 2 /\
  MkVideoPlayer.calls s2 = [MkVideoPlayer.Play 1; MkVideoPlayer.Play 1] /\
  MkVideoPlayer.isPlaying s2 = false.
Proof.
  intros s.
  apply (play_twice_before_settling MkVideoPlayer.desktop s 1
           {| MkVideoPlayer.v_src := None; MkVideoPlayer.v_currentSrc := "";
              MkVideoPlayer.v_poster := None; MkVideoPlayer.v_currentTime := 0 |}).
  - reflexivity.
  - vm_compute. reflexivity.
  - reflexivity.
Defined.

Lemma fulfilled_play_then_pause_witness :
  let s := MkVideoPlayer.mp4_player {[ "data-video-desktop" := "/videos/a.mp4" ]} in
  let r := MkVideoPlayer.settlePlay MkVideoPlayer.Fulfilled
             (Browser.fresh_window, MkVideoPlayer.playVideo MkVideoPlayer.desktop s) in
  let paused := MkVideoPlayer.pauseVideo (snd (snd r)) in
  MkVideoPlayer.isPlaying (snd (snd r)) = true /\
  MkVideoPlayer.isPlaying paused = false /\
  ("has-started" ∈ MkVideoPlayer.classList paused) /\
  MkVideoPlayer.calls paused = [MkVideoPlayer.Play 1; MkVideoPlayer.Pause 1].
Proof.
  intros s r paused.
  destruct (fulfilled_play_then_pause MkVideoPlayer.desktop Browser.fresh_window s 1
              {| MkVideoPlayer.v_src := None; MkVideoPlayer.v_currentSrc := "";
                 MkVideoPlayer.v_poster := None; MkVideoPlayer.v_currentTime := 0 |})
    as (_ & Hplaying & _ & Hpaused & _ & Hstarted & Hcalls).
  - reflexivity.
  - vm_compute. reflexivity.
  - reflexivity.
  - split; [exact Hplaying|]. split; [exact Hpaused|]. split; [exact Hstarted|exact Hcalls].
Defined.

Lemma reset_without_unload_rewinds_witness :
  let s := MkVideoPlayer.set_isLoaded true
             (MkVideoPlayer.created 7 {["is-loaded"; "has-started"]} ∅
                [ {| MkVideoPlayer.className := ["mk-video__element"];
                     MkVideoPlayer.style_display := None;
                     MkVideoPlayer.kind :=
                       MkVideoPlayer.HTMLVideoElement
                         {| MkVideoPlayer.v_src := Some "/videos/a.mp4";
                            MkVideoPlayer.v_currentSrc := "/videos/a.mp4";
                            MkVideoPlayer.v_poster := None;
                            MkVideoPlayer.v_currentTime := 3 |} |} ]) in
  let r := MkVideoPlayer.reset MkVideoPlayer.OptUndefined (Browser.fresh_window, s) in
  MkVideoPlayer.video_at 0 (snd r) =
    Some {| MkVideoPlayer.v_src := Some "/videos/a.mp4";
            MkVideoPlayer.v_currentSrc := "/videos/a.mp4";
            MkVideoPlayer.v_poster := None;
            MkVideoPlayer.v_currentTime := 0 |} /\
  MkVideoPlayer._isLoaded (snd r) = true /\
  MkVideoPlayer.calls (snd r) = [MkVideoPlayer.Pause 0].
Proof.
  intros s r.
  destruct (reset_without_unload_rewinds MkVideoPlayer.OptUndefined Browser.fresh_window s 0
              {| MkVideoPlayer.v_src := Some "/videos/a.mp4";
                 MkVideoPlayer.v_currentSrc := "/videos/a.mp4";
                 MkVideoPlayer.v_poster := None;
                 MkVideoPlayer.v_currentTime := 3 |})
    as (_ & Hvideo & Hloaded & _ & _ & _ & Hcalls).
  - reflexivity.
  - vm_compute. reflexivity.
  - split; [exact Hvideo|]. split; [exact Hloaded|exact Hcalls].
Defined.

Lemma disable_then_restore_autoplay_witness :
  let s := MkVideoPlayer.mp4_player {[ "data-autoplay" := "true" ]} in
  let r := MkVideoPlayer.restoreAutoplay
             (snd (MkVideoPlayer.reset
                     (MkVideoPlayer.OptObject Js.VUndefined (Js.VBool true))
                     (Browser.fresh_window, s))) in
  MkVideoPlayer.attributes r = MkVideoPlayer.attributes s.
Proof.
  intros s r.
  destruct (disable_then_restore_autoplay
              (MkVideoPlayer.OptObject Js.VUndefined (Js.VBool true))
              Browser.fresh_window s) as (_ & Hsame & _).
  - reflexivity.
  - apply Hsame; vm_compute; reflexivity.
Defined.

Lemma reconnect_binds_no_play_buttons_witness :
  let s := MkVideoPlayer.created 7 ∅ {[ "data-lazy-load" := "true" ]}
             ({| MkVideoPlayer.className := ["mk-video__play-button"];
                 MkVideoPlayer.style_display := None;
                 MkVideoPlayer.kind := MkVideoPlayer.HTMLElement |}
              :: MkVideoPlayer.mp4_subtree) in
  let r := MkVideoPlayer.connectedCallback MkVideoPlayer.desktop (Browser.fresh_window, s) in
  MkVideoPlayer.clickListeners (snd r) = [0] /\
  MkVideoPlayer.clickListeners
    (snd (MkVideoPlayer.connectedCallback MkVideoPlayer.desktop
            (fst r, MkVideoPlayer.disconnectedCallback (snd r)))) = [].
Proof.
  intros s r. split.
  - apply (reconnect_binds_no_play_buttons MkVideoPlayer.desktop Browser.fresh_window s).
    reflexivity.
  - apply (reconnect_binds_no_play_buttons MkVideoPlayer.desktop (fst r) (snd r)).
Defined.

Lemma reset_unload_iframe_witness :
  let s := MkVideoPlayer.set_isLoaded true
             (MkVideoPlayer.created 7 {["is-loaded"]} {[ "data-video-type" := "youtube" ]}
                [ {| MkVideoPlayer.className := ["mk-video__element"; "mk-video__iframe"];
                     MkVideoPlayer.style_display := None;
                     MkVideoPlayer.kind :=
                       MkVideoPlayer.HTMLIFrameElement
                         {| MkVideoPlayer.f_src := Some "https://www.youtube.com/embed/v";
                            MkVideoPlayer.f_contentWindow := true |} |} ]) in
  let r := MkVideoPlayer.reset (MkVideoPlayer.OptBoolean true) (Browser.fresh_window, s) in
  MkVideoPlayer.iframe_at 0 (snd r) =
    Some {| MkVideoPlayer.f_src := Some "";
            MkVideoPlayer.f_contentWindow := true |} /\
  MkVideoPlayer._isLoaded (snd r) = false /\
  ("is-loaded" ∉ MkVideoPlayer.classList (snd r)).
Proof.
  intros s r.
  apply (reset_unload_iframe Browser.fresh_window s 0
           {| MkVideoPlayer.f_src := Some "https://www.youtube.com/embed/v";
              MkVideoPlayer.f_contentWindow := true |}).
  vm_compute. reflexivity.
Defined.

(** ** Product description: the overflow check, toggling and the
    life cycle *)
Section ProductDescriptionBlock_more.
Import ProductDescriptionBlock.
Local Open Scope float_scope.

(** Everything [#updateOverflowState] does to a block that holds its
    content and its toggle, in terms of whether the content overflows
    the collapsed height. *)
Lemma updateOverflowState_cases (lay : Layout) (s : t) (c : Content) (g : Toggle) :
  content s = Some c -> toggle s = Some g ->
  let s' := updateOverflowState lay s in
  let over := negb (_collapsedHeight s <=? 0)
              && (_collapsedHeight s + 1 <? scrollHeight lay) in
  let stays := over && _expanded s && negb (hidden g) in
  _expanded s' = stays /\
  toggle s' = Some {| hidden := negb over;
                      aria_expanded := Some (if stays then "true" else "false") |} /\
  attributes s' !! "data-has-overflow" = Some (if over then "true" else "false") /\
  attributes s' !! "data-expanded" =
    (if stays then attributes s !! "data-expanded" else Some "false") /\
  content s' =
    Some (if stays then c
          else if over
               then {| style_maxHeight := Some (px (_collapsedHeight s)); scrollTop := 0 |}
               else {| style_maxHeight := Some none; scrollTop := scrollTop c |}) /\
  _collapsedHeight s' = _collapsedHeight s /\
  _lineClamp s' = _lineClamp s /\
  _resizeObserver s' = _resizeObserver s /\
  frameQueue s' = frameQueue s /\
  transitionEndListeners s' = transitionEndListeners s /\
  resizeListener s' = resizeListener s.
Proof.
  intros Hc Hg. cbv zeta. unfold updateOverflowState. rewrite Hc, Hg.
  destruct s as [ch ex lc ro co tg at_ fq tl rl]. cbn in Hc, Hg. subst co tg.
  cbn [_collapsedHeight _expanded].
  destruct (ch <=? 0); cbn [negb andb].
  - cbn. repeat split; now simplify_map_eq.
  - destruct (ch + 1 <? scrollHeight lay); cbn [negb andb].
    + destruct ex, (hidden g) eqn:Hh; cbn; rewrite ?Hh; cbn;
        repeat split; try (now simplify_map_eq).
    + cbn. repeat split; now simplify_map_eq.
Qed.

(** X25.  What the overflow check leaves behind.  After
    [#updateOverflowState] on a block that holds its content and its
    toggle, data-has-overflow is true exactly when the toggle is
    shown, aria-expanded spells the expanded flag, a hidden toggle
    goes with a block that is not expanded and has max-height none,
    and data-expanded spells the expanded flag if it did before. *)
Theorem overflow_check_outcome (lay : Layout) (s : t) (c : Content) (g : Toggle) :
  content s = Some c -> toggle s = Some g ->
  let s' := updateOverflowState lay s in
  exists g', toggle s' = Some g' /\
    attributes s' !! "data-has-overflow" = Some (if hidden g' then "false" else "true") /\
    aria_expanded g' = Some (if _expanded s' then "true" else "false") /\
    (hidden g' = true ->
     _expanded s' = false /\ style_maxHeight <$> content s' = Some (Some none)) /\
    (attributes s !! "data-expanded" = Some (if _expanded s then "true" else "false") ->
     attributes s' !! "data-expanded" = Some (if _expanded s' then "true" else "false")).
Proof.
  intros Hc Hg s'. subst s'.
  destruct (updateOverflowState_cases lay s c g Hc Hg)
    as (He & Ht & Ho & Hd & Hco & _).
  set (over := negb (_collapsedHeight s <=? 0)
               && (_collapsedHeight s + 1 <? scrollHeight lay)) in *.
  eexists. split; [exact Ht|]. cbn [hidden aria_expanded].
  rewrite He, Ho, Hd, Hco.
  destruct over; cbn [negb andb].
  - repeat split; try discriminate.
    destruct (_expanded s) eqn:Hex, (hidden g); cbn; auto.
  - repeat split.
Qed.

Lemma description_connected_effect (js : Js.Engine) (s : t) :
  content (connectedCallback js s) = content s /\
  toggle (connectedCallback js s) = toggle s /\
  _expanded (connectedCallback js s) = _expanded s /\
  _collapsedHeight (connectedCallback js s) = _collapsedHeight s /\
  frameQueue (connectedCallback js s) = (frameQueue s ++ [InitCallback])%list /\
  attributes (connectedCallback js s) =
    <["data-has-overflow" := "false"]> (<["data-expanded" := "false"]> (attributes s)) /\
  resizeListener (connectedCallback js s) = true /\
  _resizeObserver (connectedCallback js s) =
    Some (default false (_resizeObserver s)).
Proof.
  unfold connectedCallback. destruct s as [ch ex lc ro co tg at_ fq tl rl].
  cbn. destruct ro; cbn; repeat split.
Qed.


(** X26.  Reconnecting an expanded block.  [connectedCallback] writes
    data-expanded false without touching the expanded flag.  If the
    block was expanded with its toggle shown and still overflows when
    the deferred initialisation runs, the flag stays true and
    aria-expanded says true, while data-expanded is left at false and
    the content's inline max-height is not rewritten. *)
Theorem reconnect_while_expanded
    (js : Js.Engine) (lay : Layout) (s : t) (c : Content) (g : Toggle) :
  content s = Some c -> toggle s = Some g -> hidden g = false ->
  _expanded s = true -> frameQueue s = [] ->
  (calculateCollapsedHeight lay (connectedCallback js s) <=? 0) = false ->
  (calculateCollapsedHeight lay (connectedCallback js s) + 1 <? scrollHeight lay) = true ->
  let s' := animationFrame lay (connectedCallback js s) in
  _expanded s' = true /\
  attributes s' !! "data-expanded" = Some "false" /\
  aria_expanded <$> toggle s' = Some (Some "true") /\
  content s' = Some c.
Proof.
  intros Hc Hg Hh He Hq Hpos Hover s'. subst s'.
  destruct (description_connected_effect js s) as (Ec & Et & Ee & _ & Ef & Ea & _ & Ero).
  unfold animationFrame. rewrite Ef, Hq. cbn [app fold_left run_frameCallback].
  set (s0 := set_frameQueue [] (connectedCallback js s)).
  assert (Hc0 : content s0 = Some c).
  { subst s0. cbn [content set_frameQueue]. congruence. }
  assert (Hg0 : toggle s0 = Some g).
  { subst s0. cbn [toggle set_frameQueue]. congruence. }
  assert (He0 : _expanded s0 = true).
  { subst s0. cbn [_expanded set_frameQueue]. congruence. }
  assert (Ha0 : attributes s0 !! "data-expanded" = Some "false").
  { subst s0. cbn [attributes set_frameQueue]. rewrite Ea. now simplify_map_eq. }
  assert (Hcalc : calculateCollapsedHeight lay s0 =
                  calculateCollapsedHeight lay (connectedCallback js s)) by reflexivity.
  assert (Hro0 : _resizeObserver s0 = Some (default false (_resizeObserver s))).
  { subst s0. cbn [_resizeObserver set_frameQueue]. exact Ero. }
  rewrite <- Hcalc in Hpos, Hover. clearbody s0.
  unfold initialize. rewrite Hc0, Hg0.
  destruct (updateOverflowState_cases lay
              (set_collapsedHeight (calculateCollapsedHeight lay s0) s0) c g Hc0 Hg0)
    as (E1 & E2 & _ & E4 & E5 & _ & _ & E8 & _).
  cbn [_collapsedHeight set_collapsedHeight _expanded] in E1, E2, E4, E5.
  rewrite Hpos, Hover, He0, Hh in E1, E2, E4, E5.
  cbn [negb andb] in E1, E2, E4, E5.
  rewrite E5. cbn [_resizeObserver set_collapsedHeight] in E8. rewrite E8, Hro0.
  cbn. rewrite E1, E2, E4, E5. cbn. auto.
Qed.

(** A block that holds its content and a shown toggle is toggled. *)
Lemma toggleDescription_shown (lay : Layout) (s : t) (c : Content) (g : Toggle) :
  content s = Some c -> toggle s = Some g -> hidden g = false ->
  let s' := toggleDescription lay s in
  _expanded s' = negb (_expanded s) /\
  (exists c', content s' = Some c') /\
  (exists g', toggle s' = Some g' /\ hidden g' = false /\
              aria_expanded g' = Some (if _expanded s' then "true" else "false")) /\
  _collapsedHeight s' = _collapsedHeight s /\
  transitionEndListeners s' =
    (transitionEndListeners s ++
       [if _expanded s' then none else px (_collapsedHeight s)])%list /\
  attributes s' !! "data-expanded" = Some (if _expanded s' then "true" else "false") /\
  (Forall (fun cb => cb <> InitCallback) (frameQueue s) ->
   Forall (fun cb => cb <> InitCallback) (frameQueue s')).
Proof.
  intros Hc Hg Hh. cbv zeta. unfold toggleDescription. rewrite Hc, Hg, Hh.
  destruct s as [ch ex lc ro co tg at_ fq tl rl]. cbn in Hc, Hg. subst co tg.
  destruct ex; cbn; rewrite ?Hh;
    (split; [reflexivity|]); (split; [eauto|]); (split; [eauto|]);
    (split; [reflexivity|]); (split; [reflexivity|]);
    (split; [now simplify_map_eq|]);
    intros Hfq; apply Forall_app; (split; [exact Hfq|]);
    repeat constructor; discriminate.
Qed.

Lemma set_maxHeight_effect (m : MaxHeight) (s : t) (c : Content) :
  content s = Some c ->
  set_maxHeight m s =
    set_content (Some {| style_maxHeight := Some m; scrollTop := scrollTop c |}) s.
Proof. intros Hc. unfold set_maxHeight. now rewrite Hc. Qed.

(** A block that has been toggled at least once and not yet settled:
    both refs in place, the toggle shown, the attributes spelling the
    expanded flag, and the listener added last agreeing with it. *)
Local Abbreviation toggled_state ch s :=
  ((exists c, content s = Some c) /\
   (exists g, toggle s = Some g /\ hidden g = false /\
              aria_expanded g = Some (if _expanded s then "true" else "false")) /\
   (exists l, transitionEndListeners s =
                (l ++ [if _expanded s then none else px ch])%list) /\
   attributes s !! "data-expanded" = Some (if _expanded s then "true" else "false") /\
   Forall (fun cb => cb <> InitCallback) (frameQueue s) /\
   _collapsedHeight s = ch).

Lemma toggleDescription_toggled_state (lay : Layout) (s : t) (c : Content) (g : Toggle) :
  content s = Some c -> toggle s = Some g -> hidden g = false ->
  Forall (fun cb => cb <> InitCallback) (frameQueue s) ->
  toggled_state (_collapsedHeight s) (toggleDescription lay s) /\
  _expanded (toggleDescription lay s) = negb (_expanded s).
Proof.
  intros Hc Hg Hh Hfq.
  destruct (toggleDescription_shown lay s c g Hc Hg Hh)
    as (He & Hc' & Hg' & Hch & Htl & Ha & Hq).
  split; [|exact He].
  split; [exact Hc'|]. split; [exact Hg'|]. split; [eauto|].
  split; [exact Ha|]. split; [auto|exact Hch].
Qed.

Lemma toggles_toggled_state (lays : list Layout) :
  forall (s : t) (ch : float),
    toggled_state ch s ->
    let s' := fold_left (fun s lay => toggleDescription lay s) lays s in
    toggled_state ch s' /\
    _expanded s' = xorb (_expanded s) (Nat.odd (length lays)).
Proof.
  induction lays as [|lay lays IH]; intros s ch Hs; cbv zeta.
  - split; [exact Hs|]. cbn. now rewrite xorb_false_r.
  - cbn [fold_left length].
    destruct Hs as ((c & Hc) & (g & Hg & Hh & _) & _ & _ & Hfq & Hch).
    destruct (toggleDescription_toggled_state lay s c g Hc Hg Hh Hfq) as [H1 He1].
    rewrite Hch in H1.
    destruct (IH _ _ H1) as [H2 He2]. split; [exact H2|].
    rewrite He2, He1, Nat.odd_succ, <- Nat.negb_odd.
    now destruct (_expanded s), (Nat.odd (length lays)).
Qed.

Lemma frame_of_writes (lay : Layout) (q : list FrameCallback) :
  Forall (fun cb => cb <> InitCallback) q ->
  forall s : t,
    let s' := fold_left (run_frameCallback lay) q s in
    (forall c, content s = Some c -> exists c', content s' = Some c') /\
    toggle s' = toggle s /\ _expanded s' = _expanded s /\
    attributes s' = attributes s /\
    transitionEndListeners s' = transitionEndListeners s /\
    frameQueue s' = frameQueue s.
Proof.
  induction 1 as [|cb q Hcb _ IH]; intros s; cbv zeta.
  - cbn. repeat split; eauto.
  - cbn [fold_left]. destruct cb as [|h]; [congruence|]. cbn [run_frameCallback].
    destruct (IH (set_maxHeight (px h) s)) as (Hc & -> & -> & -> & -> & ->).
    unfold set_maxHeight in *. destruct (content s) as [c0|] eqn:Hc0.
    + repeat split. intros c _. eapply Hc. reflexivity.
    + repeat split. intros c Hfalse. discriminate.
Qed.

Lemma transitionend_effect (s : t) (c : Content) (l : list MaxHeight) (m : MaxHeight) :
  content s = Some c ->
  transitionEndListeners s = (l ++ [m])%list ->
  style_maxHeight <$> content (transitionend s) = Some (Some m) /\
  toggle (transitionend s) = toggle s /\
  _expanded (transitionend s) = _expanded s /\
  attributes (transitionend s) = attributes s /\
  transitionEndListeners (transitionend s) = [] /\
  frameQueue (transitionend s) = frameQueue s.
Proof.
  intros Hc Hl. unfold transitionend. rewrite Hl, fold_left_app. cbn [fold_left].
  set (s0 := set_transitionEndListeners [] s).
  assert (H0 : (exists c', content s0 = Some c') /\ toggle s0 = toggle s /\
               _expanded s0 = _expanded s /\ attributes s0 = attributes s /\
               transitionEndListeners s0 = [] /\ frameQueue s0 = frameQueue s).
  { subst s0. cbn. repeat split. eauto. }
  clearbody s0. clear Hl. revert s0 H0.
  induction l as [|x l IH]; intros s0 ((c0 & Hc0) & Ht & He & Ha & Htl & Hfq).
  - cbn [fold_left]. rewrite (set_maxHeight_effect m s0 c0 Hc0). cbn.
    repeat split; assumption.
  - cbn [fold_left]. apply IH. cbv beta.
    rewrite (set_maxHeight_effect x s0 c0 Hc0). cbn. repeat split; eauto.
Qed.

(** X27.  Toggling settles on the state it ends in.  A block with its toggle
    shown is toggled one or more times in a row; the animation frame
    and then the end of the transition follow.  The expanded flag has
    flipped once per toggle, data-expanded and aria-expanded spell it,
    and the content's max-height ends at none if the block is
    expanded and at the collapsed height if it is not, however many
    listeners the toggles left behind; none is left afterwards. *)
Theorem toggles_settle
    (lay lay' : Layout) (lays : list Layout) (s : t) (c : Content) (g : Toggle) :
  content s = Some c -> toggle s = Some g -> hidden g = false ->
  Forall (fun cb => cb <> InitCallback) (frameQueue s) ->
  let toggled := fold_left (fun s lay => toggleDescription lay s) (lay :: lays) s in
  let settled := transitionend (animationFrame lay' toggled) in
  _expanded settled = xorb (_expanded s) (Nat.even (length lays)) /\
  style_maxHeight <$> content settled =
    Some (Some (if _expanded settled then none else px (_collapsedHeight s))) /\
  attributes settled !! "data-expanded" =
    Some (if _expanded settled then "true" else "false") /\
  aria_expanded <$> toggle settled =
    Some (Some (if _expanded settled then "true" else "false")) /\
  transitionEndListeners settled = [] /\
  frameQueue settled = [].
Proof.
  intros Hc Hg Hh Hfq toggled settled. subst settled toggled. cbn [fold_left].
  destruct (toggleDescription_toggled_state lay s c g Hc Hg Hh Hfq) as [H1 He1].
  destruct (toggles_toggled_state lays _ _ H1) as [H2 He2]. cbv zeta in H2, He2.
  set (s2 := fold_left (fun s lay => toggleDescription lay s) lays
               (toggleDescription lay s)) in *.
  clearbody s2.
  destruct H2 as ((c2 & Hc2) & (g2 & Hg2 & Hh2 & Har2) & (l & Hl2) & Ha2 & Hfq2 & Hch2).
  unfold animationFrame.
  destruct (frame_of_writes lay' (frameQueue s2) Hfq2 (set_frameQueue [] s2))
    as (Hc3 & Ht3 & He3 & Ha3 & Htl3 & Hfq3).
  set (s3 := fold_left (run_frameCallback lay') (frameQueue s2) (set_frameQueue [] s2)) in *.
  clearbody s3. cbn in Ht3, He3, Ha3, Htl3, Hfq3.
  destruct (Hc3 c2 Hc2) as (c3 & Hc3').
  rewrite Hl2 in Htl3.
  destruct (transitionend_effect s3 c3 l _ Hc3' Htl3) as (Hm & -> & -> & -> & -> & ->).
  rewrite Hm, Ht3, He3, Ha3, Hg2, Ha2, Hfq3. cbn [fmap option_fmap option_map].
  rewrite Har2.
  assert (He : _expanded s2 = xorb (_expanded s) (Nat.even (length lays))).
  { rewrite He2, He1, <- Nat.negb_odd.
    now destruct (_expanded s), (Nat.odd (length lays)). }
  repeat split; exact He || reflexivity.
Qed.

(** X28.  A block that does not overflow cannot be expanded.  When the
    initialisation finds the content no taller than the collapsed
    height plus one pixel, or finds no positive collapsed height, it
    hides the toggle, and [toggleDescription] then changes nothing. *)
Theorem no_overflow_cannot_expand
    (lay lay' : Layout) (s : t) (c : Content) (g : Toggle) :
  content s = Some c -> toggle s = Some g ->
  negb (calculateCollapsedHeight lay s <=? 0)
  && (calculateCollapsedHeight lay s + 1 <? scrollHeight lay) = false ->
  not_overflowing (initialize lay s) /\
  toggleDescription lay' (initialize lay s) = initialize lay s.
Proof.
  intros Hc Hg Hover. unfold initialize. rewrite Hc, Hg.
  destruct (updateOverflowState_cases lay
              (set_collapsedHeight (calculateCollapsedHeight lay s) s) c g Hc Hg)
    as (He & Ht & Ho & _ & Hco & _).
  cbn [_collapsedHeight set_collapsedHeight _expanded] in He, Ht, Ho, Hco.
  rewrite Hover in He, Ht, Ho, Hco. cbn [negb andb] in He, Ht, Ho, Hco.
  split.
  - unfold not_overflowing. rewrite Ht, Ho, He, Hco. repeat split.
  - unfold toggleDescription. rewrite Hco, Ht. reflexivity.
Qed.

(** The collapsed height is computed the way the engine computes it:
    at 18px with line-height normal and five lines it is 18 * 1.2 * 5,
    which falls just short of 108, so content 109px tall overflows it
    and the toggle is shown. *)
Example collapsed_height_is_rounded :
  let lay := {| scrollHeight := 109; offsetHeight := 109;
                textElement := Some {| lineHeight := CssNormal; fontSize := CssPx 18 |} |} in
  let s := initialize lay
             (connectedCallback Js.sample_engine
                (created (Some {| style_maxHeight := None; scrollTop := 0 |})
                         (Some {| hidden := true; aria_expanded := None |}) ∅)) in
  (_collapsedHeight s <? 108) = true /\
  (_collapsedHeight s + 1 <? 109) = true /\
  hidden <$> toggle s = Some false /\
  attributes s !! "data-has-overflow" = Some "true".
Proof. vm_compute. repeat split; reflexivity. Qed.


(** X30.  Resizing while expanded.  On a window resize an expanded block
    takes the newly computed collapsed height; on a content resize it
    keeps the old one, which is recomputed only while collapsed.
    Either way the block stays expanded exactly if its content still
    overflows that height, and its max-height ends at none: written by
    the handler if it is still expanded, by the overflow check if it
    is not. *)
Theorem resize_while_expanded (lay : Layout) (s : t) (c : Content) (g : Toggle) :
  content s = Some c -> toggle s = Some g -> hidden g = false ->
  _expanded s = true ->
  let over := fun ch : float => negb (ch <=? 0) && (ch + 1 <? scrollHeight lay) in
  (let s' := onWindowResize lay s in
   _collapsedHeight s' = calculateCollapsedHeight lay s /\
   _expanded s' = over (calculateCollapsedHeight lay s) /\
   style_maxHeight <$> content s' = Some (Some none)) /\
  (let s' := handleContentResize lay s in
   _collapsedHeight s' = _collapsedHeight s /\
   _expanded s' = over (_collapsedHeight s) /\
   style_maxHeight <$> content s' = Some (Some none)).
Proof.
  intros Hc Hg Hh He over.
  assert (Hcheck : forall s1 : t,
            content s1 = Some c -> toggle s1 = Some g -> _expanded s1 = true ->
            let s2 := updateOverflowState lay s1 in
            let s' := if _expanded s2 then set_maxHeight none s2 else s2 in
            _collapsedHeight s' = _collapsedHeight s1 /\
            _expanded s' = over (_collapsedHeight s1) /\
            style_maxHeight <$> content s' = Some (Some none)).
  { intros s1 Hc1 Hg1 He1. cbv zeta.
    destruct (updateOverflowState_cases lay s1 c g Hc1 Hg1)
      as (E1 & _ & _ & _ & E5 & E6 & _).
    rewrite He1, Hh, !andb_true_r in E1, E5.
    fold (over (_collapsedHeight s1)) in E1, E5.
    rewrite E1. destruct (over (_collapsedHeight s1)).
    - rewrite (set_maxHeight_effect none _ c E5). cbn. auto.
    - rewrite E5, E6. auto. }
  split.
  - cbv zeta. unfold onWindowResize. rewrite Hc.
    apply (Hcheck (set_collapsedHeight (calculateCollapsedHeight lay s) s)); assumption.
  - cbv zeta. unfold handleContentResize. rewrite Hc, He. cbn [negb].
    apply (Hcheck s); assumption.
Qed.

End ProductDescriptionBlock_more.

Lemma overflow_check_outcome_witness :
  let lay := ProductDescriptionBlock.layout_of_height 200 in
  let s := ProductDescriptionBlock.animationFrame lay ProductDescriptionBlock.three_lines in
  let s' := ProductDescriptionBlock.updateOverflowState lay s in
  exists g', ProductDescriptionBlock.toggle s' = Some g' /\
    ProductDescriptionBlock.attributes s' !! "data-has-overflow" =
      Some (if ProductDescriptionBlock.hidden g' then "false" else "true").
Proof.
  intros lay s s'.
  destruct (overflow_check_outcome lay s
              {| ProductDescriptionBlock.style_maxHeight :=
                   Some (ProductDescriptionBlock.px 60);
                 ProductDescriptionBlock.scrollTop := 0 |}
              {| ProductDescriptionBlock.hidden := false;
                 ProductDescriptionBlock.aria_expanded := Some "false" |})
    as (g' & Htoggle & Hoverflow & _).
  - vm_compute. reflexivity.
  - vm_compute. reflexivity.
  - exists g'. split; [exact Htoggle|exact Hoverflow].
Defined.

Lemma reconnect_while_expanded_witness :
  let lay := ProductDescriptionBlock.layout_of_height 200 in
  let s := ProductDescriptionBlock.transitionend
             (ProductDescriptionBlock.animationFrame lay
                (ProductDescriptionBlock.toggleDescription lay
                   (ProductDescriptionBlock.animationFrame lay
                      ProductDescriptionBlock.three_lines))) in
  let s' := ProductDescriptionBlock.animationFrame lay
              (ProductDescriptionBlock.connectedCallback Js.sample_engine s) in
  ProductDescriptionBlock._expanded s' = true /\
  ProductDescriptionBlock.attributes s' !! "data-expanded" = Some "false" /\
  ProductDescriptionBlock.aria_expanded <$> ProductDescriptionBlock.toggle s' =
    Some (Some "true").
Proof.
  intros lay s s'.
  destruct (reconnect_while_expanded Js.sample_engine lay s
              {| ProductDescriptionBlock.style_maxHeight :=
                   Some ProductDescriptionBlock.none;
                 ProductDescriptionBlock.scrollTop := 0 |}
              {| ProductDescriptionBlock.hidden := false;
                 ProductDescriptionBlock.aria_expanded := Some "true" |})
    as (Hexpanded & Hdata & Haria & _).
  - vm_compute. reflexivity.
  - vm_compute. reflexivity.
  - reflexivity.
  - vm_compute. reflexivity.
  - vm_compute. reflexivity.
  - vm_compute. reflexivity.
  - vm_compute. reflexivity.
  - split; [exact Hexpanded|]. split; [exact Hdata|exact Haria].
Defined.

Lemma toggles_settle_witness :
  let lay := ProductDescriptionBlock.layout_of_height 200 in
  let s := ProductDescriptionBlock.animationFrame lay ProductDescriptionBlock.three_lines in
  let settled :=
    ProductDescriptionBlock.transitionend
      (ProductDescriptionBlock.animationFrame lay
         (fold_left (fun s lay => ProductDescriptionBlock.toggleDescription lay s)
            [lay; lay] s)) in
  ProductDescriptionBlock._expanded settled = false /\
  ProductDescriptionBlock.style_maxHeight <$> ProductDescriptionBlock.content settled =
    Some (Some (ProductDescriptionBlock.px 60)) /\
  ProductDescriptionBlock.transitionEndListeners settled = [].
Proof.
  intros lay s settled.
  destruct (toggles_settle lay lay [lay] s
              {| ProductDescriptionBlock.style_maxHeight :=
                   Some (ProductDescriptionBlock.px 60);
                 ProductDescriptionBlock.scrollTop := 0 |}
              {| ProductDescriptionBlock.hidden := false;
                 ProductDescriptionBlock.aria_expanded := Some "false" |})
    as (Hexpanded & Hheight & _ & _ & Hlisteners & _).
  - vm_compute. reflexivity.
  - vm_compute. reflexivity.
  - reflexivity.
  - vm_compute. constructor.
  - split; [|split; [|exact Hlisteners]].
    + etransitivity; [exact Hexpanded|]. vm_compute. reflexivity.
    + etransitivity; [exact Hheight|]. vm_compute. reflexivity.
Defined.

Lemma no_overflow_cannot_expand_witness :
  let s := ProductDescriptionBlock.initialize
             (ProductDescriptionBlock.layout_of_height 60)
             ProductDescriptionBlock.three_lines in
  ProductDescriptionBlock.toggleDescription
    (ProductDescriptionBlock.layout_of_height 60) s = s.
Proof.
  intros s.
  apply (no_overflow_cannot_expand
           (ProductDescriptionBlock.layout_of_height 60)
           (ProductDescriptionBlock.layout_of_height 60)
           ProductDescriptionBlock.three_lines
           {| ProductDescriptionBlock.style_maxHeight := None;
              ProductDescriptionBlock.scrollTop := 0 |}
           {| ProductDescriptionBlock.hidden := false;
              ProductDescriptionBlock.aria_expanded := None |}).
  - reflexivity.
  - reflexivity.
  - vm_compute. reflexivity.
Defined.


Lemma resize_while_expanded_witness :
  let lay := ProductDescriptionBlock.layout_of_height 200 in
  let s := ProductDescriptionBlock.transitionend
             (ProductDescriptionBlock.animationFrame lay
                (ProductDescriptionBlock.toggleDescription lay
                   (ProductDescriptionBlock.animationFrame lay
                      ProductDescriptionBlock.three_lines))) in
  let s' := ProductDescriptionBlock.onWindowResize
              (ProductDescriptionBlock.layout_of_height 50) s in
  ProductDescriptionBlock._expanded s' = false /\
  ProductDescriptionBlock.style_maxHeight <$> ProductDescriptionBlock.content s' =
    Some (Some ProductDescriptionBlock.none).
Proof.
  intros lay s s'.
  destruct (resize_while_expanded (ProductDescriptionBlock.layout_of_height 50) s
              {| ProductDescriptionBlock.style_maxHeight :=
                   Some ProductDescriptionBlock.none;
                 ProductDescriptionBlock.scrollTop := 0 |}
              {| ProductDescriptionBlock.hidden := false;
                 ProductDescriptionBlock.aria_expanded := Some "true" |})
    as [(_ & Hexpanded & Hheight) _].
  - vm_compute. reflexivity.
  - vm_compute. reflexivity.
  - reflexivity.
  - vm_compute. reflexivity.
  - split; [|exact Hheight].
    etransitivity; [exact Hexpanded|]. vm_compute. reflexivity.
Defined.

(** ** Video player: the public methods *)
Section MkVideoPlayerApi_properties.
Import Browser MkVideoPlayer.

Lemma update_video_current (i : nat) (g : VideoState -> VideoState) (s : MkVideoPlayer.t)
    (v : VideoState) :
  getCurrentVideo s = Some (i, HTMLVideoElement v) ->
  getCurrentVideo (update_video i g s) = Some (i, HTMLVideoElement (g v)) /\
  pendingPlay (update_video i g s) = pendingPlay s.
Proof.
  intros Hv. pose proof (getCurrentVideo_video_at _ _ _ Hv) as Hat.
  unfold update_video. rewrite Hat. unfold set_kind, video_at in *.
  destruct (children s !! i) as [e|] eqn:Hi; [|discriminate].
  split; [|reflexivity].
  unfold getCurrentVideo, querySelector in *. cbn [children set_children].
  erewrite querySelector_from_restyled; [|exact Hi|reflexivity].
  destruct (querySelector_from 0 "mk-video__element" (children s)) as [[j x]|] eqn:Hq;
    [|discriminate].
  destruct (kind x) eqn:Hk; try discriminate. injection Hv as -> Hkv.
  rewrite decide_True by reflexivity. reflexivity.
Qed.

(** X20.  The public [playVideo()] loads before it plays.  On an MP4 player
    that is neither loaded nor playing, whose video element is not yet
    on the configured source, the call sets that source on the
    element, calls [load()] and then [play()] on it, and marks the
    player loaded; it counts as playing only once the promise of
    [play()] is fulfilled.  Nothing is logged. *)
Theorem playVideo_loads_before_playing
    (env : Env) (w : Window) (s : MkVideoPlayer.t) (i : nat) (v : VideoState)
    (vsrc : string) :
  _isLoaded s = false -> _isPlaying s = false ->
  String.eqb (videoType s) "youtube" = false ->
  getCurrentVideo s = Some (i, HTMLVideoElement v) ->
  Js.struthy (attributes s !! "data-video-desktop") = true ->
  pick_source (isMobile env) (attributes s !! "data-video-mobile")
    (attributes s !! "data-video-desktop") = Some vsrc ->
  current_source env v <> vsrc ->
  play_returns_promise env = true ->
  let r := MkVideoPlayerApi.playVideo env (w, s) in
  fst r = w /\
  _isLoaded (snd r) = true /\
  ("is-loaded" ∈ classList (snd r)) /\
  calls (snd r) = (calls s ++ [Load i; Play i])%list /\
  (exists v', getCurrentVideo (snd r) = Some (i, HTMLVideoElement v') /\
              v_src v' = Some vsrc) /\
  pendingPlay (snd r) = S (pendingPlay s) /\
  isPlaying (snd r) = false.
Proof.
  intros Hl Hp Hyt Hv Hdesktop Hpick Hsrc Hpromise r. subst r.
  unfold MkVideoPlayerApi.playVideo. cbn [snd]. rewrite Hl. cbn [negb].
  unfold loadVideo. cbn [snd]. rewrite Hl, Hyt.
  unfold loadMP4. rewrite Hdesktop, Hpick. cbn [negb].
  assert (Hq : exists e, querySelector "mk-video__element" (children s) = Some (i, e) /\
                         kind e = HTMLVideoElement v).
  { unfold getCurrentVideo in Hv.
    destruct (querySelector "mk-video__element" (children s)) as [[j e]|]; [|discriminate].
    destruct (kind e) eqn:Hk; try discriminate.
    injection Hv as -> ->. eauto. }
  destruct Hq as ([cn sd k] & Hq & Hk). cbn in Hk. subst k. rewrite Hq.
  assert (Hreload : String.eqb (current_source env v) ""
                    || String.eqb (current_source env v) ""
                    || negb (String.eqb (current_source env v) vsrc) = true).
  { apply String.eqb_neq in Hsrc. rewrite Hsrc. cbn. now rewrite !orb_true_r. }
  rewrite Hreload.
  destruct (update_video_current i (with_v_src vsrc) s v Hv) as [Hv1 Hpp1].
  destruct (update_video_frame i (with_v_src vsrc) s)
    as (_ & Hl1 & Hp1 & Hc1 & _ & _ & Hca1).
  set (s1 := call (Load i) (update_video i (with_v_src vsrc) s)).
  assert (H1 : getCurrentVideo s1 = Some (i, HTMLVideoElement (with_v_src vsrc v)) /\
               pendingPlay s1 = pendingPlay s /\ _isPlaying s1 = false /\
               calls s1 = (calls s ++ [Load i])%list).
  { subst s1. cbn. rewrite Hca1, Hpp1, Hp1. repeat split; try assumption. }
  clearbody s1. clear Hv1 Hpp1 Hl1 Hp1 Hc1 Hca1.
  destruct H1 as (Hv1 & Hpp1 & Hp1 & Hca1).
  set (l := match pick_source (isMobile env) (attributes s !! "data-poster-mobile")
                    (attributes s !! "data-poster-desktop") with
            | Some psrc =>
                if String.eqb psrc "" then (w, s1)
                else (w, update_video i (with_v_poster psrc) s1)
            | None => (w, s1)
            end).
  assert (H2 : fst l = w /\
               (exists v', getCurrentVideo (snd l) = Some (i, HTMLVideoElement v') /\
                           v_src v' = Some vsrc) /\
               pendingPlay (snd l) = pendingPlay s /\ _isPlaying (snd l) = false /\
               calls (snd l) = (calls s ++ [Load i])%list).
  { subst l.
    destruct (pick_source (isMobile env) (attributes s !! "data-poster-mobile")
                (attributes s !! "data-poster-desktop")) as [psrc|];
      [|cbn; repeat split; eauto].
    destruct (String.eqb psrc ""); [cbn; repeat split; eauto|]. cbn [fst snd].
    destruct (update_video_current i (with_v_poster psrc) s1 _ Hv1) as [Hv2 Hpp2].
    destruct (update_video_frame i (with_v_poster psrc) s1)
      as (_ & _ & Hp2 & _ & _ & _ & Hca2).
    rewrite Hpp2, Hp2, Hca2. repeat split; eauto. }
  clearbody l. destruct l as [w2 s2]. cbn [fst snd] in H2.
  destruct H2 as (-> & (v' & Hv2 & Hsrc2) & Hpp2 & Hp2 & Hca2).
  set (s3 := classList_add "is-loaded" (set_isLoaded true s2)).
  assert (Hv3 : getCurrentVideo s3 = Some (i, HTMLVideoElement v')) by exact Hv2.
  assert (Hp3 : _isPlaying s3 = false) by exact Hp2.
  destruct (playVideo_on_video env s3 i v' Hp3 Hv3 Hpromise)
    as (E1 & E2 & E3 & E4 & E5 & _).
  destruct (playVideo_frame env s3) as (El & _).
  cbn [fst snd]. unfold isPlaying.
  rewrite E1, E2, E3, E4, E5, El, Hv3.
  subst s3. cbn. rewrite Hpp2, Hca2, <- app_assoc.
  repeat split; eauto. set_solver.
Qed.

Lemma isMuted_written (val : string) (s : MkVideoPlayer.t)
    (au : list MkVideoPlayerApi.AudioCall) :
  MkVideoPlayerApi.isMuted
    {| MkVideoPlayerApi.player := dataset_set "data-muted" val s;
       MkVideoPlayerApi.audio := au |} = String.eqb val "true".
Proof.
  unfold MkVideoPlayerApi.isMuted, dataset_set. cbn. now rewrite lookup_insert_eq.
Qed.

Lemma videoType_data_muted (val : string) (s : MkVideoPlayer.t) :
  videoType (dataset_set "data-muted" val s) = videoType s.
Proof.
  unfold videoType, dataset_set. cbn. now rewrite lookup_insert_ne by discriminate.
Qed.

Lemma mute_on_video (s : MkVideoPlayer.t) (au : list MkVideoPlayerApi.AudioCall)
    (i : nat) (v : VideoState) :
  getCurrentVideo s = Some (i, HTMLVideoElement v) ->
  MkVideoPlayerApi.mute {| MkVideoPlayerApi.player := s; MkVideoPlayerApi.audio := au |} =
    {| MkVideoPlayerApi.player := dataset_set "data-muted" "true" s;
       MkVideoPlayerApi.audio := (au ++ [MkVideoPlayerApi.SetMuted i true])%list |} /\
  MkVideoPlayerApi.unmute {| MkVideoPlayerApi.player := s; MkVideoPlayerApi.audio := au |} =
    {| MkVideoPlayerApi.player := dataset_set "data-muted" "false" s;
       MkVideoPlayerApi.audio := (au ++ [MkVideoPlayerApi.SetMuted i false])%list |}.
Proof.
  intros Hv. unfold MkVideoPlayerApi.mute, MkVideoPlayerApi.unmute.
  cbn [MkVideoPlayerApi.player MkVideoPlayerApi.audio]. rewrite Hv. split; reflexivity.
Qed.

Lemma mute_on_iframe (s : MkVideoPlayer.t) (au : list MkVideoPlayerApi.AudioCall)
    (i : nat) (f : IframeState) :
  getCurrentVideo s = Some (i, HTMLIFrameElement f) ->
  String.eqb (videoType s) "youtube" = true ->
  MkVideoPlayerApi.mute {| MkVideoPlayerApi.player := s; MkVideoPlayerApi.audio := au |} =
    {| MkVideoPlayerApi.player := dataset_set "data-muted" "true" s;
       MkVideoPlayerApi.audio :=
         if f_contentWindow f
         then (au ++ [MkVideoPlayerApi.PostAudio i MkVideoPlayerApi.YtMute])%list
         else au |} /\
  MkVideoPlayerApi.unmute {| MkVideoPlayerApi.player := s; MkVideoPlayerApi.audio := au |} =
    {| MkVideoPlayerApi.player := dataset_set "data-muted" "false" s;
       MkVideoPlayerApi.audio :=
         if f_contentWindow f
         then (au ++ [MkVideoPlayerApi.PostAudio i MkVideoPlayerApi.YtUnMute])%list
         else au |}.
Proof.
  intros Hv Hyt. unfold MkVideoPlayerApi.mute, MkVideoPlayerApi.unmute.
  cbn [MkVideoPlayerApi.player MkVideoPlayerApi.audio]. rewrite Hv, Hyt.
  split; reflexivity.
Qed.

(** X21.  Toggling the mute.  On a player whose element is a video,
    [toggleMute()] flips what [isMuted()] reports and writes the new
    value to the element's [muted] property.  On a player typed
    youtube whose element is an iframe it flips the report and posts
    the matching command, or posts nothing when the iframe has no
    content window, so that the report changes although nothing was
    sent.  On any other player it does nothing at all. *)
Theorem toggleMute_flips (a : MkVideoPlayerApi.t) :
  let a' := MkVideoPlayerApi.toggleMute a in
  let was := MkVideoPlayerApi.isMuted a in
  match getCurrentVideo (MkVideoPlayerApi.player a) with
  | Some (i, HTMLVideoElement _) =>
      MkVideoPlayerApi.isMuted a' = negb was /\
      MkVideoPlayerApi.audio a' =
        (MkVideoPlayerApi.audio a ++ [MkVideoPlayerApi.SetMuted i (negb was)])%list /\
      MkVideoPlayerApi.isMuted (MkVideoPlayerApi.toggleMute a') = was
  | Some (i, HTMLIFrameElement f) =>
      if String.eqb (videoType (MkVideoPlayerApi.player a)) "youtube" then
        MkVideoPlayerApi.isMuted a' = negb was /\
        MkVideoPlayerApi.audio a' =
          (MkVideoPlayerApi.audio a ++
             (if f_contentWindow f
              then [MkVideoPlayerApi.PostAudio i
                      (if was then MkVideoPlayerApi.YtUnMute else MkVideoPlayerApi.YtMute)]
              else []))%list /\
        MkVideoPlayerApi.isMuted (MkVideoPlayerApi.toggleMute a') = was
      else a' = a
  | _ => a' = a
  end.
Proof.
  cbv zeta. destruct a as [s au]. cbn [MkVideoPlayerApi.player MkVideoPlayerApi.audio].
  remember (MkVideoPlayerApi.isMuted {| MkVideoPlayerApi.player := s;
                                        MkVideoPlayerApi.audio := au |}) as was eqn:Hw.
  assert (Ht : MkVideoPlayerApi.toggleMute
                 {| MkVideoPlayerApi.player := s; MkVideoPlayerApi.audio := au |} =
               if was
               then MkVideoPlayerApi.unmute
                      {| MkVideoPlayerApi.player := s; MkVideoPlayerApi.audio := au |}
               else MkVideoPlayerApi.mute
                      {| MkVideoPlayerApi.player := s; MkVideoPlayerApi.audio := au |}).
  { unfold MkVideoPlayerApi.toggleMute. now rewrite <- Hw. }
  clear Hw.
  destruct (getCurrentVideo s) as [[i [v|f|]]|] eqn:Hv.
  - destruct (mute_on_video s au i v Hv) as [Hmute Hunmute].
    rewrite Ht. destruct was.
    + rewrite Hunmute. unfold MkVideoPlayerApi.toggleMute.
      rewrite isMuted_written. change (String.eqb "false" "true") with false. cbv iota.
      destruct (mute_on_video (dataset_set "data-muted" "false" s)
                  (au ++ [MkVideoPlayerApi.SetMuted i false])%list i v Hv) as [-> _].
      rewrite isMuted_written. repeat split.
    + rewrite Hmute. unfold MkVideoPlayerApi.toggleMute.
      rewrite isMuted_written. change (String.eqb "true" "true") with true. cbv iota.
      destruct (mute_on_video (dataset_set "data-muted" "true" s)
                  (au ++ [MkVideoPlayerApi.SetMuted i true])%list i v Hv) as [_ ->].
      rewrite isMuted_written. repeat split.
  - destruct (String.eqb (videoType s) "youtube") eqn:Hyt.
    + destruct (mute_on_iframe s au i f Hv Hyt) as [Hmute Hunmute].
      rewrite Ht. destruct was.
      * rewrite Hunmute. unfold MkVideoPlayerApi.toggleMute.
        rewrite isMuted_written. change (String.eqb "false" "true") with false. cbv iota.
        match goal with
        | |- context [MkVideoPlayerApi.mute
                        {| MkVideoPlayerApi.player := ?p; MkVideoPlayerApi.audio := ?x |}] =>
            destruct (mute_on_iframe p x i f Hv) as [-> _];
              [now rewrite videoType_data_muted|]
        end.
        rewrite isMuted_written. cbn [MkVideoPlayerApi.audio].
        destruct (f_contentWindow f); rewrite ?app_nil_r; repeat split.
      * rewrite Hmute. unfold MkVideoPlayerApi.toggleMute.
        rewrite isMuted_written. change (String.eqb "true" "true") with true. cbv iota.
        match goal with
        | |- context [MkVideoPlayerApi.unmute
                        {| MkVideoPlayerApi.player := ?p; MkVideoPlayerApi.audio := ?x |}] =>
            destruct (mute_on_iframe p x i f Hv) as [_ ->];
              [now rewrite videoType_data_muted|]
        end.
        rewrite isMuted_written. cbn [MkVideoPlayerApi.audio].
        destruct (f_contentWindow f); rewrite ?app_nil_r; repeat split.
    + rewrite Ht. unfold MkVideoPlayerApi.unmute, MkVideoPlayerApi.mute.
      cbn [MkVideoPlayerApi.player]. rewrite Hv, Hyt. now destruct was.
  - rewrite Ht. unfold MkVideoPlayerApi.unmute, MkVideoPlayerApi.mute.
    cbn [MkVideoPlayerApi.player]. rewrite Hv. now destruct was.
  - rewrite Ht. unfold MkVideoPlayerApi.unmute, MkVideoPlayerApi.mute.
    cbn [MkVideoPlayerApi.player]. rewrite Hv. now destruct was.
Qed.

End MkVideoPlayerApi_properties.

Lemma playVideo_loads_before_playing_witness :
  let s := MkVideoPlayer.mp4_player {[ "data-video-desktop" := "/videos/a.mp4" ]} in
  let r := MkVideoPlayerApi.playVideo MkVideoPlayer.desktop (Browser.fresh_window, s) in
  MkVideoPlayer._isLoaded (snd r) = true /\
  MkVideoPlayer.calls (snd r) = [MkVideoPlayer.Load 1; MkVideoPlayer.Play 1] /\
  MkVideoPlayer.isPlaying (snd r) = false.
Proof.
  intros s r.
  destruct (playVideo_loads_before_playing MkVideoPlayer.desktop Browser.fresh_window s 1
              {| MkVideoPlayer.v_src := None; MkVideoPlayer.v_currentSrc := "";
                 MkVideoPlayer.v_poster := None; MkVideoPlayer.v_currentTime := 0 |}
              "/videos/a.mp4")
    as (_ & Hloaded & _ & Hcalls & _ & _ & Hplaying).
  - reflexivity.
  - reflexivity.
  - reflexivity.
  - vm_compute. reflexivity.
  - reflexivity.
  - reflexivity.
  - vm_compute. discriminate.
  - reflexivity.
  - split; [exact Hloaded|]. split; [exact Hcalls|exact Hplaying].
Defined.

(** ** Video player: the play button and the modal *)
Section MkVideoModal_properties.
Import Browser MkVideoPlayer MkVideoModal.

(** The page [#openModalPlayer] leaves, whatever the modal holds. *)
Lemma openModalPlayer_shape (env : Env) (codec : UrlCodec) (s : MkVideoPlayer.t)
    (w : Window) (pg : Page) :
  exists media,
    snd (openModalPlayer env codec s (w, pg)) =
      {| modals := (tl (modals pg) ++
                      [{| m_id := created pg; m_active := true; m_media := media |}])%list;
         rootClasses := rootClasses pg ∪ {["mk-video-modal-open"]};
         timeouts := timeouts pg;
         logged := logged pg;
         created := S (created pg) |}.
Proof.
  unfold openModalPlayer.
  set (chosen := if String.eqb (videoType s) "youtube" then _ else _).
  destruct chosen as [w1 media].
  exists media. destruct pg as [ms rc ts lg cr]. destruct ms; reflexivity.
Qed.

(** X22.  A click on a play button.  With data-use-modal true the click
    logs use modal and opens a modal: the player and its state are not
    touched, the first modal already in the document is removed, a
    new active one is appended, and the root element gets the class
    mk-video-modal-open; no timeout is set.  Otherwise the page is not
    touched and the click does what the public [playVideo()] does. *)
Theorem play_button_click (env : Env) (codec : UrlCodec)
    (w : Window) (pg : Page) (s : MkVideoPlayer.t) :
  let r := handlePlayButtonClick env codec (w, pg, s) in
  if Js.seq_lit (attributes s !! "data-use-modal") "true"
  then snd r = s /\
       logged (snd (fst r)) = (logged pg ++ ["use modal"])%list /\
       (exists media,
          modals (snd (fst r)) =
            (tl (modals pg) ++
               [{| m_id := created pg; m_active := true; m_media := media |}])%list) /\
       rootClasses (snd (fst r)) = rootClasses pg ∪ {["mk-video-modal-open"]} /\
       timeouts (snd (fst r)) = timeouts pg /\
       created (snd (fst r)) = S (created pg)
  else snd (fst r) = pg /\
       (fst (fst r), snd r) = MkVideoPlayerApi.playVideo env (w, s).
Proof.
  cbv zeta. unfold handlePlayButtonClick.
  destruct (Js.seq_lit (attributes s !! "data-use-modal") "true").
  - destruct (openModalPlayer_shape env codec s w
                (set_logged (logged pg ++ ["use modal"]) pg)) as (media & Hshape).
    destruct (openModalPlayer env codec s
                (w, set_logged (logged pg ++ ["use modal"]) pg)) as [w1 pg1].
    cbn [fst snd] in *. subst pg1. cbn. repeat split. eauto.
  - unfold MkVideoPlayerApi.playVideo. cbn [snd].
    destruct (if negb (_isLoaded s) then loadVideo env (w, s) else (w, s)) as [w1 s1].
    split; reflexivity.
Qed.

Lemma params_delete_find (k k' : string) (l : list (string * string)) :
  List.filter (λ p, String.eqb (fst p) k) (params_delete k' l) =
    if String.eqb k' k then [] else List.filter (λ p, String.eqb (fst p) k) l.
Proof.
  unfold params_delete. induction l as [|[n x] l IH]; cbn [List.filter fst].
  - now destruct (String.eqb k' k).
  - destruct (String.eqb n k') eqn:Hn; cbn [negb List.filter fst].
    + apply String.eqb_eq in Hn. subst n. rewrite IH.
      now destruct (String.eqb k' k).
    + rewrite IH. destruct (String.eqb k' k) eqn:Hk.
      * apply String.eqb_eq in Hk. subst k'. now rewrite Hn.
      * reflexivity.
Qed.

(** [params.set] leaves exactly one pair of the name it sets, and
    every pair of another name where it was. *)
Lemma params_set_find (k k' v : string) (l : list (string * string)) :
  List.filter (λ p, String.eqb (fst p) k) (params_set k' v l) =
    if String.eqb k' k then [(k', v)] else List.filter (λ p, String.eqb (fst p) k) l.
Proof.
  induction l as [|[n x] l IH]; cbn [params_set List.filter fst].
  - now destruct (String.eqb k' k).
  - destruct (String.eqb n k') eqn:Hn; cbn [List.filter fst].
    + apply String.eqb_eq in Hn. subst n. rewrite params_delete_find.
      now destruct (String.eqb k' k).
    + rewrite IH. destruct (String.eqb k' k) eqn:Hk; [|reflexivity].
      apply String.eqb_eq in Hk. subst k'. now rewrite Hn.
Qed.

Lemma modal_youtube_src_of (codec : UrlCodec) (base : string) :
  base <> "" ->
  modal_youtube_src codec (Some base) =
    nth 0 (split_question base) "" ++ "?" ++
    URLSearchParams_toString codec
      (params_set "controls" "1"
         (params_set "mute" "1"
            (params_set "autoplay" "1"
               (URLSearchParams_parse codec
                  (Js.sor_lit (split_question base !! 1%nat) ""))))).
Proof.
  intros Hne. apply String.eqb_neq in Hne.
  unfold modal_youtube_src. cbn [Js.sor_lit]. rewrite Hne. cbv zeta.
  now rewrite Hne.
Qed.

(** X23.  What the modal plays.  For a player typed youtube with a
    desktop source, the modal holds an iframe whose source is the part
    of the selected URL before its first question mark, a question
    mark, and the serialised query in which autoplay, mute and
    controls each occur exactly once, with value 1, and every other
    parameter is as it was parsed.  For any other type with a desktop
    source it holds a video on the selected source whose controls are
    on whatever data-controls says, with loop and muted as the
    attributes say, and on which [play()] has been called once.
    Without a desktop source the modal is opened all the same, empty,
    and one warning is logged. *)
Theorem modal_media (env : Env) (codec : UrlCodec) (s : MkVideoPlayer.t)
    (w : Window) (pg : Page) :
  let r := openModalPlayer env codec s (w, pg) in
  let media := m_media <$> last (modals (snd r)) in
  if String.eqb (videoType s) "youtube" then
    if Js.struthy (attributes s !! "data-youtube-desktop") then
      fst r = w /\
      exists (f : ModalIframe) (base : string) (params : list (string * string)),
        media = Some (Some (ModalIframeElement f)) /\
        pick_source (isMobile env)
          (Js.sor (attributes s !! "data-youtube-mobile")
                  (attributes s !! "data-youtube-desktop"))
          (attributes s !! "data-youtube-desktop") = Some base /\
        base <> "" /\
        mi_src f =
          nth 0 (split_question base) "" ++ "?" ++ URLSearchParams_toString codec params /\
        (forall k, k = "autoplay" \/ k = "mute" \/ k = "controls" ->
           List.filter (λ p, String.eqb (fst p) k) params = [(k, "1")]) /\
        (forall k, k <> "autoplay" -> k <> "mute" -> k <> "controls" ->
           List.filter (λ p, String.eqb (fst p) k) params =
             List.filter (λ p, String.eqb (fst p) k)
               (URLSearchParams_parse codec (Js.sor_lit (split_question base !! 1%nat) "")))
    else
      media = Some None /\
      console (fst r) =
        (console w ++ [Warn "MkVideoPlayer: No YouTube source provided for modal"])%list
  else
    if Js.struthy (attributes s !! "data-video-desktop") then
      fst r = w /\
      exists v : ModalVideo,
        media = Some (Some (ModalVideoElement v)) /\
        pick_source (isMobile env)
          (Js.sor (attributes s !! "data-video-mobile")
                  (attributes s !! "data-video-desktop"))
          (attributes s !! "data-video-desktop") = Some (mv_src v) /\
        mv_src v <> "" /\
        mv_controls v = true /\
        mv_loop v = Js.seq_lit (attributes s !! "data-loop") "true" /\
        mv_muted v = Js.seq_lit (attributes s !! "data-muted") "true" /\
        mv_calls v = [PlayCall]
    else
      media = Some None /\
      console (fst r) =
        (console w ++ [Warn "MkVideoPlayer: No video source provided for modal"])%list.
Proof.
  cbv zeta.
  assert (Hpick : forall m d : option string,
            Js.struthy d = true ->
            exists base, pick_source (isMobile env) (Js.sor m d) d = Some base /\
                         base <> "").
  { intros m d Hd. unfold pick_source, Js.sor.
    destruct (Js.struthy m) eqn:Hm.
    - rewrite Hm. destruct (isMobile env); cbn [andb].
      + destruct m as [x|]; [|discriminate]. exists x. split; [reflexivity|].
        cbn in Hm. intros ->. discriminate.
      + destruct d as [x|]; [|discriminate]. exists x. split; [reflexivity|].
        cbn in Hd. intros ->. discriminate.
    - rewrite Hd, andb_true_r.
      destruct d as [x|]; [|discriminate]. exists x.
      split; [now destruct (isMobile env)|]. cbn in Hd. intros ->. discriminate. }
  assert (Hlast : forall (ms : list Modal) (m : Modal),
            m_media <$> last (match ms with [] => [] | _ :: rest => rest end ++ [m])%list =
            Some (m_media m)).
  { intros ms m. now rewrite last_snoc. }
  unfold openModalPlayer.
  destruct (String.eqb (videoType s) "youtube") eqn:Hyt.
  - destruct (Js.struthy (attributes s !! "data-youtube-desktop")) eqn:Hd; cbn [negb].
    + destruct (Hpick (attributes s !! "data-youtube-mobile") _ Hd) as (base & Hbase & Hne).
      split; [reflexivity|].
      exists {| mi_src := modal_youtube_src codec (Some base);
                mi_allow := "autoplay; encrypted-media; picture-in-picture";
                mi_allowFullscreen := true;
                mi_frameBorder := "0" |}, base,
             (params_set "controls" "1"
                (params_set "mute" "1"
                   (params_set "autoplay" "1"
                      (URLSearchParams_parse codec
                         (Js.sor_lit (split_question base !! 1%nat) ""))))).
      rewrite Hbase.
      split; [destruct pg as [[|m0 ms] rc ts lg cr]; cbn; [reflexivity|now rewrite last_snoc]|].
      split; [reflexivity|]. split; [exact Hne|].
      split; [now apply modal_youtube_src_of|]. split.
      * intros k [-> | [-> | ->]]; rewrite !params_set_find; reflexivity.
      * intros k H1 H2 H3. rewrite !params_set_find.
        apply not_eq_sym, String.eqb_neq in H1, H2, H3. now rewrite H1, H2, H3.
    + split; [|reflexivity].
      destruct pg as [[|m0 ms] rc ts lg cr]; cbn; [reflexivity|now rewrite last_snoc].
  - destruct (Js.struthy (attributes s !! "data-video-desktop")) eqn:Hd; cbn [negb].
    + destruct (Hpick (attributes s !! "data-video-mobile") _ Hd) as (base & Hbase & Hne).
      split; [reflexivity|].
      eexists. rewrite Hbase.
      split; [destruct pg as [[|m0 ms] rc ts lg cr]; cbn; [reflexivity|now rewrite last_snoc]|].
      cbn. rewrite orb_true_r. repeat split. exact Hne.
    + split; [|reflexivity].
      destruct pg as [[|m0 ms] rc ts lg cr]; cbn; [reflexivity|now rewrite last_snoc].
Qed.

(** X24.  Closing the modal.  A modal opened on a page without one is
    closed: it stays in the document for now, no longer active, its
    video paused or its iframe emptied, and the root element loses
    mk-video-modal-open; when the timeout fires the modal is gone and
    no timeout is left.  If a modal is opened again before the
    timeout fires, the closing one is removed at once, and the timeout
    then finds nothing to remove: the new modal stays, active, and the
    root element keeps the class. *)
Theorem modal_closes_and_leaves (env : Env) (codec : UrlCodec)
    (s s2 : MkVideoPlayer.t) (w : Window) (pg : Page) :
  modals pg = [] -> timeouts pg = [] ->
  let opened := openModalPlayer env codec s (w, pg) in
  let closed := close (created pg) (snd opened) in
  let reopened := snd (openModalPlayer env codec s2 (fst opened, closed)) in
  (exists media,
     modals (snd opened) = [{| m_id := created pg; m_active := true; m_media := media |}] /\
     modals closed =
       [{| m_id := created pg; m_active := false; m_media := close_media media |}]) /\
  ("mk-video-modal-open" ∉ rootClasses closed) /\
  modals (timeout_fires closed) = [] /\
  timeouts (timeout_fires closed) = [] /\
  (exists media2,
     modals (timeout_fires reopened) =
       [{| m_id := S (created pg); m_active := true; m_media := media2 |}]) /\
  ("mk-video-modal-open" ∈ rootClasses (timeout_fires reopened)) /\
  timeouts (timeout_fires reopened) = [].
Proof.
  intros Hm Ht. cbv zeta.
  destruct (openModalPlayer_shape env codec s w pg) as (media & Hshape).
  destruct (openModalPlayer env codec s (w, pg)) as [w1 pg1].
  cbn [fst snd] in *. subst pg1. rewrite Hm, Ht. cbn [tl app].
  set (closed := close (created pg) _).
  assert (Hclosed : closed =
            {| modals := [{| m_id := created pg; m_active := false;
                             m_media := close_media media |}];
               rootClasses := (rootClasses pg ∪ {["mk-video-modal-open"]})
                                ∖ {["mk-video-modal-open"]};
               timeouts := [created pg];
               logged := logged pg;
               created := S (created pg) |}).
  { subst closed. unfold close. cbn -[Nat.eqb]. now rewrite Nat.eqb_refl. }
  clearbody closed. subst closed.
  destruct (openModalPlayer_shape env codec s2 w1
              {| modals := [{| m_id := created pg; m_active := false;
                               m_media := close_media media |}];
                 rootClasses := (rootClasses pg ∪ {["mk-video-modal-open"]})
                                  ∖ {["mk-video-modal-open"]};
                 timeouts := [created pg];
                 logged := logged pg;
                 created := S (created pg) |}) as (media2 & Hshape2).
  cbn [modals rootClasses timeouts logged created tl app] in Hshape2.
  rewrite Hshape2. unfold timeout_fires. cbn -[Nat.eqb].
  assert (Hnext : Nat.eqb (S (created pg)) (created pg) = false)
    by (apply Nat.eqb_neq; lia).
  rewrite Nat.eqb_refl, Hnext. cbn -[Nat.eqb].
  split; [eauto|]. split; [set_solver|]. split; [reflexivity|]. split; [reflexivity|].
  split; [eauto|]. split; [set_solver|reflexivity].
Qed.

End MkVideoModal_properties.

(** A YouTube URL that already sets autoplay: the value is
    overwritten in place and the two other parameters are appended. *)
Example modal_youtube_src_sample :
  MkVideoModal.modal_youtube_src MkVideoModal.sample_codec
    (Some "https://www.youtube.com/embed/v?rel=0&autoplay=0") =
  "https://www.youtube.com/embed/v?rel=0&autoplay=1&mute=1&controls=1".
Proof. vm_compute. reflexivity. Qed.

Lemma modal_closes_and_leaves_witness :
  let s := MkVideoPlayer.mp4_player
             {[ "data-use-modal" := "true"; "data-video-desktop" := "/videos/a.mp4" ]} in
  let opened := MkVideoModal.openModalPlayer MkVideoPlayer.desktop
                  MkVideoModal.sample_codec s
                  (Browser.fresh_window, MkVideoModal.empty_page) in
  let closed := MkVideoModal.close 0 (snd opened) in
  ("mk-video-modal-open" ∉ MkVideoModal.rootClasses closed) /\
  MkVideoModal.modals (MkVideoModal.timeout_fires closed) = [] /\
  MkVideoModal.timeouts (MkVideoModal.timeout_fires closed) = [].
Proof.
  intros s.
  destruct (modal_closes_and_leaves MkVideoPlayer.desktop MkVideoModal.sample_codec
              s s Browser.fresh_window MkVideoModal.empty_page)
    as (_ & Hclass & Hgone & Htimeouts & _).
  - reflexivity.
  - reflexivity.
  - split; [exact Hclass|]. split; [exact Hgone|exact Htimeouts].
Defined.
